(** * The Parcels field sampler ([parcels.h]): cell location and space-time
      interpolation

    The C header is embedded function by function.  The code is written
    once, over an interface [Arith] of the arithmetic it uses, and run on
    two arithmetics:

    - [ieee]: the binary64 numbers of the machine (C [double]), with the
      rounding to binary32 wherever the source computes in C [float]; this
      is the arithmetic with NaN and infinities;
    - [exact]: the rationals in canonical form, where no operation rounds.
      It is the arithmetic of the code without rounding wherever no root
      is taken and no divisor is 0: a rational arithmetic has neither the
      roots nor the NaN and the infinities of C.  The theorems stated on
      [exact] assume what keeps the divisors other than 0 (strictly
      increasing axes) or do not depend on the quotient, and none depends
      on a root: where the curvilinear solve takes one (on a cell that is
      not a parallelogram), it is run on [ieee].

    C [int] values are integers of [Z]; the index arithmetic of the header
    stays within the array dimensions, so no [int] operation overflows.
    A read outside an array, and a conversion to [int] of a number that no
    [int] holds, have no defined behaviour in C: the functions below answer
    [None] there.  The [printf] calls of the header are not modelled. *)

From Stdlib Require Import ZArith List Bool Lia.
From Stdlib Require Import QArith Qcanon Qround Qabs Qcabs Lqa.
From Stdlib Require Import Floats.
Import ListNotations.

Close Scope Qc_scope.
Local Open Scope Z_scope.

(** ** Enumerations *)

Inductive ErrorCode : Type :=
| SUCCESS
| REPEAT
| DELETE
| ERROR
| ERROR_OUT_OF_BOUNDS
| ERROR_TIME_EXTRAPOLATION.

Definition ErrorCode_value (e : ErrorCode) : Z :=
  match e with
  | SUCCESS => 0 | REPEAT => 1 | DELETE => 2 | ERROR => 3
  | ERROR_OUT_OF_BOUNDS => 4 | ERROR_TIME_EXTRAPOLATION => 5
  end.

Inductive GridCode : Type :=
| RECTILINEAR_Z_GRID
| RECTILINEAR_S_GRID
| CURVILINEAR_Z_GRID
| CURVILINEAR_S_GRID.

(** [CGrid.gtype] is an [int]; only four values name a grid. *)
Definition GridCode_of_int (n : Z) : option GridCode :=
  if n =? 0 then Some RECTILINEAR_Z_GRID
  else if n =? 1 then Some RECTILINEAR_S_GRID
  else if n =? 2 then Some CURVILINEAR_Z_GRID
  else if n =? 3 then Some CURVILINEAR_S_GRID
  else None.

Definition GridCode_value (g : GridCode) : Z :=
  match g with
  | RECTILINEAR_Z_GRID => 0 | RECTILINEAR_S_GRID => 1
  | CURVILINEAR_Z_GRID => 2 | CURVILINEAR_S_GRID => 3
  end.

Inductive InterpCode : Type :=
| LINEAR
| NEAREST.

(** [interp_method] is passed as an [int]. *)
Definition InterpCode_of_int (n : Z) : option InterpCode :=
  if n =? 0 then Some LINEAR
  else if n =? 1 then Some NEAREST
  else None.

Definition ErrorCode_eq_dec (a b : ErrorCode) : {a = b} + {a <> b}.
Proof. decide equality. Defined.

(** ** The arithmetic of the header *)

Class Arith (F : Type) : Type := {
  of_int : Z -> F;            (* conversion of an [int] *)
  add : F -> F -> F;
  sub : F -> F -> F;
  mul : F -> F -> F;
  div : F -> F -> F;
  opp : F -> F;
  fabs : F -> F;
  fsqrt : F -> F;
  ffloor : F -> F;
  ltb : F -> F -> bool;
  leb : F -> F -> bool;
  eqb : F -> F -> bool;
  to_int : F -> option Z;     (* conversion [double] to [int] *)
  to_float : F -> F           (* conversion to C [float] *)
}.

Declare Scope num_scope.
Delimit Scope num_scope with num.
Notation "x + y" := (add x y) : num_scope.
Notation "x - y" := (sub x y) : num_scope.
Notation "x * y" := (mul x y) : num_scope.
Notation "x / y" := (div x y) : num_scope.
Notation "- x" := (opp x) : num_scope.
Notation "x <? y" := (ltb x y) : num_scope.
Notation "x >? y" := (ltb y x) : num_scope.
Notation "x <=? y" := (leb x y) : num_scope.
Notation "x >=? y" := (leb y x) : num_scope.
Notation "x =? y" := (eqb x y) : num_scope.

(** ** Undefined behaviour and array reads *)

Definition bind {A B : Type} (m : option A) (k : A -> option B) : option B :=
  match m with
  | Some a => k a
  | None => None
  end.

Notation "x <- m ;; k" := (bind m (fun x => k))
  (at level 61, m at next level, right associativity).
Notation "' p <- m ;; k" := (bind m (fun x => match x with p => k end))
  (at level 61, p pattern, m at next level, right associativity).

(** [a.[i]]: the element [i] of the array [a]. *)
Definition rd {A : Type} (a : list A) (i : Z) : option A :=
  if i <? 0 then None else nth_error a (Z.to_nat i).

Notation "a .[ i ]" := (rd a i) (at level 1, format "a .[ i ]").

(** [a[i] = v] *)
Fixpoint set_nth {A : Type} (a : list A) (n : nat) (v : A) : option (list A) :=
  match a, n with
  | [], _ => None
  | _ :: r, O => Some (v :: r)
  | h :: r, S n' => r' <- set_nth r n' v ;; Some (h :: r')
  end.

Definition wr {A : Type} (a : list A) (i : Z) (v : A) : option (list A) :=
  if i <? 0 then None else set_nth a (Z.to_nat i) v.

Fixpoint mapM {A B : Type} (f : A -> option B) (l : list A) : option (list B) :=
  match l with
  | [] => Some []
  | a :: r => b <- f a ;; bs <- mapM f r ;; Some (b :: bs)
  end.

(** [0, 1, ..., n-1] *)
Definition upto (n : Z) : list Z := map Z.of_nat (seq 0 (Z.to_nat n)).

(** ** Data structures *)

Record CStructuredGrid (F : Type) : Type := {
  g_xdim : Z; g_ydim : Z; g_zdim : Z; g_tdim : Z; g_z4d : Z;
  g_sphere_mesh : Z; g_zonal_periodic : Z;
  g_lon : list F; g_lat : list F; g_depth : list F;
  g_time : list F
}.

Record CGrid (F : Type) : Type := {
  gtype : Z;
  grid : CStructuredGrid F
}.

Record CField (F : Type) : Type := {
  f_xdim : Z; f_ydim : Z; f_zdim : Z; f_tdim : Z;
  igrid : Z; allow_time_extrapolation : Z; time_periodic : Z;
  data : list F;
  f_grid : CGrid F
}.

(** The warm-start cursors: four [int] arrays, one slot per grid. *)
Record Cursors : Type := {
  c_xi : list Z; c_yi : list Z; c_zi : list Z; c_ti : list Z
}.

(** The in/out parameters of the spatial locators. *)
Record Cell (F : Type) : Type := {
  xi : Z; yi : Z; zi : Z;
  xsi : F; eta : F; zeta : F
}.

Arguments g_xdim {F}. Arguments g_ydim {F}. Arguments g_zdim {F}.
Arguments g_tdim {F}. Arguments g_z4d {F}. Arguments g_sphere_mesh {F}.
Arguments g_zonal_periodic {F}. Arguments g_lon {F}. Arguments g_lat {F}.
Arguments g_depth {F}. Arguments g_time {F}.
Arguments gtype {F}. Arguments grid {F}.
Arguments f_xdim {F}. Arguments f_ydim {F}. Arguments f_zdim {F}.
Arguments f_tdim {F}. Arguments igrid {F}.
Arguments allow_time_extrapolation {F}. Arguments time_periodic {F}.
Arguments data {F}. Arguments f_grid {F}.
Arguments xi {F}. Arguments yi {F}. Arguments zi {F}.
Arguments xsi {F}. Arguments eta {F}. Arguments zeta {F}.

(** A function body either returns an error code early or goes on; both
    carry the current content of the in/out parameters. *)
Inductive flow (S : Type) : Type :=
| Ret (e : ErrorCode) (s : S)
| Go (s : S).
Arguments Ret {S}. Arguments Go {S}.

Definition and_then {S : Type} (m : option (flow S))
    (k : S -> option (ErrorCode * S)) : option (ErrorCode * S) :=
  match m with
  | None => None
  | Some (Ret e s) => Some (e, s)
  | Some (Go s) => k s
  end.

Notation "x <~ m ;; k" := (and_then m (fun x => k))
  (at level 61, m at next level, right associativity).

Section Code.
Context {F : Type} {A : Arith F}.
Local Open Scope num_scope.

(** Arithmetic in the C type [float]: the operation, rounded. *)
Definition addf (x y : F) : F := to_float (x + y).
Definition subf (x y : F) : F := to_float (x - y).
Definition mulf (x y : F) : F := to_float (x * y).
Definition divf (x y : F) : F := to_float (x / y).

(** The literals [.5] and [1e-12]. *)
Definition half : F := of_int 1 / of_int 2.
Definition tiny : F := of_int 1 / of_int 1000000000000.

Definition set_xi (c : Cell F) (v : Z) : Cell F :=
  {| xi := v; yi := yi c; zi := zi c; xsi := xsi c; eta := eta c; zeta := zeta c |}.
Definition set_yi (c : Cell F) (v : Z) : Cell F :=
  {| xi := xi c; yi := v; zi := zi c; xsi := xsi c; eta := eta c; zeta := zeta c |}.
Definition set_zi (c : Cell F) (v : Z) : Cell F :=
  {| xi := xi c; yi := yi c; zi := v; xsi := xsi c; eta := eta c; zeta := zeta c |}.
Definition set_xsi (c : Cell F) (v : F) : Cell F :=
  {| xi := xi c; yi := yi c; zi := zi c; xsi := v; eta := eta c; zeta := zeta c |}.
Definition set_eta (c : Cell F) (v : F) : Cell F :=
  {| xi := xi c; yi := yi c; zi := zi c; xsi := xsi c; eta := v; zeta := zeta c |}.
Definition set_zeta (c : Cell F) (v : F) : Cell F :=
  {| xi := xi c; yi := yi c; zi := zi c; xsi := xsi c; eta := eta c; zeta := v |}.

(** *** The monotone walks

    [while (i < dim-1 && v > vals[i+1]) ++i;] and
    [while (i > 0 && v < vals[i]) --i;], on the index that the pointer
    argument designates.  The header writes this pair of loops for x, y,
    z and t; the walk on t goes up on [>=], hence the parameter [up].
    The first loop runs at most [dim-1-i] times and the second at most
    [i] times, which is the [n] they are started with. *)
Fixpoint walk_up (n : nat) (up : F -> F -> bool) (v : F) (dim : Z)
    (vals : list F) (i : Z) : option Z :=
  if (i <? dim - 1)%Z then
    w <- vals.[i + 1] ;;
    if up v w then
      match n with
      | O => None
      | S n' => walk_up n' up v dim vals (i + 1)
      end
    else Some i
  else Some i.

Fixpoint walk_down (n : nat) (v : F) (vals : list F) (i : Z) : option Z :=
  if (i >? 0)%Z then
    w <- vals.[i] ;;
    if v <? w then
      match n with
      | O => None
      | S n' => walk_down n' v vals (i - 1)
      end
    else Some i
  else Some i.

Definition walk (up : F -> F -> bool) (v : F) (dim : Z) (vals : list F)
    (i : Z) : option Z :=
  i1 <- walk_up (Z.to_nat (dim - 1 - i)) up v dim vals i ;;
  walk_down (Z.to_nat i1) v vals i1.

Definition gt (v w : F) : bool := v >? w.
Definition ge (v w : F) : bool := v >=? w.

(** *** [search_indices_vertical_z] *)
Definition search_indices_vertical_z (z : F) (zdim : Z) (zvals : list F)
    (zi : Z) (zeta : F) : option (ErrorCode * (Z * F)) :=
  z0 <- zvals.[0] ;;
  if z <? z0 then Some (ERROR_OUT_OF_BOUNDS, (zi, zeta)) else
  zl <- zvals.[zdim - 1] ;;
  if z >? zl then Some (ERROR_OUT_OF_BOUNDS, (zi, zeta)) else
  zi <- walk gt z zdim zvals zi ;;
  let zi := if (zi =? zdim - 1)%Z then (zi - 1)%Z else zi in
  lo <- zvals.[zi] ;;
  hi <- zvals.[zi + 1] ;;
  Some (SUCCESS, (zi, divf (subf z lo) (subf hi lo))).

(** The bilinear sum that the header writes out in
    [search_indices_vertical_s] and in the linear kernels: the four
    corners of the cell [(xi, yi)] in the table that starts at [base],
    rows of length [xdim]. *)
Definition bilinear_sum (xsi eta : F) (tab : list F) (base xdim : Z)
    (xi yi : Z) : option F :=
  d00 <- tab.[base + yi * xdim + xi] ;;
  d01 <- tab.[base + yi * xdim + (xi + 1)] ;;
  d11 <- tab.[base + (yi + 1) * xdim + (xi + 1)] ;;
  d10 <- tab.[base + (yi + 1) * xdim + xi] ;;
  Some ((of_int 1 - xsi) * (of_int 1 - eta) * d00
        + xsi * (of_int 1 - eta) * d01
        + xsi * eta * d11
        + (of_int 1 - xsi) * eta * d10).

(** *** [search_indices_vertical_s]

    The column [zcol] is filled level by level; the walk on it is the
    one of [search_indices_vertical_z], which the header repeats. *)
Definition zcol_level (xdim ydim zdim : Z) (zvals : list F) (xi yi : Z)
    (xsi eta : F) (z4d ti tdim : Z) (time t0 t1 : F) (zii : Z) : option F :=
  if (z4d =? 1)%Z then
    let ti1 := if (ti <? tdim - 1)%Z then (ti + 1)%Z else ti in
    zt0 <- bilinear_sum xsi eta zvals ((ti * zdim + zii) * ydim * xdim) xdim xi yi ;;
    zt1 <- bilinear_sum xsi eta zvals ((ti1 * zdim + zii) * ydim * xdim) xdim xi yi ;;
    Some (to_float (zt0 + (zt1 - zt0) * to_float ((time - t0) / (t1 - t0))))
  else
    v <- bilinear_sum xsi eta zvals (zii * ydim * xdim) xdim xi yi ;;
    Some (to_float v).

Definition search_indices_vertical_s (z : F) (xdim ydim zdim : Z)
    (zvals : list F) (xi yi : Z) (zi : Z) (xsi eta : F) (zeta : F)
    (z4d ti tdim : Z) (time t0 t1 : F) : option (ErrorCode * (Z * F)) :=
  zcol <- mapM (zcol_level xdim ydim zdim zvals xi yi xsi eta z4d ti tdim
                           time t0 t1) (upto zdim) ;;
  search_indices_vertical_z z zdim zcol zi zeta.

(** *** [fix_1d_index], [fix_2d_indices] *)
Definition fix_1d_index (xi xdim sphere_mesh : Z) : Z :=
  let xi := if (xi <? 0)%Z
            then if (sphere_mesh =? 0)%Z then 0%Z else (xdim - 2)%Z
            else xi in
  if (xi >? xdim - 2)%Z
  then if (sphere_mesh =? 0)%Z then (xdim - 2)%Z else 0%Z
  else xi.

Definition fix_2d_indices (xi yi xdim ydim sphere_mesh : Z) : Z * Z :=
  let xi := if (xi <? 0)%Z
            then if (sphere_mesh =? 0)%Z then 0%Z else (xdim - 2)%Z
            else xi in
  let xi := if (xi >? xdim - 2)%Z
            then if (sphere_mesh =? 0)%Z then (xdim - 2)%Z else 0%Z
            else xi in
  let yi := if (yi <? 0)%Z then 0%Z else yi in
  if (yi >? ydim - 2)%Z
  then (if (sphere_mesh =? 0)%Z then xi else (xdim - xi)%Z, (ydim - 2)%Z)
  else (xi, yi).

(** *** [search_indices_rectilinear] *)

(** The values [xvalsi], [xvalsi1] of the cell [i], brought next to [x];
    the header computes them before the loop and again in its body. *)
Definition unwrap_lon (x : F) (xvals : list F) (i : Z) : option (F * F) :=
  v <- xvals.[i] ;;
  let v := if v <? subf x (of_int 225) then addf v (of_int 360) else v in
  let v := if v >? addf x (of_int 225) then subf v (of_int 360) else v in
  v1 <- xvals.[i + 1] ;;
  let v1 := if v1 <? subf v (of_int 180) then addf v1 (of_int 360) else v1 in
  let v1 := if v1 >? addf v (of_int 180) then subf v1 (of_int 360) else v1 in
  Some (v, v1).

Definition itMax : Z := 10000.

(** [while ((xvalsi > x) || (xvalsi1 < x))]: the state is the index, the
    two values and the counter [it]; the body returns once [it] exceeds
    [itMax], so [itMax] rounds of [n] are enough. *)
Fixpoint sphere_walk (n : nat) (x : F) (xdim : Z) (xvals : list F)
    (i : Z) (v v1 : F) (it : Z) : option (flow (Z * (F * F))) :=
  if (v >? x) || (v1 <? x) then
    let i := if v1 <? x then (i + 1)%Z
             else if v >? x then (i - 1)%Z else i in
    let i := fix_1d_index i xdim 1 in
    '(v, v1) <- unwrap_lon x xvals i ;;
    let it := (it + 1)%Z in
    if (it >? itMax)%Z then Some (Ret ERROR_OUT_OF_BOUNDS (i, (v, v1)))
    else
      match n with
      | O => None
      | S n' => sphere_walk n' x xdim xvals i v v1 it
      end
  else Some (Go (i, (v, v1))).

(** [CHECKERROR(err)] after a vertical search that wrote [zi] and [zeta]. *)
Definition check_vertical (c : Cell F) (r : ErrorCode * (Z * F)) : flow (Cell F) :=
  let '(err, (zi', zeta')) := r in
  let c := set_zeta (set_zi c zi') zeta' in
  match err with
  | SUCCESS => Go c
  | _ => Ret err c
  end.

Definition search_indices_rectilinear (x y z : F) (xdim ydim zdim : Z)
    (xvals yvals zvals : list F) (sphere_mesh zonal_periodic : Z)
    (gcode : GridCode) (c : Cell F)
    (z4d ti tdim : Z) (time t0 t1 : F) : option (ErrorCode * Cell F) :=
  c <~ (if (sphere_mesh =? 0)%Z then
          x0 <- xvals.[0] ;;
          if x <? x0 then Some (Ret ERROR_OUT_OF_BOUNDS c) else
          xl <- xvals.[xdim - 1] ;;
          if x >? xl then Some (Ret ERROR_OUT_OF_BOUNDS c) else
          i <- walk gt x xdim xvals (xi c) ;;
          lo <- xvals.[i] ;;
          hi <- xvals.[i + 1] ;;
          Some (Go (set_xsi (set_xi c i) (divf (subf x lo) (subf hi lo))))
        else
          rejected <-
            (if (zonal_periodic =? 0)%Z then
               x0 <- xvals.[0] ;;
               xl <- xvals.[xdim - 1] ;;
               if (x0 <? xl) && ((x <? x0) || (x >? xl)) then Some true
               else if (x0 >=? xl) && ((x <? x0) && (x >? xl)) then Some true
               else Some false
             else Some false) ;;
          if rejected : bool then Some (Ret ERROR_OUT_OF_BOUNDS c) else
          '(xvalsi, xvalsi1) <- unwrap_lon x xvals (xi c) ;;
          r <- sphere_walk (Z.to_nat itMax) x xdim xvals (xi c) xvalsi xvalsi1 0 ;;
          match r with
          | Ret e (i, _) => Some (Ret e (set_xi c i))
          | Go (i, (xvalsi, xvalsi1)) =>
              Some (Go (set_xsi (set_xi c i)
                                (divf (subf x xvalsi) (subf xvalsi1 xvalsi))))
          end) ;;
  y0 <- yvals.[0] ;;
  if y <? y0 then Some (ERROR_OUT_OF_BOUNDS, c) else
  yl <- yvals.[ydim - 1] ;;
  if y >? yl then Some (ERROR_OUT_OF_BOUNDS, c) else
  j <- walk gt y ydim yvals (yi c) ;;
  lo <- yvals.[j] ;;
  hi <- yvals.[j + 1] ;;
  let c := set_eta (set_yi c j) (divf (subf y lo) (subf hi lo)) in
  c <~ (if (zdim >? 1)%Z then
          match gcode with
          | RECTILINEAR_Z_GRID =>
              r <- search_indices_vertical_z z zdim zvals (zi c) (zeta c) ;;
              Some (check_vertical c r)
          | RECTILINEAR_S_GRID =>
              r <- search_indices_vertical_s z xdim ydim zdim zvals (xi c) (yi c)
                     (zi c) (xsi c) (eta c) (zeta c) z4d ti tdim time t0 t1 ;;
              Some (check_vertical c r)
          | _ => Some (Ret ERROR c)
          end
        else Some (Go (set_zeta c (of_int 0)))) ;;
  if (xsi c <? of_int 0) || (xsi c >? of_int 1) then Some (ERROR_OUT_OF_BOUNDS, c) else
  if (eta c <? of_int 0) || (eta c >? of_int 1) then Some (ERROR_OUT_OF_BOUNDS, c) else
  if (zeta c <? of_int 0) || (zeta c >? of_int 1) then Some (ERROR_OUT_OF_BOUNDS, c) else
  Some (SUCCESS, c).

(** *** [search_indices_curvilinear] *)

Definition maxIterSearch : Z := 1000000.

(** [xgrid_loc]: the longitudes of the four corners of the cell
    [(i, j)], lower left, lower right, upper right, upper left; on a
    sphere the first is brought next to [x] and the others next to the
    first. *)
Definition xgrid_loc (x : F) (xdim : Z) (xvals : list F) (sphere_mesh : Z)
    (i j : Z) : option (F * F * F * F) :=
  g0 <- xvals.[j * xdim + i] ;;
  g1 <- xvals.[j * xdim + (i + 1)] ;;
  g2 <- xvals.[(j + 1) * xdim + (i + 1)] ;;
  g3 <- xvals.[(j + 1) * xdim + i] ;;
  let unwrap (g0 g : F) : F :=
    let g := if g <? g0 - of_int 180 then g + of_int 360 else g in
    if g >? g0 + of_int 180 then g - of_int 360 else g in
  if (sphere_mesh =? 0)%Z then Some (g0, g1, g2, g3)
  else
    let g0 := if g0 <? subf x (of_int 225) then g0 + of_int 360 else g0 in
    let g0 := if g0 >? addf x (of_int 225) then g0 - of_int 360 else g0 in
    Some (g0, unwrap g0 g1, unwrap g0 g2, unwrap g0 g3).

(** [ygrid_loc]: the latitudes of the same corners. *)
Definition ygrid_loc (xdim : Z) (yvals : list F) (i j : Z)
    : option (F * F * F * F) :=
  h0 <- yvals.[j * xdim + i] ;;
  h1 <- yvals.[j * xdim + (i + 1)] ;;
  h2 <- yvals.[(j + 1) * xdim + (i + 1)] ;;
  h3 <- yvals.[(j + 1) * xdim + i] ;;
  Some (h0, h1, h2, h3).

(** The arrays [a] and [b]: the coefficients of the bilinear map of the
    corners, [p0 + a1 xsi + a2 eta + a3 xsi eta]. *)
Definition coefficients (p : F * F * F * F) : F * F * F * F :=
  let '(p0, p1, p2, p3) := p in
  (p0, - p0 + p1, - p0 + p3, p0 - p1 + p2 - p3).

(** [aa], [bb], [cc]: the equation [aa eta^2 + bb eta + cc = 0] that
    [eta] solves. *)
Definition quadratic (x y : F) (a b : F * F * F * F) : F * F * F :=
  let '(a0, a1, a2, a3) := a in
  let '(b0, b1, b2, b3) := b in
  (a3 * b2 - a2 * b3,
   a3 * b0 - a0 * b3 + a1 * b2 - a2 * b1 + x * b3 - y * a3,
   a1 * b0 - a0 * b1 + x * b1 - y * a1).

(** The new [xsi] and [eta] on the cell of the corners [g], [h]; [eta]
    is kept when the root is not a number. *)
Definition solve_cell (x y : F) (g h : F * F * F * F) (eta : F) : F * F :=
  let '(a0, a1, a2, a3) := coefficients g in
  let '(aa, bb, cc) := quadratic x y (coefficients g) (coefficients h) in
  let eta' :=
    if fabs aa <? tiny then - cc / bb
    else
      let det := fsqrt (bb * bb - of_int 4 * aa * cc) in
      if det =? det then (- bb + det) / (of_int 2 * aa) else eta in
  let xsi' := (x - a0 - a2 * eta') / (a1 + a3 * eta') in
  (xsi', eta').

(** One round of the search loop on the cell [(xi, yi)]: the new [xsi]
    and [eta]. *)
Definition curvilinear_solve (x y : F) (xdim : Z) (xvals yvals : list F)
    (sphere_mesh : Z) (c : Cell F) : option (F * F) :=
  g <- xgrid_loc x xdim xvals sphere_mesh (xi c) (yi c) ;;
  h <- ygrid_loc xdim yvals (xi c) (yi c) ;;
  Some (solve_cell x y g h (eta c)).

Definition outside_unit (v : F) : bool := (v <? of_int 0) || (v >? of_int 1).

(** The body of the search loop up to [fix_2d_indices]: the solve on the
    cell of the cursor, the two early returns at the corners of the
    domain, and the step of the cursor. *)
Definition curvilinear_round (x y : F) (xdim ydim : Z)
    (xvals yvals : list F) (sphere_mesh : Z) (c : Cell F)
    : option (flow (Cell F)) :=
  '(xsi', eta') <- curvilinear_solve x y xdim xvals yvals sphere_mesh c ;;
  let c := set_xsi (set_eta c eta') xsi' in
  if (xsi' <? of_int 0) && (eta' <? of_int 0) && (xi c =? 0)%Z && (yi c =? 0)%Z
  then Some (Ret ERROR_OUT_OF_BOUNDS c) else
  if (xsi' >? of_int 1) && (eta' >? of_int 1)
     && (xi c =? xdim - 1)%Z && (yi c =? ydim - 1)%Z
  then Some (Ret ERROR_OUT_OF_BOUNDS c) else
  let i := xi c in
  let i := if xsi' <? of_int 0 then (i - 1)%Z else i in
  let i := if xsi' >? of_int 1 then (i + 1)%Z else i in
  let j := yi c in
  let j := if eta' <? of_int 0 then (j - 1)%Z else j in
  let j := if eta' >? of_int 1 then (j + 1)%Z else j in
  let '(i, j) := fix_2d_indices i j xdim ydim sphere_mesh in
  Some (Go (set_yi (set_xi c i) j)).

(** [while ((xsi < 0) || (xsi > 1) || (eta < 0) || (eta > 1))], with the
    counter [it]; the body returns once [it] exceeds [maxIterSearch]. *)
Fixpoint curvilinear_walk (n : nat) (x y : F) (xdim ydim : Z)
    (xvals yvals : list F) (sphere_mesh : Z) (c : Cell F) (it : Z)
    : option (flow (Cell F)) :=
  if outside_unit (xsi c) || outside_unit (eta c) then
    r <- curvilinear_round x y xdim ydim xvals yvals sphere_mesh c ;;
    match r with
    | Ret e c => Some (Ret e c)
    | Go c =>
        let it := (it + 1)%Z in
        if (it >? maxIterSearch)%Z then Some (Ret ERROR_OUT_OF_BOUNDS c)
        else
          match n with
          | O => None
          | S n' => curvilinear_walk n' x y xdim ydim xvals yvals sphere_mesh c it
          end
    end
  else Some (Go c).

Definition search_indices_curvilinear (x y z : F) (xdim ydim zdim : Z)
    (xvals yvals zvals : list F) (sphere_mesh zonal_periodic : Z)
    (gcode : GridCode) (c : Cell F)
    (z4d ti tdim : Z) (time t0 t1 : F) : option (ErrorCode * Cell F) :=
  rejected <-
    (if (zonal_periodic =? 0)%Z || (sphere_mesh =? 0)%Z then
       x0 <- xvals.[0] ;;
       xl <- xvals.[xdim - 1] ;;
       if (x0 <? xl) && ((x <? x0) || (x >? xl)) then Some true
       else if (x0 >=? xl) && ((x <? x0) && (x >? xl)) then Some true
       else Some false
     else Some false) ;;
  if rejected : bool then Some (ERROR_OUT_OF_BOUNDS, c) else
  let c := set_xsi (set_eta c (of_int (-1))) (of_int (-1)) in
  c <~ curvilinear_walk (Z.to_nat maxIterSearch) x y xdim ydim xvals yvals
                        sphere_mesh c 0 ;;
  if negb (xsi c =? xsi c) || negb (eta c =? eta c)
  then Some (ERROR_OUT_OF_BOUNDS, c) else
  c <~ (if (zdim >? 1)%Z then
          match gcode with
          | CURVILINEAR_Z_GRID =>
              r <- search_indices_vertical_z z zdim zvals (zi c) (zeta c) ;;
              Some (check_vertical c r)
          | CURVILINEAR_S_GRID =>
              r <- search_indices_vertical_s z xdim ydim zdim zvals (xi c) (yi c)
                     (zi c) (xsi c) (eta c) (zeta c) z4d ti tdim time t0 t1 ;;
              Some (check_vertical c r)
          | _ => Some (Ret ERROR c)
          end
        else Some (Go (set_zeta c (of_int 0)))) ;;
  if (xsi c <? of_int 0) || (xsi c >? of_int 1) then Some (ERROR_OUT_OF_BOUNDS, c) else
  if (eta c <? of_int 0) || (eta c >? of_int 1) then Some (ERROR_OUT_OF_BOUNDS, c) else
  if (zeta c <? of_int 0) || (zeta c >? of_int 1) then Some (ERROR_OUT_OF_BOUNDS, c) else
  Some (SUCCESS, c).

(** *** [search_indices] *)
Definition search_indices (x y z : F) (xdim ydim zdim : Z)
    (xvals yvals zvals : list F) (c : Cell F)
    (sphere_mesh zonal_periodic : Z) (gcode : GridCode) (z4d : Z)
    (ti tdim : Z) (time t0 t1 : F) : option (ErrorCode * Cell F) :=
  match gcode with
  | RECTILINEAR_Z_GRID | RECTILINEAR_S_GRID =>
      search_indices_rectilinear x y z xdim ydim zdim xvals yvals zvals
        sphere_mesh zonal_periodic gcode c z4d ti tdim time t0 t1
  | CURVILINEAR_Z_GRID | CURVILINEAR_S_GRID =>
      search_indices_curvilinear x y z xdim ydim zdim xvals yvals zvals
        sphere_mesh zonal_periodic gcode c z4d ti tdim time t0 t1
  end.

(** *** [search_time_index]

    The function calls itself after it has reduced [t] by whole periods;
    [fuel] bounds the depth of these calls.  The result carries the
    content of the in/out parameters [t] and [ti]. *)
Fixpoint search_time_index (fuel : nat) (t : F) (size : Z) (tvals : list F)
    (ti : Z) (time_periodic : Z) : option (ErrorCode * (F * Z)) :=
  let ti := if (ti <? 0)%Z then 0%Z else ti in
  let reduce (t : F) (ti : Z) : option (F * Z) :=
    t0 <- tvals.[0] ;;
    tl <- tvals.[size - 1] ;;
    periods <- to_int (ffloor ((t - t0) / (tl - t0))) ;;
    let t := t - of_int periods * (tl - t0) in
    match fuel with
    | O => None
    | S fuel' =>
        '(_, r) <- search_time_index fuel' t size tvals ti time_periodic ;;
        Some r
    end in
  '(t, ti) <-
    (if (time_periodic =? 1)%Z then
       t0 <- tvals.[0] ;;
       if t <? t0 then reduce t (size - 1)%Z
       else
         tl <- tvals.[size - 1] ;;
         if t >? tl then reduce t 0%Z else Some (t, ti)
     else Some (t, ti)) ;;
  ti <- walk ge t size tvals ti ;;
  Some (SUCCESS, (t, ti)).

(** *** The spatial kernels

    [f_data] is the time slice that starts at [base] in the data cube. *)
Definition spatial_interpolation_bilinear (xsi eta : F) (xi yi xdim : Z)
    (f_data : list F) (base : Z) : option (ErrorCode * F) :=
  v <- bilinear_sum xsi eta f_data base xdim xi yi ;;
  Some (SUCCESS, to_float v).

Definition spatial_interpolation_trilinear (xsi eta zeta : F) (xi yi zi : Z)
    (xdim ydim : Z) (f_data : list F) (base : Z) : option (ErrorCode * F) :=
  f0 <- bilinear_sum xsi eta f_data (base + zi * ydim * xdim) xdim xi yi ;;
  f1 <- bilinear_sum xsi eta f_data (base + (zi + 1) * ydim * xdim) xdim xi yi ;;
  let f0 := to_float f0 in
  let f1 := to_float f1 in
  Some (SUCCESS, to_float ((of_int 1 - zeta) * f0 + zeta * f1)).

Definition spatial_interpolation_nearest2D (xsi eta : F) (xi yi xdim : Z)
    (f_data : list F) (base : Z) : option (ErrorCode * F) :=
  let ii := if xsi <? half then xi else (xi + 1)%Z in
  let jj := if eta <? half then yi else (yi + 1)%Z in
  v <- f_data.[base + jj * xdim + ii] ;;
  Some (SUCCESS, v).

Definition spatial_interpolation_nearest3D (xsi eta zeta : F) (xi yi zi : Z)
    (xdim ydim : Z) (f_data : list F) (base : Z) : option (ErrorCode * F) :=
  let ii := if xsi <? half then xi else (xi + 1)%Z in
  let jj := if eta <? half then yi else (yi + 1)%Z in
  let kk := if zeta <? half then zi else (zi + 1)%Z in
  v <- f_data.[base + (kk * ydim + jj) * xdim + ii] ;;
  Some (SUCCESS, v).

(** *** [temporal_interpolation_structured_grid] *)

(** The slot [igrid] of the four cursor arrays. *)
Definition set_ti (cur : Cursors) (ig : Z) (v : Z) : option Cursors :=
  a <- wr (c_ti cur) ig v ;;
  Some {| c_xi := c_xi cur; c_yi := c_yi cur; c_zi := c_zi cur; c_ti := a |}.

Definition set_cell (cur : Cursors) (ig : Z) (c : Cell F) : option Cursors :=
  ax <- wr (c_xi cur) ig (xi c) ;;
  ay <- wr (c_yi cur) ig (yi c) ;;
  az <- wr (c_zi cur) ig (zi c) ;;
  Some {| c_xi := ax; c_yi := ay; c_zi := az; c_ti := c_ti cur |}.

(** The cell that [&xi[igrid]], [&yi[igrid]], [&zi[igrid]] and the locals
    [xsi], [eta], [zeta] make up; the locals have no initial value in the
    header and no locator reads one before it has written it. *)
Definition get_cell (cur : Cursors) (ig : Z) : option (Cell F) :=
  i <- (c_xi cur).[ig] ;;
  j <- (c_yi cur).[ig] ;;
  k <- (c_zi cur).[ig] ;;
  Some {| xi := i; yi := j; zi := k;
          xsi := of_int 0; eta := of_int 0; zeta := of_int 0 |}.

(** The spatial interpolation of one time slice, by method and rank;
    [None] when the method is neither [LINEAR] nor [NEAREST]. *)
Definition spatial_kernel (interp_method : Z) (g : CStructuredGrid F)
    (c : Cell F) (f_data : list F) (base : Z)
    : option (option (ErrorCode * F)) :=
  match InterpCode_of_int interp_method with
  | Some LINEAR =>
      r <- (if (g_zdim g =? 1)%Z
            then spatial_interpolation_bilinear (xsi c) (eta c) (xi c) (yi c)
                   (g_xdim g) f_data base
            else spatial_interpolation_trilinear (xsi c) (eta c) (zeta c)
                   (xi c) (yi c) (zi c) (g_xdim g) (g_ydim g) f_data base) ;;
      Some (Some r)
  | Some NEAREST =>
      r <- (if (g_zdim g =? 1)%Z
            then spatial_interpolation_nearest2D (xsi c) (eta c) (xi c) (yi c)
                   (g_xdim g) f_data base
            else spatial_interpolation_nearest3D (xsi c) (eta c) (zeta c)
                   (xi c) (yi c) (zi c) (g_xdim g) (g_ydim g) f_data base) ;;
      Some (Some r)
  | None => Some None
  end.

(** The two branches of the driver, on the located time index [ti] and
    the time [time] that [search_time_index] left.  The result is the error
    code, the cursors and the content of [*value]: [None] while the
    function has not written it. *)
Definition two_samples (x y z time : F) (f : CField F) (gcode : GridCode)
    (cur : Cursors) (ti : Z) (interp_method : Z)
    : option (ErrorCode * (Cursors * option F)) :=
  let g := grid (f_grid f) in
  let ig := igrid f in
  let slice := (f_zdim f * f_ydim f * f_xdim f)%Z in
  t0 <- (g_time g).[ti] ;;
  t1 <- (g_time g).[ti + 1] ;;
  c <- get_cell cur ig ;;
  '(err, c) <- search_indices x y z (g_xdim g) (g_ydim g) (g_zdim g)
                 (g_lon g) (g_lat g) (g_depth g) c
                 (g_sphere_mesh g) (g_zonal_periodic g) gcode (g_z4d g)
                 ti (g_tdim g) time t0 t1 ;;
  cur <- set_cell cur ig c ;;
  match err with
  | SUCCESS =>
      k0 <- spatial_kernel interp_method g c (data f) (ti * slice) ;;
      match k0 with
      | None => Some (ERROR, (cur, None))
      | Some (_, f0) =>
          k1 <- spatial_kernel interp_method g c (data f) ((ti + 1) * slice) ;;
          match k1 with
          | None => Some (ERROR, (cur, None))
          | Some (_, f1) =>
              Some (SUCCESS,
                    (cur, Some (addf f0 (mulf (subf f1 f0)
                                   (to_float ((time - t0) / (t1 - t0)))))))
          end
      end
  | _ => Some (err, (cur, None))
  end.

Definition one_sample (x y z : F) (f : CField F) (gcode : GridCode)
    (cur : Cursors) (ti : Z) (interp_method : Z)
    : option (ErrorCode * (Cursors * option F)) :=
  let g := grid (f_grid f) in
  let ig := igrid f in
  let slice := (f_zdim f * f_ydim f * f_xdim f)%Z in
  t0 <- (g_time g).[ti] ;;
  c <- get_cell cur ig ;;
  '(err, c) <- search_indices x y z (g_xdim g) (g_ydim g) (g_zdim g)
                 (g_lon g) (g_lat g) (g_depth g) c
                 (g_sphere_mesh g) (g_zonal_periodic g) gcode (g_z4d g)
                 ti (g_tdim g) t0 t0 (t0 + of_int 1) ;;
  cur <- set_cell cur ig c ;;
  match err with
  | SUCCESS =>
      k0 <- spatial_kernel interp_method g c (data f) (ti * slice) ;;
      match k0 with
      | None => Some (ERROR, (cur, None))
      | Some (_, v) => Some (SUCCESS, (cur, Some v))
      end
  | _ => Some (err, (cur, None))
  end.

(** The test on the time before any search:
    [time_periodic == 0 && allow_time_extrapolation == 0 &&
     (time < time[0] || time > time[tdim-1])]. *)
Definition extrapolates (time : F) (f : CField F) : option bool :=
  let g := grid (f_grid f) in
  if (time_periodic f =? 0)%Z && (allow_time_extrapolation f =? 0)%Z then
    t0 <- (g_time g).[0] ;;
    if time <? t0 then Some true else
    tl <- (g_time g).[g_tdim g - 1] ;;
    Some (time >? tl)
  else Some false.

Definition temporal_interpolation_structured_grid (fuel : nat)
    (x y z time : F) (f : CField F) (gcode : GridCode) (cur : Cursors)
    (interp_method : Z) : option (ErrorCode * (Cursors * option F)) :=
  let g := grid (f_grid f) in
  let ig := igrid f in
  refused <- extrapolates time f ;;
  if refused : bool then Some (ERROR_TIME_EXTRAPOLATION, (cur, None)) else
  ti0 <- (c_ti cur).[ig] ;;
  '(_, (time, ti)) <-
    search_time_index fuel time (g_tdim g) (g_time g) ti0 (time_periodic f) ;;
  cur <- set_ti cur ig ti ;;
  two <- (if (ti <? g_tdim g - 1)%Z
          then tv <- (g_time g).[ti] ;; Some (time >? tv)
          else Some false) ;;
  if two : bool
  then two_samples x y z time f gcode cur ti interp_method
  else one_sample x y z f gcode cur ti interp_method.

(** *** [temporal_interpolation] *)
Definition temporal_interpolation (fuel : nat) (x y z time : F) (f : CField F)
    (cur : Cursors) (interp_method : Z)
    : option (ErrorCode * (Cursors * option F)) :=
  match GridCode_of_int (gtype (f_grid f)) with
  | Some gcode =>
      temporal_interpolation_structured_grid fuel x y z time f gcode cur
        interp_method
  | None => Some (ERROR, (cur, None))
  end.

(** What a pointer argument [value] holds after a call that may have
    written it. *)
Definition written (old : F) (w : option F) : F :=
  match w with
  | Some v => v
  | None => old
  end.

(** *** [temporal_interpolationUV]

    [valueU] and [valueV] are the contents of the two output arguments
    before the call; the result carries their contents after it. *)
Definition temporal_interpolationUV (fuel : nat) (x y z time : F)
    (U V : CField F) (cur : Cursors) (valueU valueV : F) (interp_method : Z)
    : option (ErrorCode * (Cursors * (F * F))) :=
  '(err, (cur, w)) <- temporal_interpolation fuel x y z time U cur interp_method ;;
  let valueU := written valueU w in
  match err with
  | SUCCESS =>
      '(err, (cur, w)) <- temporal_interpolation fuel x y z time V cur interp_method ;;
      let valueV := written valueV w in
      match err with
      | SUCCESS => Some (SUCCESS, (cur, (valueU, valueV)))
      | _ => Some (err, (cur, (valueU, valueV)))
      end
  | _ => Some (err, (cur, (valueU, valueV)))
  end.

(** *** [temporal_interpolationUVrotation]

    One call of [temporal_interpolation] into a local variable, followed
    by [CHECKERROR]: the rest [k] runs on the value and the cursors when
    the call succeeds, and the error code is returned with the outputs as
    they are otherwise.  A local that a successful call left unwritten
    would be read without a value. *)
Definition sample (fuel : nat) (x y z time : F) (f : CField F) (cur : Cursors)
    (interp_method : Z) (out : F * F)
    (k : F -> Cursors -> option (ErrorCode * (Cursors * (F * F))))
    : option (ErrorCode * (Cursors * (F * F))) :=
  '(err, (cur, w)) <- temporal_interpolation fuel x y z time f cur interp_method ;;
  match err with
  | SUCCESS =>
      match w with
      | Some v => k v cur
      | None => None
      end
  | _ => Some (err, (cur, out))
  end.

Definition temporal_interpolationUVrotation (fuel : nat) (x y z time : F)
    (U V cosU sinU cosV sinV : CField F) (cur : Cursors)
    (valueU valueV : F) (interp_method : Z)
    : option (ErrorCode * (Cursors * (F * F))) :=
  let out := (valueU, valueV) in
  sample fuel x y z time U cur interp_method out (fun u_val cur =>
  sample fuel x y z time V cur interp_method out (fun v_val cur =>
  sample fuel x y z time cosU cur interp_method out (fun cosU_val cur =>
  sample fuel x y z time sinU cur interp_method out (fun sinU_val cur =>
  sample fuel x y z time cosV cur interp_method out (fun cosV_val cur =>
  sample fuel x y z time sinV cur interp_method out (fun sinV_val cur =>
  Some (SUCCESS,
        (cur, (subf (mulf u_val cosU_val) (mulf v_val sinV_val),
               addf (mulf u_val sinU_val) (mulf v_val cosV_val)))))))))).

End Code.

(** ** The two arithmetics *)

Module IEEE.

(** [int] to [double]; every [int] is a binary64 number. *)
Definition from_int (z : Z) : float :=
  match z with
  | Z0 => PrimFloat.zero
  | Zpos _ => PrimFloat.of_uint63 (Uint63.of_Z z)
  | Zneg p => PrimFloat.opp (PrimFloat.of_uint63 (Uint63.of_Z (Zpos p)))
  end.

(** The integer part of [m * 2^e], towards zero. *)
Definition trunc_pos (m : positive) (e : Z) : Z :=
  if (0 <=? e)%Z then Z.shiftl (Zpos m) e else Z.shiftr (Zpos m) (- e).

(** [floor] of [math.h]. *)
Definition floor (x : float) : float :=
  match Prim2SF x with
  | S754_finite s m e =>
      if (0 <=? e)%Z then x
      else
        let q := trunc_pos m e in
        let exact := (Z.shiftl q (- e) =? Zpos m)%Z in
        if s then from_int (- (if exact then q else q + 1))
        else from_int q
  | _ => x
  end.

(** [double] to [int]: the fraction is dropped; no value when the
    number is not finite or no [int] holds its integer part. *)
Definition trunc (x : float) : option Z :=
  match Prim2SF x with
  | S754_zero _ => Some 0%Z
  | S754_finite s m e =>
      let v := if s then (- trunc_pos m e)%Z else trunc_pos m e in
      if ((- 2147483648 <=? v) && (v <=? 2147483647))%Z then Some v else None
  | _ => None
  end.

(** [double] to [float]: rounding to the nearest binary32 number, ties
    to even. *)
Definition round32 (x : float) : float :=
  match Prim2SF x with
  | S754_finite s m e => SF2Prim (binary_round 24 128 s m e)
  | _ => x
  end.

#[export] Instance ieee : Arith float := {|
  of_int := from_int;
  add := PrimFloat.add;
  sub := PrimFloat.sub;
  mul := PrimFloat.mul;
  div := PrimFloat.div;
  opp := PrimFloat.opp;
  fabs := PrimFloat.abs;
  fsqrt := PrimFloat.sqrt;
  ffloor := IEEE.floor;
  ltb := PrimFloat.ltb;
  leb := PrimFloat.leb;
  eqb := PrimFloat.eqb;
  to_int := IEEE.trunc;
  to_float := round32
|}.

End IEEE.

Module Exact.

Definition from_int (z : Z) : Qc := Q2Qc (inject_Z z).

Definition lt_bool (a b : Qc) : bool :=
  match Qccompare a b with Lt => true | _ => false end.

Definition le_bool (a b : Qc) : bool :=
  match Qccompare a b with Gt => false | _ => true end.

Definition floor (a : Qc) : Qc := Q2Qc (inject_Z (Qfloor a)).

(** The root of a square of a rational.  Of another number it is the
    root rounded down to a multiple of the inverse of the denominator,
    and 0 of a negative number, where C has NaN: this is not the [sqrt]
    of C, and no theorem of this file rests on its value. *)
Definition sqrt (a : Qc) : Qc :=
  Q2Qc (Z.sqrt (Qnum a * Zpos (Qden a)) # Qden a).

Definition trunc (a : Qc) : option Z :=
  let v := Z.quot (Qnum a) (Zpos (Qden a)) in
  if ((- 2147483648 <=? v) && (v <=? 2147483647))%Z then Some v else None.

(** The division is the one of [Qc], with [x / 0 = 0] where C has an
    infinity or NaN. *)
#[export] Instance exact : Arith Qc := {|
  of_int := Exact.from_int;
  add := Qcplus;
  sub := Qcminus;
  mul := Qcmult;
  div := Qcdiv;
  opp := Qcopp;
  fabs := Qcabs;
  fsqrt := Exact.sqrt;
  ffloor := Exact.floor;
  ltb := lt_bool;
  leb := le_bool;
  eqb := Qc_eq_bool;
  to_int := Exact.trunc;
  to_float := fun a => a
|}.

End Exact.

Import IEEE Exact.

(** ** Vocabulary of the properties *)

(** A strictly increasing axis: every value is below the next one. *)
Fixpoint increasing {F : Type} {A : Arith F} (vals : list F) : bool :=
  match vals with
  | a :: (b :: _) as r => (a <? b)%num && increasing r
  | _ => true
  end.

(** The codes that a spatial locator returns. *)
Definition locator_code (e : ErrorCode) : Prop :=
  e = SUCCESS \/ e = ERROR \/ e = ERROR_OUT_OF_BOUNDS.

(** The [int] values. *)
Definition int_range (n : Z) : Prop :=
  (- 2147483648 <= n <= 2147483647)%Z.

(** The number of whole periods that [search_time_index] takes off [t],
    and what is left of [t]. *)
Definition periods (t0 tl t : Qc) : Z := Qfloor ((t - t0) / (tl - t0))%Qc.

Definition reduced (t0 tl t : Qc) : Qc :=
  (t - Exact.from_int (periods t0 tl t) * (tl - t0))%Qc.

(** [i] is the greatest index of [tvals] whose value is at most [t]. *)
Definition greatest_index (tvals : list Qc) (t : Qc) (i : Z) : Prop :=
  (exists v, tvals.[i] = Some v /\ (v <= t)%Qc) /\
  (forall j v, (i < j)%Z -> tvals.[j] = Some v -> (t < v)%Qc).

(** [v] lies between [lo] and [hi], and its fraction of the way. *)
Definition between (lo v hi : Qc) : Prop := (lo <= v)%Qc /\ (v <= hi)%Qc.

Definition fraction (lo v hi : Qc) : Qc := ((v - lo) / (hi - lo))%Qc.

Definition in_unit (v : Qc) : Prop := (0 <= v)%Qc /\ (v <= 1)%Qc.

(** The interval [i] of the axis [vals] holds [v], at the fraction [f]. *)
Definition in_interval (vals : list Qc) (i : Z) (v f : Qc) : Prop :=
  exists lo hi,
    vals.[i] = Some lo /\ vals.[i + 1] = Some hi /\
    between lo v hi /\ f = fraction lo v hi.

(** On a rectilinear grid, the cell of the cursor of [c] holds the point
    at the coordinates of [c]: along x (after the longitudes of the cell
    have been brought next to [x] on a sphere), along y, and along z on
    the column of the grid (the column that [search_indices_vertical_s]
    builds at the located point, on an S-grid). *)
Definition located_x (x : Qc) (xvals : list Qc) (sphere_mesh : Z)
    (c : Cell Qc) : Prop :=
  if (sphere_mesh =? 0)%Z then in_interval xvals (xi c) x (xsi c)
  else exists lo hi,
      unwrap_lon x xvals (xi c) = Some (lo, hi) /\
      between lo x hi /\ xsi c = fraction lo x hi.

Definition located_y (y : Qc) (yvals : list Qc) (c : Cell Qc) : Prop :=
  in_interval yvals (yi c) y (eta c).

(** The point of the quadrilateral of corners [p] at the coordinates
    [(xsi, eta)]. *)
Definition bilinear (p : Qc * Qc * Qc * Qc) (xsi eta : Qc) : Qc :=
  let '(p0, p1, p2, p3) := p in
  ((1 - xsi) * (1 - eta) * p0 + xsi * (1 - eta) * p1
   + xsi * eta * p2 + (1 - xsi) * eta * p3)%Qc.

Definition located_z (z : Qc) (xdim ydim zdim : Z) (zvals : list Qc)
    (gcode : GridCode) (z4d ti tdim : Z) (time t0 t1 : Qc) (c : Cell Qc)
    : Prop :=
  match gcode with
  | RECTILINEAR_Z_GRID | CURVILINEAR_Z_GRID =>
      in_interval zvals (zi c) z (zeta c)
  | RECTILINEAR_S_GRID | CURVILINEAR_S_GRID =>
      exists zcol,
        mapM (zcol_level xdim ydim zdim zvals (xi c) (yi c) (xsi c) (eta c)
                         z4d ti tdim time t0 t1) (upto zdim) = Some zcol
        /\ in_interval zcol (zi c) z (zeta c)
  end.

Definition curvilinear (gcode : GridCode) : bool :=
  match gcode with
  | CURVILINEAR_Z_GRID | CURVILINEAR_S_GRID => true
  | _ => false
  end.

(** A longitude axis that crosses the date line holds, after its first
    [n] values, values that are one turn behind: [unwrapped n xvals] is
    the axis with these values taken one turn further.  The axis
    350, 355, 0, 5, 10 becomes 350, 355, 360, 365, 370 for [n = 2]. *)
Fixpoint unwrapped (n : nat) (xvals : list Qc) : list Qc :=
  match xvals with
  | [] => []
  | v :: r =>
      match n with
      | O => (v + Exact.from_int 360)%Qc :: unwrapped O r
      | S n' => v :: unwrapped n' r
      end
  end.

(** The two values of a cell of a spherical axis brought next to [x], as
    [unwrap_lon] computes them in the exact arithmetic. *)
Definition next_to (x a : Qc) : Qc :=
  (let v := if ltb a (x - Exact.from_int 225) then a + Exact.from_int 360
            else a in
   if ltb (x + Exact.from_int 225) v then v - Exact.from_int 360 else v)%Qc.

Definition next_after (v b : Qc) : Qc :=
  (let w := if ltb b (v - Exact.from_int 180) then b + Exact.from_int 360
            else b in
   if ltb (v + Exact.from_int 180) w then w - Exact.from_int 360 else w)%Qc.

(** A grid whose arrays have the sizes that its dimensions announce: the
    axes of a rectilinear grid and the [ydim x xdim] tables of a
    curvilinear one, the levels of a Z-grid and the depth table of an
    S-grid (with its time slices when [z4d] is 1), and the time axis. *)
Definition s_grid (gcode : GridCode) : bool :=
  match gcode with
  | RECTILINEAR_S_GRID | CURVILINEAR_S_GRID => true
  | _ => false
  end.

Definition grid_sizes {F : Type} (gcode : GridCode) (g : CStructuredGrid F)
    : Prop :=
  (2 <= g_xdim g)%Z /\ (2 <= g_ydim g)%Z /\ (1 <= g_zdim g)%Z /\
  (1 <= g_tdim g <= Z.of_nat (length (g_time g)))%Z /\
  (if curvilinear gcode
   then (g_xdim g * g_ydim g <= Z.of_nat (length (g_lon g)))%Z /\
        (g_xdim g * g_ydim g <= Z.of_nat (length (g_lat g)))%Z
   else (g_xdim g <= Z.of_nat (length (g_lon g)))%Z /\
        (g_ydim g <= Z.of_nat (length (g_lat g)))%Z) /\
  ((1 < g_zdim g)%Z ->
   if s_grid gcode
   then ((if (g_z4d g =? 1)%Z then g_tdim g else 1)
         * g_zdim g * g_ydim g * g_xdim g
         <= Z.of_nat (length (g_depth g)))%Z
   else (g_zdim g <= Z.of_nat (length (g_depth g)))%Z).

(** A field whose data cube has the dimensions of its grid. *)
Definition field_sizes {F : Type} (f : CField F) : Prop :=
  let g := grid (f_grid f) in
  f_xdim f = g_xdim g /\ f_ydim f = g_ydim g /\ f_zdim f = g_zdim g /\
  (g_tdim g * g_zdim g * g_ydim g * g_xdim g
   <= Z.of_nat (length (data f)))%Z.

(** A cell, and cursors, that point into the grid. *)
Definition cell_valid {F : Type} (g : CStructuredGrid F) (c : Cell F)
    : Prop :=
  (0 <= xi c <= g_xdim g - 2)%Z /\ (0 <= yi c <= g_ydim g - 2)%Z /\
  (0 <= zi c <= g_zdim g - 1)%Z.

Definition cursors_valid {F : Type} (g : CStructuredGrid F) (ig : Z)
    (cur : Cursors) : Prop :=
  exists i j k l,
    (c_xi cur).[ig] = Some i /\ (c_yi cur).[ig] = Some j /\
    (c_zi cur).[ig] = Some k /\ (c_ti cur).[ig] = Some l /\
    (0 <= i <= g_xdim g - 2)%Z /\ (0 <= j <= g_ydim g - 2)%Z /\
    (0 <= k <= g_zdim g - 1)%Z /\ (0 <= l <= g_tdim g - 1)%Z.

(** ** Grids and fields of the examples *)

Module Examples.

(** A cell with the cursor at the origin. *)
Definition origin {F : Type} {A : Arith F} : Cell F :=
  {| xi := 0; yi := 0; zi := 0;
     xsi := of_int 0; eta := of_int 0; zeta := of_int 0 |}.

Definition cursors0 : Cursors :=
  {| c_xi := [0]; c_yi := [0]; c_zi := [0]; c_ti := [0] |}.

Local Open Scope float_scope.

(** A rectilinear 3 x 3 grid of one level, with two times 0 and 10. *)
Definition plane : CStructuredGrid float :=
  {| g_xdim := 3; g_ydim := 3; g_zdim := 1; g_tdim := 2; g_z4d := 0;
     g_sphere_mesh := 0; g_zonal_periodic := 0;
     g_lon := [0; 1; 2]; g_lat := [0; 1; 2];
     g_depth := [0]; g_time := [0; 10] |}.

(** [data[t][0][y][x] = x + 2y + 10t] on [plane]. *)
Definition ramp : CField float :=
  {| f_xdim := 3; f_ydim := 3; f_zdim := 1; f_tdim := 2;
     igrid := 0; allow_time_extrapolation := 0; time_periodic := 0;
     data := [0; 1; 2; 2; 3; 4; 4; 5; 6;
              10; 11; 12; 12; 13; 14; 14; 15; 16];
     f_grid := {| gtype := 0; grid := plane |} |}.

(** A constant field on [plane]. *)
Definition constant (v : float) : CField float :=
  {| f_xdim := 3; f_ydim := 3; f_zdim := 1; f_tdim := 2;
     igrid := 0; allow_time_extrapolation := 0; time_periodic := 0;
     data := repeat v 18;
     f_grid := {| gtype := 0; grid := plane |} |}.

Local Close Scope float_scope.

(** A periodic field on the time axis 0, 1, 2: the slice of the time [i]
    holds [i] everywhere. *)
Definition clock_grid : CStructuredGrid Qc :=
  {| g_xdim := 2; g_ydim := 2; g_zdim := 1; g_tdim := 3; g_z4d := 0;
     g_sphere_mesh := 0; g_zonal_periodic := 0;
     g_lon := map Exact.from_int [0; 1]; g_lat := map Exact.from_int [0; 1];
     g_depth := map Exact.from_int [0];
     g_time := map Exact.from_int [0; 1; 2] |}.

Definition clock : CField Qc :=
  {| f_xdim := 2; f_ydim := 2; f_zdim := 1; f_tdim := 3;
     igrid := 0; allow_time_extrapolation := 0; time_periodic := 1;
     data := map Exact.from_int [0; 0; 0; 0; 1; 1; 1; 1; 2; 2; 2; 2];
     f_grid := {| gtype := 0; grid := clock_grid |} |}.

(** The same field without the period. *)
Definition ticks : CField Qc :=
  {| f_xdim := 2; f_ydim := 2; f_zdim := 1; f_tdim := 3;
     igrid := 0; allow_time_extrapolation := 0; time_periodic := 0;
     data := map Exact.from_int [0; 0; 0; 0; 1; 1; 1; 1; 2; 2; 2; 2];
     f_grid := {| gtype := 0; grid := clock_grid |} |}.

(** The axis 0, 1, 2 and the time 1.3. *)
Definition axis012 : list Qc := map Exact.from_int [0; 1; 2].
Definition t13 : Qc := Q2Qc (13 # 10).

(** Axes of the located cells: levels, a longitude axis across the date
    line, a latitude band, the unit axis, a depth table of two flat
    levels on a 2 x 2 grid, and the corners of a square cell. *)
Definition levels : list Qc := map Exact.from_int [0; 10; 20].
Definition dateline : list Qc := map Exact.from_int [350; 10].
Definition band : list Qc := map Exact.from_int [-1; 1].
Definition unit01 : list Qc := map Exact.from_int [0; 1].
Definition surface : list Qc := map Exact.from_int [0].
Definition square_lon : list Qc := map Exact.from_int [0; 2; 0; 2].
Definition square_lat : list Qc := map Exact.from_int [0; 0; 2; 2].

End Examples.

(** ** Further grids and fields *)

Module MoreExamples.
Import Examples.

(** The field [ticks] with the extrapolation in time allowed. *)
Definition drift : CField Qc :=
  {| f_xdim := 2; f_ydim := 2; f_zdim := 1; f_tdim := 3;
     igrid := 0; allow_time_extrapolation := 1; time_periodic := 0;
     data := map Exact.from_int [0; 0; 0; 0; 1; 1; 1; 1; 2; 2; 2; 2];
     f_grid := {| gtype := 0; grid := clock_grid |} |}.

(** The data of a 2 x 2 cell and of a 2 x 2 x 2 cell, and a column of
    two levels. *)
Definition corners : list Qc := map Exact.from_int [0; 1; 2; 3].
Definition cube : list Qc := map Exact.from_int [0; 1; 2; 3; 4; 5; 6; 7].

(** The cursor at the origin before the first round of the curvilinear
    search, where [xsi = eta = -1]. *)
Definition unsolved : Cell Qc :=
  {| xi := 0; yi := 0; zi := 0;
     xsi := Exact.from_int (-1); eta := Exact.from_int (-1);
     zeta := Exact.from_int 0 |}.

(** The corners of the square cell on the binary64 numbers. *)
Definition square_lon64 : list float := [0; 2; 0; 2]%float.
Definition square_lat64 : list float := [0; 0; 2; 2]%float.

(** The grid [plane] with the times 0 and 1, and a field of ones on it:
    a query after the time 1 is refused on this field. *)
Definition short_plane : CStructuredGrid float :=
  {| g_xdim := 3; g_ydim := 3; g_zdim := 1; g_tdim := 2; g_z4d := 0;
     g_sphere_mesh := 0; g_zonal_periodic := 0;
     g_lon := [0; 1; 2]%float; g_lat := [0; 1; 2]%float;
     g_depth := [0]%float; g_time := [0; 1]%float |}.

Definition brief : CField float :=
  {| f_xdim := 3; f_ydim := 3; f_zdim := 1; f_tdim := 2;
     igrid := 0; allow_time_extrapolation := 0; time_periodic := 0;
     data := repeat 1%float 18;
     f_grid := {| gtype := 0; grid := short_plane |} |}.

(** A curvilinear 3 x 3 grid of four convex cells, the field of its
    latitudes, and the cursor of its cell (1, 1). *)
Definition skew_lon : list float := [1; 3; 8; 4; 5; 6; 1; 5; 7]%float.
Definition skew_lat : list float := [1; 2; 2; 5; 6; 5; 8; 9; 7]%float.

Definition skew : CStructuredGrid float :=
  {| g_xdim := 3; g_ydim := 3; g_zdim := 1; g_tdim := 1; g_z4d := 0;
     g_sphere_mesh := 0; g_zonal_periodic := 0;
     g_lon := skew_lon; g_lat := skew_lat;
     g_depth := [0]%float; g_time := [0]%float |}.

Definition latitude : CField float :=
  {| f_xdim := 3; f_ydim := 3; f_zdim := 1; f_tdim := 1;
     igrid := 0; allow_time_extrapolation := 0; time_periodic := 0;
     data := skew_lat;
     f_grid := {| gtype := 2; grid := skew |} |}.

Definition cursors11 : Cursors :=
  {| c_xi := [1]; c_yi := [1]; c_zi := [0]; c_ti := [0] |}.

End MoreExamples.

(** * Properties *)

(** ** Reading the monadic code *)

Lemma bind_Some {X Y : Type} (m : option X) (k : X -> option Y) (y : Y) :
  bind m k = Some y -> exists x, m = Some x /\ k x = Some y.
Proof.
  destruct m as [x|]; simpl; intros H; [exists x; auto | discriminate].
Qed.

Lemma and_then_Some {S : Type} (m : option (flow S))
    (k : S -> option (ErrorCode * S)) (r : ErrorCode * S) :
  and_then m k = Some r ->
  (exists e s, m = Some (Ret e s) /\ r = (e, s)) \/
  (exists s, m = Some (Go s) /\ k s = Some r).
Proof.
  destruct m as [[e s|s]|]; simpl; intros H.
  - left. exists e, s. split; congruence.
  - right. exists s. auto.
  - discriminate.
Qed.

(** One step in a hypothesis [H : code = Some r]. *)
Ltac step H :=
  match type of H with
  | bind ?m _ = Some _ =>
      let x := fresh "x" in let E := fresh "E" in
      apply bind_Some in H; destruct H as (x & E & H)
  | and_then ?m _ = Some _ =>
      let e := fresh "e" in let s := fresh "s" in let E := fresh "E" in
      apply and_then_Some in H;
      destruct H as [(e & s & E & H) | (s & E & H)]
  | (if ?b then _ else _) = Some _ =>
      let E := fresh "E" in destruct b eqn:E
  | (match ?x with _ => _ end) = Some _ =>
      let E := fresh "E" in destruct x eqn:E
  | (let '(_, _) := ?x in _) = Some _ =>
      let E := fresh "E" in destruct x eqn:E
  | Some _ = Some _ => inversion H; subst; clear H
  | None = Some _ => discriminate H
  | _ = (_, _) => inversion H; subst; clear H
  end.

Ltac steps H := repeat (step H; try (simpl in H)).

Section Generic.
Context {F : Type} {A : Arith F}.
Local Open Scope num_scope.

(** ** The vector adapter with rotation *)

Lemma sample_inv fuel x y z time (f : CField F) cur m out k r :
  sample fuel x y z time f cur m out k = Some r ->
  (exists e cur' w,
      temporal_interpolation fuel x y z time f cur m = Some (e, (cur', w))
      /\ e <> SUCCESS /\ r = (e, (cur', out)))
  \/ (exists v cur',
      temporal_interpolation fuel x y z time f cur m
        = Some (SUCCESS, (cur', Some v))
      /\ k v cur' = Some r).
Proof.
  unfold sample. intros H.
  apply bind_Some in H. destruct H as ([e [cur' w]] & E & H).
  destruct e.
  all: try (left; eexists _, cur', w; split; [exact E|];
            split; [discriminate | congruence]).
  destruct w as [v|]; [|discriminate].
  right. exists v, cur'. auto.
Qed.

Lemma sample_ok fuel x y z time (f : CField F) cur m out k cur' v :
  temporal_interpolation fuel x y z time f cur m = Some (SUCCESS, (cur', Some v)) ->
  sample fuel x y z time f cur m out k = k v cur'.
Proof. unfold sample. intros ->. reflexivity. Qed.

Lemma sample_failed fuel x y z time (f : CField F) cur m out k e cur' w :
  temporal_interpolation fuel x y z time f cur m = Some (e, (cur', w)) ->
  e <> SUCCESS ->
  sample fuel x y z time f cur m out k = Some (e, (cur', out)).
Proof.
  unfold sample. intros -> N. cbn [bind].
  destruct e; try reflexivity. contradiction.
Qed.

Ltac failed f E :=
  inversion E; subst; split; [reflexivity | split; [reflexivity |]];
  eexists f, _, _; split; [simpl; tauto | eassumption].

(** C7: [temporal_interpolationUVrotation] queries U, V, cosU, sinU, cosV
    and sinV, in that order, at the same point [(x, y, z, time)],
    threading the cursors.  When the six queries succeed it returns
    SUCCESS with [u*cosU - v*sinV] and [u*sinU + v*cosV] (computed in
    [float]).  The first query that answers a code other than SUCCESS
    ends the call: that code is returned, with the cursors that the
    failed query left and with the two outputs as they were, and the
    queries after it are not made.  Conversely a code other than SUCCESS
    that the adapter returns is the code of one of the six queries. *)
Theorem rotation_outputs_and_errors :
  forall fuel x y z time (U V cosU sinU cosV sinV : CField F) cur
         valueU valueV m,
    let query f c := temporal_interpolation fuel x y z time f c m in
    let adapter :=
      temporal_interpolationUVrotation fuel x y z time U V cosU sinU cosV
        sinV cur valueU valueV m in
    (forall c1 c2 c3 c4 c5 c6 u v cu su cv sv,
        query U cur = Some (SUCCESS, (c1, Some u)) ->
        query V c1 = Some (SUCCESS, (c2, Some v)) ->
        query cosU c2 = Some (SUCCESS, (c3, Some cu)) ->
        query sinU c3 = Some (SUCCESS, (c4, Some su)) ->
        query cosV c4 = Some (SUCCESS, (c5, Some cv)) ->
        query sinV c5 = Some (SUCCESS, (c6, Some sv)) ->
        adapter
        = Some (SUCCESS,
                (c6, (subf (mulf u cu) (mulf v sv),
                      addf (mulf u su) (mulf v cv)))))
    /\
    (forall e cf w, e <> SUCCESS ->
        let failed := Some (e, (cf, (valueU, valueV))) in
        (query U cur = Some (e, (cf, w)) -> adapter = failed)
        /\ (forall c1 u,
              query U cur = Some (SUCCESS, (c1, Some u)) ->
              (query V c1 = Some (e, (cf, w)) -> adapter = failed)
              /\ forall c2 v,
                  query V c1 = Some (SUCCESS, (c2, Some v)) ->
                  (query cosU c2 = Some (e, (cf, w)) -> adapter = failed)
                  /\ forall c3 cu,
                      query cosU c2 = Some (SUCCESS, (c3, Some cu)) ->
                      (query sinU c3 = Some (e, (cf, w)) -> adapter = failed)
                      /\ forall c4 su,
                          query sinU c3 = Some (SUCCESS, (c4, Some su)) ->
                          (query cosV c4 = Some (e, (cf, w)) ->
                           adapter = failed)
                          /\ forall c5 cv,
                              query cosV c4 = Some (SUCCESS, (c5, Some cv)) ->
                              query sinV c5 = Some (e, (cf, w)) ->
                              adapter = failed))
    /\
    (forall e cur' outU outV,
        adapter = Some (e, (cur', (outU, outV))) ->
        e <> SUCCESS ->
        outU = valueU /\ outV = valueV /\
        exists f cin w,
          In f [U; V; cosU; sinU; cosV; sinV] /\
          query f cin = Some (e, (cur', w))).
Proof.
  intros fuel x y z time U V cosU sinU cosV sinV cur valueU valueV m query
         adapter.
  subst query adapter. cbv beta. split; [|split].
  - intros * H1 H2 H3 H4 H5 H6. unfold temporal_interpolationUVrotation.
    rewrite (sample_ok _ _ _ _ _ _ _ _ _ _ _ _ H1).
    rewrite (sample_ok _ _ _ _ _ _ _ _ _ _ _ _ H2).
    rewrite (sample_ok _ _ _ _ _ _ _ _ _ _ _ _ H3).
    rewrite (sample_ok _ _ _ _ _ _ _ _ _ _ _ _ H4).
    rewrite (sample_ok _ _ _ _ _ _ _ _ _ _ _ _ H5).
    rewrite (sample_ok _ _ _ _ _ _ _ _ _ _ _ _ H6).
    reflexivity.
  - intros e cf w N failed. subst failed.
    unfold temporal_interpolationUVrotation.
    split; [intros H; apply (sample_failed _ _ _ _ _ _ _ _ _ _ _ _ _ H N)|].
    intros c1 u H1. rewrite (sample_ok _ _ _ _ _ _ _ _ _ _ _ _ H1).
    split; [intros H; apply (sample_failed _ _ _ _ _ _ _ _ _ _ _ _ _ H N)|].
    intros c2 v H2. rewrite (sample_ok _ _ _ _ _ _ _ _ _ _ _ _ H2).
    split; [intros H; apply (sample_failed _ _ _ _ _ _ _ _ _ _ _ _ _ H N)|].
    intros c3 cu H3. rewrite (sample_ok _ _ _ _ _ _ _ _ _ _ _ _ H3).
    split; [intros H; apply (sample_failed _ _ _ _ _ _ _ _ _ _ _ _ _ H N)|].
    intros c4 su H4. rewrite (sample_ok _ _ _ _ _ _ _ _ _ _ _ _ H4).
    split; [intros H; apply (sample_failed _ _ _ _ _ _ _ _ _ _ _ _ _ H N)|].
    intros c5 cv H5 H. rewrite (sample_ok _ _ _ _ _ _ _ _ _ _ _ _ H5).
    apply (sample_failed _ _ _ _ _ _ _ _ _ _ _ _ _ H N).
  - intros e cur' outU outV H Hne. unfold temporal_interpolationUVrotation in H.
    apply sample_inv in H.
    destruct H as [(e1 & k1 & w1 & H1 & N1 & E1) | (u & k1 & H1 & H)];
      [failed U E1 |].
    apply sample_inv in H.
    destruct H as [(e2 & k2 & w2 & H2 & N2 & E2) | (v & k2 & H2 & H)];
      [failed V E2 |].
    apply sample_inv in H.
    destruct H as [(e3 & k3 & w3 & H3 & N3 & E3) | (cu & k3 & H3 & H)];
      [failed cosU E3 |].
    apply sample_inv in H.
    destruct H as [(e4 & k4 & w4 & H4 & N4 & E4) | (su & k4 & H4 & H)];
      [failed sinU E4 |].
    apply sample_inv in H.
    destruct H as [(e5 & k5 & w5 & H5 & N5 & E5) | (cv & k5 & H5 & H)];
      [failed cosV E5 |].
    apply sample_inv in H.
    destruct H as [(e6 & k6 & w6 & H6 & N6 & E6) | (sv & k6 & H6 & H)];
      [failed sinV E6 |].
    inversion H; subst. congruence.
Qed.

End Generic.

Section Driver.
Local Open Scope num_scope.

(** ** The temporal driver *)

(** The blend of the two samples, as the driver computes it in C
    [float], is [f0 + (f1 - f0) * (t - t0) / (t1 - t0)] where no
    operation rounds. *)
Lemma blend_exact (f0 f1 t t0 t1 : Qc) :
  addf f0 (mulf (subf f1 f0) (to_float ((t - t0) / (t1 - t0))))
  = (f0 + (f1 - f0) * (t - t0) / (t1 - t0))%Qc.
Proof. unfold addf, mulf, subf. simpl. unfold Qcdiv. ring. Qed.

(** C1: once the time locator has left the index [ti] and the time [t]:
    when [ti < tdim-1] and [t > tvals[ti]] the driver locates the cell once
    with [(t, t0, t1) = (t, tvals[ti], tvals[ti+1])], takes the spatial
    kernel of the slices [ti] and [ti+1] on that cell and returns
    [f0 + (f1 - f0) * ((t - t0) / (t1 - t0))], which is
    [f0 + (f1 - f0) * (t - t0) / (t1 - t0)] in exact arithmetic; otherwise
    it locates the cell once with [(t0, t0, t0 + 1)] and returns the
    spatial kernel of the slice [ti]. *)
Theorem driver_two_branches :
  forall (F : Type) (A : Arith F) fuel x y z time (f : CField F) gcode cur m
         ti0 e t ti cur1 t0 c0,
    let g := grid (f_grid f) in
    let slice := (f_zdim f * f_ydim f * f_xdim f)%Z in
    extrapolates time f = Some false ->
    (c_ti cur).[igrid f] = Some ti0 ->
    search_time_index fuel time (g_tdim g) (g_time g) ti0 (time_periodic f)
      = Some (e, (t, ti)) ->
    set_ti cur (igrid f) ti = Some cur1 ->
    (g_time g).[ti] = Some t0 ->
    get_cell cur1 (igrid f) = Some c0 ->
    ((ti < g_tdim g - 1)%Z -> (t >? t0) = true ->
     forall t1 c cur2 e0 f0 e1 f1,
       (g_time g).[ti + 1] = Some t1 ->
       search_indices x y z (g_xdim g) (g_ydim g) (g_zdim g)
         (g_lon g) (g_lat g) (g_depth g) c0
         (g_sphere_mesh g) (g_zonal_periodic g) gcode (g_z4d g)
         ti (g_tdim g) t t0 t1 = Some (SUCCESS, c) ->
       set_cell cur1 (igrid f) c = Some cur2 ->
       spatial_kernel m g c (data f) (ti * slice) = Some (Some (e0, f0)) ->
       spatial_kernel m g c (data f) ((ti + 1) * slice) = Some (Some (e1, f1)) ->
       temporal_interpolation_structured_grid fuel x y z time f gcode cur m
       = Some (SUCCESS,
               (cur2, Some (addf f0 (mulf (subf f1 f0)
                                      (to_float ((t - t0) / (t1 - t0))))))))
    /\
    ((ti >= g_tdim g - 1)%Z \/ (t >? t0) = false ->
     forall c cur2 e0 v,
       search_indices x y z (g_xdim g) (g_ydim g) (g_zdim g)
         (g_lon g) (g_lat g) (g_depth g) c0
         (g_sphere_mesh g) (g_zonal_periodic g) gcode (g_z4d g)
         ti (g_tdim g) t0 t0 (t0 + of_int 1) = Some (SUCCESS, c) ->
       set_cell cur1 (igrid f) c = Some cur2 ->
       spatial_kernel m g c (data f) (ti * slice) = Some (Some (e0, v)) ->
       temporal_interpolation_structured_grid fuel x y z time f gcode cur m
       = Some (SUCCESS, (cur2, Some v)))
    /\
    (forall f0 f1 t t0 t1 : Qc,
        addf f0 (mulf (subf f1 f0) (to_float ((t - t0) / (t1 - t0))))
        = (f0 + (f1 - f0) * (t - t0) / (t1 - t0))%Qc).
Proof.
  intros * Hx Hti0 Hst Hset Ht0 Hc0. split; [|split].
  - intros Hlt Hgt * Ht1 Hs Hc2 Hk0 Hk1.
    unfold temporal_interpolation_structured_grid.
    fold g. rewrite Hx. simpl. rewrite Hti0. simpl. rewrite Hst. simpl.
    rewrite Hset. simpl.
    apply Z.ltb_lt in Hlt. rewrite Hlt, Ht0. simpl. rewrite Hgt.
    unfold two_samples. fold g. rewrite Ht0, Ht1. simpl. rewrite Hc0. simpl.
    rewrite Hs. simpl. rewrite Hc2. simpl. fold slice.
    rewrite Hk0. simpl. rewrite Hk1. reflexivity.
  - intros Hor * Hs Hc2 Hk0.
    unfold temporal_interpolation_structured_grid.
    fold g. rewrite Hx. simpl. rewrite Hti0. simpl. rewrite Hst. simpl.
    rewrite Hset. simpl.
    assert (Htwo : (if (ti <? g_tdim g - 1)%Z
                    then tv <- (g_time g).[ti] ;; Some (t >? tv)
                    else Some false) = Some false).
    { destruct (ti <? g_tdim g - 1)%Z eqn:E; [|reflexivity].
      rewrite Ht0. simpl. destruct Hor as [Hge | ->]; [|reflexivity].
      apply Z.ltb_lt in E. lia. }
    rewrite Htwo. simpl.
    unfold one_sample. fold g. rewrite Ht0. simpl. rewrite Hc0. simpl.
    rewrite Hs. simpl. rewrite Hc2. simpl. fold slice.
    rewrite Hk0. reflexivity.
  - exact blend_exact.
Qed.

End Driver.

Section Codes.
Context {F : Type} {A : Arith F}.
Local Open Scope num_scope.

(** ** The error codes of the locators *)

Lemma vertical_z_code z zdim zvals zi zeta e r :
  search_indices_vertical_z z zdim zvals zi zeta = Some (e, r) ->
  e = SUCCESS \/ e = ERROR_OUT_OF_BOUNDS.
Proof.
  unfold search_indices_vertical_z. intros H. steps H; auto.
Qed.

Lemma vertical_s_code z xdim ydim zdim zvals xi yi zi xsi eta zeta
    z4d ti tdim time t0 t1 e r :
  search_indices_vertical_s z xdim ydim zdim zvals xi yi zi xsi eta zeta
    z4d ti tdim time t0 t1 = Some (e, r) ->
  e = SUCCESS \/ e = ERROR_OUT_OF_BOUNDS.
Proof.
  unfold search_indices_vertical_s. intros H. step H.
  eapply vertical_z_code; eauto.
Qed.

Lemma check_vertical_Ret (c : Cell F) e zr e' c' :
  (e = SUCCESS \/ e = ERROR_OUT_OF_BOUNDS) ->
  check_vertical c (e, zr) = Ret e' c' -> e' = ERROR_OUT_OF_BOUNDS.
Proof.
  unfold check_vertical. destruct zr as [zi' zeta'].
  intros [-> | ->]; intros H; inversion H; reflexivity.
Qed.

Lemma sphere_walk_Ret n x xdim xvals i v v1 it e s :
  sphere_walk n x xdim xvals i v v1 it = Some (Ret e s) ->
  e = ERROR_OUT_OF_BOUNDS.
Proof.
  revert i v v1 it. induction n; intros i v v1 it H; simpl in H.
  - steps H; reflexivity.
  - step H; [|discriminate]. step H. destruct x0 as [w w1]. simpl in H.
    step H; [inversion H; reflexivity|].
    eapply IHn; eauto.
Qed.

Lemma curvilinear_round_Ret x y xdim ydim xvals yvals sm (c : Cell F) e s :
  curvilinear_round x y xdim ydim xvals yvals sm c = Some (Ret e s) ->
  e = ERROR_OUT_OF_BOUNDS.
Proof.
  unfold curvilinear_round. intros H.
  step H. destruct x0 as [w w1]. simpl in H.
  step H; [inversion H; reflexivity|].
  step H; [inversion H; reflexivity|].
  step H. discriminate.
Qed.

Lemma curvilinear_walk_Ret n x y xdim ydim xvals yvals sm c it e s :
  curvilinear_walk n x y xdim ydim xvals yvals sm c it = Some (Ret e s) ->
  e = ERROR_OUT_OF_BOUNDS.
Proof.
  revert c it. induction n; intros c it H; simpl in H.
  - step H; [|discriminate]. step H. destruct x0 as [e1 c1|c1].
    + inversion H; subst. eapply curvilinear_round_Ret; eauto.
    + step H; [inversion H; reflexivity | discriminate].
  - step H; [|discriminate]. step H. destruct x0 as [e1 c1|c1].
    + inversion H; subst. eapply curvilinear_round_Ret; eauto.
    + step H; [inversion H; reflexivity|]. eapply IHn; eauto.
Qed.

Lemma check_vertical_flow (c : Cell F) e zr e' c' :
  (e = SUCCESS \/ e = ERROR_OUT_OF_BOUNDS) ->
  Some (check_vertical c (e, zr)) = Some (Ret e' c') ->
  e' = ERROR_OUT_OF_BOUNDS.
Proof. intros He H. inversion H. eapply check_vertical_Ret; eauto. Qed.

End Codes.

(** Case analysis on a run [code = Some r] of a locator. *)
Ltac code_cases :=
  repeat match goal with
    | H : bind _ _ = Some _ |- _ => step H
    | H : and_then _ _ = Some _ |- _ => step H
    | H : (if _ then _ else _) = Some _ |- _ => step H
    | H : Some (check_vertical _ (?e, _)) = Some (Ret _ _) |- _ =>
        apply check_vertical_flow in H;
        [subst | eauto using vertical_z_code, vertical_s_code]
    | H : Some (check_vertical _ ?r) = Some _ |- _ => is_var r; destruct r
    | H : Some _ = Some _ |- _ => inversion H; subst; clear H
    | H : None = Some _ |- _ => discriminate H
    | H : (_, _) = (_, _) |- _ => inversion H; subst; clear H
    | H : sphere_walk _ _ _ _ _ _ _ _ = Some (Ret _ _) |- _ =>
        apply sphere_walk_Ret in H; subst
    | H : curvilinear_walk _ _ _ _ _ _ _ _ _ _ = Some (Ret _ _) |- _ =>
        apply curvilinear_walk_Ret in H; subst
    | H : (let '(_, _) := ?x in _) = Some _ |- _ => destruct x
    | H : (match ?x with _ => _ end) = Some _ |- _ => destruct x eqn:?
    end.

Section LocatorCodes.
Context {F : Type} {A : Arith F}.
Local Open Scope num_scope.

Lemma rectilinear_code x y z xdim ydim zdim xvals yvals zvals sm zp gcode c
    z4d ti tdim time t0 t1 e c' :
  search_indices_rectilinear x y z xdim ydim zdim xvals yvals zvals sm zp
    gcode c z4d ti tdim time t0 t1 = Some (e, c') ->
  locator_code e.
Proof.
  unfold search_indices_rectilinear, locator_code. intros H.
  code_cases; auto.
Qed.

Lemma curvilinear_code x y z xdim ydim zdim xvals yvals zvals sm zp gcode c
    z4d ti tdim time t0 t1 e c' :
  search_indices_curvilinear x y z xdim ydim zdim xvals yvals zvals sm zp
    gcode c z4d ti tdim time t0 t1 = Some (e, c') ->
  locator_code e.
Proof.
  unfold search_indices_curvilinear, locator_code. intros H.
  code_cases; auto.
Qed.

Lemma search_indices_code x y z xdim ydim zdim xvals yvals zvals c sm zp gcode
    z4d ti tdim time t0 t1 e c' :
  search_indices x y z xdim ydim zdim xvals yvals zvals c sm zp gcode
    z4d ti tdim time t0 t1 = Some (e, c') ->
  locator_code e.
Proof.
  unfold search_indices.
  destruct gcode; eauto using rectilinear_code, curvilinear_code.
Qed.

Lemma search_time_index_code fuel t size tvals ti per e r :
  search_time_index fuel t size tvals ti per = Some (e, r) -> e = SUCCESS.
Proof.
  destruct fuel; simpl; intros H; code_cases; reflexivity.
Qed.

Lemma two_samples_code x y z time (f : CField F) gcode cur ti m e r :
  two_samples x y z time f gcode cur ti m = Some (e, r) -> locator_code e.
Proof.
  unfold two_samples. intros H. code_cases;
    solve [ eauto using search_indices_code | unfold locator_code; auto ].
Qed.

Lemma one_sample_code x y z (f : CField F) gcode cur ti m e r :
  one_sample x y z f gcode cur ti m = Some (e, r) -> locator_code e.
Proof.
  unfold one_sample. intros H. code_cases;
    solve [ eauto using search_indices_code | unfold locator_code; auto ].
Qed.

(** The driver answers [ERROR_TIME_EXTRAPOLATION] from its first test
    only. *)
Lemma time_extrapolation_from_test fuel x y z time (f : CField F) gcode cur
    m r :
  temporal_interpolation_structured_grid fuel x y z time f gcode cur m
    = Some (ERROR_TIME_EXTRAPOLATION, r) ->
  extrapolates time f = Some true.
Proof.
  unfold temporal_interpolation_structured_grid. intros H.
  apply bind_Some in H. destruct H as ([|] & E & H); [assumption|].
  assert (C : locator_code ERROR_TIME_EXTRAPOLATION).
  { code_cases; eauto using two_samples_code, one_sample_code. }
  destruct C as [C | [C | C]]; discriminate.
Qed.

Lemma time_extrapolation_of_test fuel x y z time (f : CField F) gcode cur m :
  extrapolates time f = Some true ->
  temporal_interpolation_structured_grid fuel x y z time f gcode cur m
    = Some (ERROR_TIME_EXTRAPOLATION, (cur, None)).
Proof.
  unfold temporal_interpolation_structured_grid. intros ->. reflexivity.
Qed.

End LocatorCodes.

(** ** Arrays *)

Lemma rd_Some {X : Type} (a : list X) (i : Z) :
  0 <= i < Z.of_nat (length a) -> exists v, a.[i] = Some v.
Proof.
  intros [H0 H1]. unfold rd.
  destruct (i <? 0) eqn:E; [apply Z.ltb_lt in E; lia|].
  destruct (nth_error a (Z.to_nat i)) as [v|] eqn:N; [eauto|].
  apply nth_error_None in N. lia.
Qed.

Lemma rd_range {X : Type} (a : list X) (i : Z) (v : X) :
  a.[i] = Some v -> 0 <= i < Z.of_nat (length a).
Proof.
  unfold rd. destruct (i <? 0) eqn:E; [discriminate|].
  intros H. apply Z.ltb_ge in E.
  assert (N : nth_error a (Z.to_nat i) <> None) by congruence.
  apply nth_error_Some in N. lia.
Qed.

Section Walks.
Context {F : Type} {A : Arith F}.
Local Open Scope num_scope.

(** ** The monotone walks, in any arithmetic *)

Lemma walk_up_spec n up (v : F) dim vals i :
  (0 <= i)%Z -> (dim <= Z.of_nat (length vals))%Z ->
  (dim - 1 - i <= Z.of_nat n)%Z ->
  exists i',
    walk_up n up v dim vals i = Some i' /\ (i <= i')%Z /\
    (i' <= Z.max i (dim - 1))%Z /\
    ((i' < dim - 1)%Z -> exists w, vals.[i' + 1] = Some w /\ up v w = false) /\
    (forall j, (i <= j < i')%Z ->
               exists w, vals.[j + 1] = Some w /\ up v w = true).
Proof.
  revert i. induction n as [|n IH]; intros i H0 Hlen Hn.
  - simpl. destruct (i <? dim - 1)%Z eqn:E.
    + apply Z.ltb_lt in E. lia.
    + apply Z.ltb_ge in E. exists i. repeat split; try lia.
  - simpl. destruct (i <? dim - 1)%Z eqn:E.
    + apply Z.ltb_lt in E.
      destruct (rd_Some vals (i + 1)) as [w Hw]; [lia|].
      rewrite Hw. simpl. destruct (up v w) eqn:U.
      * destruct (IH (i + 1)%Z) as (i' & R & Hle & Hmax & Hstop & Hmoved);
          try lia.
        exists i'. repeat split; try lia; auto.
        intros j Hj. destruct (Z.eq_dec j i) as [->|]; [eauto|].
        apply Hmoved. lia.
      * exists i. repeat split; try lia; eauto.
    + apply Z.ltb_ge in E. exists i. repeat split; try lia.
Qed.

Lemma walk_down_spec n (v : F) vals i :
  (i < Z.of_nat (length vals))%Z -> (i <= Z.of_nat n)%Z ->
  exists i',
    walk_down n v vals i = Some i' /\ (i' <= i)%Z /\ (Z.min i 0 <= i')%Z /\
    ((i' > 0)%Z -> exists w, vals.[i'] = Some w /\ (v <? w) = false) /\
    (forall j, (i' < j <= i)%Z ->
               exists w, vals.[j] = Some w /\ (v <? w) = true).
Proof.
  revert i. induction n as [|n IH]; intros i Hlen Hn.
  - simpl. destruct (i >? 0)%Z eqn:E.
    + apply Z.gtb_lt in E. lia.
    + exists i. rewrite Z.gtb_ltb in E. apply Z.ltb_ge in E.
      repeat split; try lia.
  - simpl. destruct (i >? 0)%Z eqn:E.
    + apply Z.gtb_lt in E.
      destruct (rd_Some vals i) as [w Hw]; [lia|].
      rewrite Hw. simpl. destruct (v <? w) eqn:U.
      * destruct (IH (i - 1)%Z) as (i' & R & Hle & Hmin & Hstop & Hmoved);
          try lia.
        exists i'. repeat split; try lia; auto.
        intros j Hj. destruct (Z.eq_dec j i) as [->|]; [eauto|].
        apply Hmoved. lia.
      * exists i. repeat split; try lia; eauto.
    + exists i. rewrite Z.gtb_ltb in E. apply Z.ltb_ge in E.
      repeat split; try lia.
Qed.

(** Both loops, from an index of the array: the walk ends, at an index
    [i2] of the array, reached by going up to [i1] and down from there. *)
Lemma walk_spec up (v : F) dim vals i :
  (0 <= i <= dim - 1)%Z -> (dim <= Z.of_nat (length vals))%Z ->
  exists i1 i2,
    walk up v dim vals i = Some i2 /\
    (i <= i1 <= dim - 1)%Z /\ (0 <= i2 <= i1)%Z /\
    ((i1 < dim - 1)%Z -> exists w, vals.[i1 + 1] = Some w /\ up v w = false) /\
    (forall j, (i <= j < i1)%Z ->
               exists w, vals.[j + 1] = Some w /\ up v w = true) /\
    ((i2 > 0)%Z -> exists w, vals.[i2] = Some w /\ (v <? w) = false) /\
    (forall j, (i2 < j <= i1)%Z ->
               exists w, vals.[j] = Some w /\ (v <? w) = true).
Proof.
  intros Hi Hlen. unfold walk.
  destruct (walk_up_spec (Z.to_nat (dim - 1 - i)) up v dim vals i)
    as (i1 & R1 & Hle & Hmax & Hstop & Hmoved); try lia.
  rewrite R1. simpl.
  destruct (walk_down_spec (Z.to_nat i1) v vals i1)
    as (i2 & R2 & Hle2 & Hmin & Hstop2 & Hmoved2); try lia.
  exists i1, i2. repeat split; auto; lia.
Qed.

End Walks.

(** ** The exact arithmetic *)

Section ExactOrder.
Local Open Scope Qc_scope.

Lemma ltb_lt (a b : Qc) : ltb a b = true <-> a < b.
Proof.
  simpl. unfold lt_bool. rewrite Qclt_alt.
  destruct (a ?= b); split; congruence.
Qed.

Lemma ltb_ge (a b : Qc) : ltb a b = false <-> b <= a.
Proof.
  rewrite <- Bool.not_true_iff_false, ltb_lt.
  split; [apply Qcnot_lt_le | apply Qcle_not_lt].
Qed.

Lemma leb_le (a b : Qc) : leb a b = true <-> a <= b.
Proof.
  simpl. unfold le_bool. rewrite Qcle_alt.
  destruct (a ?= b); split; congruence.
Qed.

Lemma leb_gt (a b : Qc) : leb a b = false <-> b < a.
Proof.
  rewrite <- Bool.not_true_iff_false, leb_le.
  split; [apply Qcnot_le_lt | apply Qclt_not_le].
Qed.

Lemma increasing_cons (a : Qc) (r : list Qc) :
  increasing (a :: r) = true ->
  increasing r = true /\ forall j b, nth_error r j = Some b -> a < b.
Proof.
  revert a. induction r as [|b0 r IH]; intros a H.
  - split; [reflexivity|]. intros [|j] b Hb; discriminate.
  - change (ltb a b0 && increasing (b0 :: r) = true) in H.
    apply andb_true_iff in H. destruct H as [Hab Hr].
    split; [exact Hr|]. apply ltb_lt in Hab.
    intros [|j] b Hb; simpl in Hb.
    + congruence.
    + apply Qclt_trans with b0; [exact Hab|].
      apply (proj2 (IH b0 Hr) j b Hb).
Qed.

Lemma increasing_nth (vals : list Qc) :
  increasing vals = true ->
  forall i j a b, (i < j)%nat ->
    nth_error vals i = Some a -> nth_error vals j = Some b -> a < b.
Proof.
  induction vals as [|a0 r IH]; intros H i j a b Hij Ha Hb.
  - destruct i; discriminate.
  - apply increasing_cons in H. destruct H as [Hr Hlt].
    destruct j as [|j]; [lia|]. destruct i as [|i]; simpl in Ha, Hb.
    + inversion Ha; subst. eauto.
    + apply (IH Hr i j); auto. lia.
Qed.

Lemma increasing_lt (vals : list Qc) (i j : Z) (a b : Qc) :
  increasing vals = true -> (i < j)%Z ->
  vals.[i] = Some a -> vals.[j] = Some b -> a < b.
Proof.
  intros H Hij Ha Hb.
  pose proof (rd_range _ _ _ Ha) as Ri. pose proof (rd_range _ _ _ Hb) as Rj.
  unfold rd in Ha, Hb.
  destruct (i <? 0)%Z; [discriminate|]. destruct (j <? 0)%Z; [discriminate|].
  apply (increasing_nth vals H (Z.to_nat i) (Z.to_nat j)); auto; lia.
Qed.

Lemma increasing_le (vals : list Qc) (i j : Z) (a b : Qc) :
  increasing vals = true -> (i <= j)%Z ->
  vals.[i] = Some a -> vals.[j] = Some b -> a <= b.
Proof.
  intros H Hij Ha Hb. destruct (Z.eq_dec i j) as [->|N].
  - assert (a = b) by congruence. subst. apply Qcle_refl.
  - apply Qclt_le_weak. eapply increasing_lt; eauto. lia.
Qed.

End ExactOrder.

Section VerticalZ.
Local Open Scope Qc_scope.

(** ** The vertical locator of Z-grids *)

(** C9: on a strictly increasing column [zvals[0..zdim-1]] and from any
    hint [zi] in [[0, zdim-2]], [search_indices_vertical_z] answers
    OUT_OF_BOUNDS, leaving [zi] and [zeta] as they are, when
    [z < zvals[0]] or [z > zvals[zdim-1]]; otherwise it answers SUCCESS
    with an index [zi'] in [[0, zdim-2]] such that
    [zvals[zi'] <= z <= zvals[zi'+1]] and
    [zeta = (z - zvals[zi']) / (zvals[zi'+1] - zvals[zi'])], which is 0 for
    [z = zvals[0]] and 1 for [z = zvals[zdim-1]]. *)
Theorem vertical_z_contract :
  forall (z : Qc) (zdim : Z) (zvals : list Qc) (zi : Z) (zeta0 z0 zl : Qc),
    Z.of_nat (length zvals) = zdim ->
    increasing zvals = true ->
    (0 <= zi <= zdim - 2)%Z ->
    zvals.[0] = Some z0 ->
    zvals.[zdim - 1] = Some zl ->
    (z < z0 \/ zl < z ->
     search_indices_vertical_z z zdim zvals zi zeta0
     = Some (ERROR_OUT_OF_BOUNDS, (zi, zeta0)))
    /\
    (z0 <= z /\ z <= zl ->
     exists zi' lo hi,
       search_indices_vertical_z z zdim zvals zi zeta0
       = Some (SUCCESS, (zi', (z - lo) / (hi - lo)))
       /\ (0 <= zi' <= zdim - 2)%Z
       /\ zvals.[zi'] = Some lo /\ zvals.[zi' + 1] = Some hi
       /\ lo <= z /\ z <= hi
       /\ (z = z0 -> (z - lo) / (hi - lo) = 0)
       /\ (z = zl -> (z - lo) / (hi - lo) = 1)).
Proof.
  intros z zdim zvals zi zeta0 z0 zl Hlen Hinc Hzi H0 Hl. split.
  - intros Hout. unfold search_indices_vertical_z.
    rewrite H0. simpl bind. destruct (lt_bool z z0) eqn:E0; [reflexivity|].
    rewrite Hl. simpl bind.
    destruct Hout as [Hlo | Hhi].
    + apply ltb_lt in Hlo. simpl in Hlo. congruence.
    + apply ltb_lt in Hhi. simpl in Hhi. rewrite Hhi. reflexivity.
  - intros [Hge Hle].
    destruct (walk_spec gt z zdim zvals zi)
      as (i1 & i2 & R & Hi1 & Hi2 & Hstop & Hup & Hstop2 & Hdown);
      try lia.
    assert (Hi1' : (i1 <= zdim - 2)%Z).
    { destruct (Z.eq_dec i1 (zdim - 1)) as [->|]; [|lia].
      destruct (Hup (zdim - 2)%Z) as (w & Hw & U); [lia|].
      replace (zdim - 2 + 1)%Z with (zdim - 1)%Z in Hw by lia.
      assert (w = zl) by congruence. subst w.
      apply ltb_lt in U. exfalso. revert U. apply Qcle_not_lt. exact Hle. }
    destruct (Hstop ltac:(lia)) as (w1 & Hw1 & U1).
    apply ltb_ge in U1.
    destruct (rd_Some zvals i2) as [lo Hlo]; [lia|].
    destruct (rd_Some zvals (i2 + 1)) as [hi Hhi]; [lia|].
    assert (Hlow : lo <= z).
    { destruct (Z.eq_dec i2 0) as [->|].
      - assert (lo = z0) by congruence. subst. exact Hge.
      - destruct (Hstop2 ltac:(lia)) as (w & Hw & U).
        assert (w = lo) by congruence. subst w. apply ltb_ge in U. exact U. }
    assert (Hupp : z <= hi).
    { destruct (Z.eq_dec i2 i1) as [->|].
      - assert (hi = w1) by congruence. subst. exact U1.
      - destruct (Hdown (i2 + 1)%Z) as (w & Hw & U); [lia|].
        assert (w = hi) by congruence. subst w. apply ltb_lt in U.
        apply Qclt_le_weak. exact U. }
    assert (Hlt : lo < hi) by (apply (increasing_lt zvals i2 (i2 + 1)); auto; lia).
    exists i2, lo, hi. repeat split; auto; try lia.
    + unfold search_indices_vertical_z. rewrite H0. simpl bind.
      apply ltb_ge in Hge. simpl in Hge. rewrite Hge.
      rewrite Hl. simpl bind.
      apply ltb_ge in Hle. simpl in Hle. rewrite Hle.
      rewrite R. simpl bind.
      destruct (i2 =? zdim - 1)%Z eqn:E; [apply Z.eqb_eq in E; lia|].
      rewrite Hlo, Hhi. reflexivity.
    + intros ->.
      assert (z0 <= lo) by (apply (increasing_le zvals 0 i2); auto; lia).
      assert (lo = z0) by (apply Qcle_antisym; assumption). subst lo.
      unfold Qcdiv. ring.
    + intros ->.
      assert (hi <= zl)
        by (apply (increasing_le zvals (i2 + 1) (zdim - 1)); auto; lia).
      assert (hi = zl) by (apply Qcle_antisym; assumption). subst hi.
      field. intros Hz.
      apply (Qclt_not_eq _ _ Hlt).
      transitivity (zl - lo + lo); [rewrite Hz|]; ring.
Qed.

End VerticalZ.

(** ** Rational arithmetic behind the exact instance *)


(** From the canonical rationals to [Q], where [lra] and [nra] work. *)
Ltac to_Q :=
  repeat match goal with
    | H : @eq Qc _ _ |- _ => apply (f_equal this) in H
    | H : ~ @eq Qc _ _ |- _ =>
        let N := fresh in
        assert (N := fun E => H (Qc_is_canon _ _ E)); clear H
    | |- @eq Qc _ _ => apply Qc_is_canon
    | |- ~ @eq Qc _ _ => let E := fresh in intros E
    end;
  unfold Qclt, Qcle, Qcdiv, Qcminus, Qcinv, Qcopp, Qcplus, Qcmult,
    Exact.from_int in *;
  cbn [this Q2Qc] in *;
  repeat match goal with
    | H : context [Qred ?q] |- _ => setoid_rewrite (Qred_correct q) in H
    | |- context [Qred ?q] => setoid_rewrite (Qred_correct q)
    end.

Section Reduction.
Local Open Scope Qc_scope.

Lemma floor_bounds (x : Qc) :
  Exact.from_int (Qfloor x) <= x /\ x < Exact.from_int (Qfloor x) + 1.
Proof.
  pose proof (Qfloor_le x) as F1. pose proof (Qlt_floor x) as F2.
  rewrite inject_Z_plus in F2. to_Q. split; assumption.
Qed.

Lemma reduced_range (t0 tl t : Qc) :
  t0 < tl -> t0 <= reduced t0 tl t /\ reduced t0 tl t < tl.
Proof.
  intros HT. unfold reduced, periods.
  destruct (floor_bounds ((t - t0) / (tl - t0))) as [F1 F2].
  revert F1 F2. generalize (Qfloor ((t - t0) / (tl - t0))%Qc). intros p F1 F2.
  to_Q.
  assert (E : ((t + - t0) * / (tl + - t0) * (tl + - t0) == t + - t0)%Q)
    by (field; lra).
  revert E F1 F2. generalize ((t + - t0) * / (tl + - t0))%Q. intros q E F1 F2.
  split; nra.
Qed.




Lemma trunc_floor (x : Qc) :
  int_range (Qfloor x) ->
  to_int (ffloor x) = Some (Qfloor x).
Proof.
  intros [H1 H2]. simpl. unfold Exact.trunc, Exact.floor.
  generalize dependent (Qfloor x). intros p H1 H2.
  cbn [this Q2Qc].
  rewrite Qred_identity by (simpl; apply Z.gcd_1_r).
  simpl. rewrite Z.quot_1_r.
  destruct (-2147483648 <=? p)%Z eqn:E1; [|apply Z.leb_gt in E1; lia].
  destruct (p <=? 2147483647)%Z eqn:E2; [|apply Z.leb_gt in E2; lia].
  reflexivity.
Qed.

End Reduction.

Section TimeGeneric.
Context {F : Type} {A : Arith F}.
Local Open Scope num_scope.

(** ** The time locator, in any arithmetic *)

Lemma search_time_index_plain fuel (t : F) size tvals ti per :
  (per =? 1)%Z = false ->
  search_time_index fuel t size tvals ti per
  = (i <- walk ge t size tvals (if (ti <? 0)%Z then 0%Z else ti) ;;
     Some (SUCCESS, (t, i))).
Proof. destruct fuel; simpl; intros ->; reflexivity. Qed.

Lemma search_time_index_inside fuel (t : F) size tvals ti per t0 tl :
  tvals.[0] = Some t0 -> tvals.[size - 1] = Some tl ->
  (t <? t0) = false -> (t >? tl) = false ->
  search_time_index fuel t size tvals ti per
  = (i <- walk ge t size tvals (if (ti <? 0)%Z then 0%Z else ti) ;;
     Some (SUCCESS, (t, i))).
Proof.
  intros H0 Hl L0 Ll.
  destruct fuel; simpl; rewrite H0, Hl; simpl; rewrite L0, Ll;
    destruct (per =? 1)%Z; reflexivity.
Qed.

Lemma search_time_index_reduce fuel (t : F) size tvals ti t0 tl p :
  tvals.[0] = Some t0 -> tvals.[size - 1] = Some tl ->
  (t <? t0) || (t >? tl) = true ->
  to_int (ffloor ((t - t0) / (tl - t0))) = Some p ->
  search_time_index (S fuel) t size tvals ti 1
  = ('(_, (t', i)) <-
       search_time_index fuel (t - of_int p * (tl - t0)) size tvals
         (if t <? t0 then (size - 1)%Z else 0%Z) 1 ;;
     i' <- walk ge t' size tvals i ;;
     Some (SUCCESS, (t', i'))).
Proof.
  intros H0 Hl Hout Hp. simpl. rewrite H0. simpl.
  destruct (t <? t0) eqn:L0; simpl in *.
  - rewrite Hl. simpl. rewrite Hp. simpl.
    destruct (search_time_index fuel _ size tvals (size - 1) 1)
      as [[e [t' i]]|]; reflexivity.
  - rewrite Hl. simpl. rewrite Hout, Hp. simpl.
    destruct (search_time_index fuel _ size tvals 0 1)
      as [[e [t' i]]|]; reflexivity.
Qed.

(** Without periodic reduction the locator returns, from every index of
    the axis as a hint, and leaves [t] as it is. *)
Lemma search_time_index_total fuel (t : F) size tvals ti per :
  (per =? 1)%Z = false ->
  (1 <= size <= Z.of_nat (length tvals))%Z -> (ti <= size - 1)%Z ->
  exists ti',
    search_time_index fuel t size tvals ti per = Some (SUCCESS, (t, ti'))
    /\ (0 <= ti' <= size - 1)%Z.
Proof.
  intros Hper Hsize Hti. rewrite search_time_index_plain by assumption.
  destruct (walk_spec ge t size tvals (if (ti <? 0)%Z then 0%Z else ti))
    as (i1 & i2 & R & Hi1 & Hi2 & _); try lia.
  { destruct (ti <? 0)%Z eqn:E; [|apply Z.ltb_ge in E]; lia. }
  exists i2. rewrite R. split; [reflexivity | lia].
Qed.

End TimeGeneric.

Section TimeExact.
Local Open Scope Qc_scope.

(** ** The time locator on a strictly increasing axis *)

Lemma greatest_index_unique tvals t i j :
  greatest_index tvals t i -> greatest_index tvals t j -> i = j.
Proof.
  intros [(v & Hv & Lv) Gi] [(w & Hw & Lw) Gj].
  destruct (Z.lt_trichotomy i j) as [H | [H | H]]; [|exact H|].
  - exfalso. apply (Qclt_not_le _ _ (Gi j w H Hw)). exact Lw.
  - exfalso. apply (Qclt_not_le _ _ (Gj i v H Hv)). exact Lv.
Qed.

Lemma walk_greatest (t : Qc) size tvals i t0 :
  Z.of_nat (length tvals) = size -> increasing tvals = true ->
  (0 <= i <= size - 1)%Z ->
  tvals.[0] = Some t0 -> t0 <= t ->
  exists i', walk ge t size tvals i = Some i' /\ greatest_index tvals t i'.
Proof.
  intros Hlen Hinc Hi H0 Hge.
  destruct (walk_spec ge t size tvals i)
    as (i1 & i2 & R & Hi1 & Hi2 & Hstop & Hup & Hstop2 & Hdown); try lia.
  exists i2. split; [exact R|]. split.
  - destruct (rd_Some tvals i2) as [lo Hlo]; [lia|].
    exists lo. split; [exact Hlo|].
    destruct (Z.eq_dec i2 0) as [->|].
    + assert (lo = t0) by congruence. subst. exact Hge.
    + destruct (Hstop2 ltac:(lia)) as (w & Hw & U).
      assert (w = lo) by congruence. subst w. apply ltb_ge in U. exact U.
  - intros j v Hj Hv. pose proof (rd_range _ _ _ Hv) as Rj.
    assert (Hnext : exists w, tvals.[i2 + 1] = Some w /\ t < w).
    { destruct (Z.eq_dec i2 i1) as [->|].
      - destruct (Hstop ltac:(lia)) as (w & Hw & U).
        exists w. split; [exact Hw|]. unfold ge in U. apply leb_gt in U.
        exact U.
      - destruct (Hdown (i2 + 1)%Z) as (w & Hw & U); [lia|].
        exists w. split; [exact Hw|]. apply ltb_lt in U. exact U. }
    destruct Hnext as (w & Hw & Hlt).
    apply Qclt_le_trans with w; [exact Hlt|].
    apply (increasing_le tvals (i2 + 1) j); auto. lia.
Qed.

Lemma walk_below (t : Qc) size tvals i t0 :
  Z.of_nat (length tvals) = size -> increasing tvals = true ->
  (0 <= i <= size - 1)%Z ->
  tvals.[0] = Some t0 -> t < t0 ->
  walk ge t size tvals i = Some 0%Z.
Proof.
  intros Hlen Hinc Hi H0 Hlt.
  destruct (walk_spec ge t size tvals i)
    as (i1 & i2 & R & Hi1 & Hi2 & Hstop & Hup & Hstop2 & Hdown); try lia.
  destruct (Z.eq_dec i2 0) as [->|]; [exact R|].
  destruct (Hstop2 ltac:(lia)) as (w & Hw & U). apply ltb_ge in U.
  exfalso. apply (Qclt_not_le _ _ Hlt).
  apply Qcle_trans with w; [|exact U].
  apply (increasing_le tvals 0 i2); auto. lia.
Qed.

Lemma greatest_index_last (t : Qc) size tvals tl :
  Z.of_nat (length tvals) = size ->
  tvals.[size - 1] = Some tl -> tl <= t ->
  greatest_index tvals t (size - 1).
Proof.
  intros Hlen Hl Hle. split; [eauto|].
  intros j v Hj Hv. apply rd_range in Hv. lia.
Qed.

End TimeExact.

Section TimeContract.
Local Open Scope Qc_scope.

Variables (size : Z) (tvals : list Qc) (t0 tl : Qc).
Hypothesis Hlen : Z.of_nat (length tvals) = size.
Hypothesis Hinc : increasing tvals = true.
Hypothesis H0 : tvals.[0] = Some t0.
Hypothesis Hl : tvals.[size - 1] = Some tl.

Lemma axis_size : (1 <= size)%Z.
Proof using Hlen H0. apply rd_range in H0. lia. Qed.

Lemma axis_ends : t0 <= tl.
Proof using Hlen Hinc H0 Hl.
  pose proof axis_size. apply (increasing_le tvals 0 (size - 1)); auto. lia.
Qed.

(** No reduction: the field is not periodic, or [t] is on the axis. *)
Lemma time_index_plain (t : Qc) (per : Z) :
  (per =? 1)%Z = false \/ t <= tl ->
  t0 <= t ->
  exists ti',
    greatest_index tvals t ti' /\
    forall fuel ti, (ti <= size - 1)%Z ->
      search_time_index fuel t size tvals ti per = Some (SUCCESS, (t, ti')).
Proof using Hlen Hinc H0 Hl.
  intros Hper Hge. pose proof axis_size as Hs.
  destruct (walk_greatest t size tvals 0 t0) as (g & _ & G); auto; try lia.
  exists g. split; [exact G|]. intros fuel ti Hti.
  assert (E : search_time_index fuel t size tvals ti per
              = (i <- walk ge t size tvals (if (ti <? 0)%Z then 0%Z else ti) ;;
                 Some (SUCCESS, (t, i)))).
  { destruct Hper as [Hper | Hle].
    - apply search_time_index_plain. exact Hper.
    - apply (search_time_index_inside fuel t size tvals ti per t0 tl); auto.
      + apply ltb_ge. exact Hge.
      + apply ltb_ge. exact Hle. }
  rewrite E.
  destruct (walk_greatest t size tvals (if (ti <? 0)%Z then 0%Z else ti) t0)
    as (i' & R & G'); auto.
  { destruct (ti <? 0)%Z eqn:N; [|apply Z.ltb_ge in N]; lia. }
  rewrite R. simpl. rewrite (greatest_index_unique _ _ _ _ G G').
  reflexivity.
Qed.

(** Reduction: the field is periodic and [t] is off the axis. *)
Lemma time_index_reduced (t : Qc) :
  t0 < tl -> t < t0 \/ tl < t ->
  int_range (periods t0 tl t) ->
  exists ti',
    greatest_index tvals (reduced t0 tl t) ti' /\
    forall fuel ti,
      search_time_index (S fuel) t size tvals ti 1
      = Some (SUCCESS, (reduced t0 tl t, ti')).
Proof using Hlen Hinc H0 Hl.
  intros HT Hout Hint. pose proof axis_size as Hs.
  destruct (reduced_range t0 tl t HT) as [R0 Rl].
  destruct (time_index_plain (reduced t0 tl t) 1) as (g & G & Hg).
  { right. apply Qclt_le_weak. exact Rl. }
  { exact R0. }
  exists g. split; [exact G|]. intros fuel ti.
  rewrite (search_time_index_reduce fuel t size tvals ti t0 tl
             (periods t0 tl t)); auto.
  - change (t - of_int (periods t0 tl t) * (tl - t0))%num
      with (reduced t0 tl t).
    rewrite Hg.
    + simpl.
      destruct (walk_greatest (reduced t0 tl t) size tvals g t0)
        as (i' & R & G'); auto.
      { destruct G as [(v & Hv & _) _]. apply rd_range in Hv. lia. }
      rewrite R. simpl. rewrite (greatest_index_unique _ _ _ _ G G').
      reflexivity.
    + destruct (ltb t t0); lia.
  - apply orb_true_iff. destruct Hout as [H | H]; [left | right];
      apply ltb_lt; exact H.
  - apply trunc_floor. exact Hint.
Qed.


End TimeContract.

Section TimeLocator.
Local Open Scope Qc_scope.

(** C8: on a strictly increasing time axis and for [tvals[0] <= t],
    [search_time_index] leaves in [ti] the greatest index with
    [tvals[ti] <= t'], where [t'] is [t] less its whole periods when the
    field is periodic and [t] is beyond the axis, and [t] otherwise; the
    index does not depend on the hint, negative or anywhere on the axis. *)
Theorem time_index_greatest :
  forall (fuel : nat) (t : Qc) (size : Z) (tvals : list Qc) (per : Z)
         (t0 tl : Qc),
    Z.of_nat (length tvals) = size ->
    increasing tvals = true ->
    tvals.[0] = Some t0 ->
    tvals.[size - 1] = Some tl ->
    t0 <= t ->
    (per = 1%Z -> tl < t -> (2 <= size)%Z /\ int_range (periods t0 tl t)) ->
    let t' := if (per =? 1)%Z && ltb tl t then reduced t0 tl t else t in
    exists ti',
      greatest_index tvals t' ti' /\
      forall ti, (ti <= size - 1)%Z ->
        search_time_index (S fuel) t size tvals ti per
        = Some (SUCCESS, (t', ti')).
Proof.
  intros fuel t size tvals per t0 tl Hlen Hinc H0 Hl Hge Hper t'.
  subst t'. destruct (per =? 1)%Z eqn:P; cbn [andb].
  - apply Z.eqb_eq in P. subst per.
    destruct (ltb tl t) eqn:L.
    + apply ltb_lt in L. destruct (Hper eq_refl L) as [Hs Hint].
      assert (HT : t0 < tl)
        by (apply (increasing_lt tvals 0 (size - 1)); auto; lia).
      destruct (time_index_reduced size tvals t0 tl Hlen Hinc H0 Hl t HT
                  (or_intror L) Hint) as (g & G & Hg).
      exists g. split; [exact G|]. intros ti _. apply Hg.
    + apply ltb_ge in L.
      destruct (time_index_plain size tvals t0 tl Hlen Hinc H0 Hl t 1
                  (or_intror L) Hge) as (g & G & Hg).
      exists g. split; [exact G|]. intros ti Hti. apply Hg. exact Hti.
  - destruct (time_index_plain size tvals t0 tl Hlen Hinc H0 Hl t per
                (or_introl P) Hge) as (g & G & Hg).
    exists g. split; [exact G|]. intros ti Hti. apply Hg. exact Hti.
Qed.

(** C10: [search_time_index] has no error code to return: every code it
    returns is SUCCESS; on a field that is not periodic it returns for
    every [t] and every hint on the axis, leaving [t] as it is, and on a
    strictly increasing axis the index is 0 for [t] before [tvals[0]]
    and [size-1] for [t] after [tvals[size-1]]; on a periodic field with
    two values or more it returns as well; the driver answers
    TIME_EXTRAPOLATION from its own test only. *)
Theorem time_locator_never_fails :
  (forall (F : Type) (A : Arith F) fuel (t : F) size tvals ti per e r,
      search_time_index fuel t size tvals ti per = Some (e, r) ->
      e = SUCCESS)
  /\
  (forall (F : Type) (A : Arith F) fuel (t : F) size tvals ti per,
      per <> 1%Z ->
      (1 <= size <= Z.of_nat (length tvals))%Z -> (0 <= ti <= size - 1)%Z ->
      exists ti',
        search_time_index fuel t size tvals ti per = Some (SUCCESS, (t, ti'))
        /\ (0 <= ti' <= size - 1)%Z)
  /\
  (forall fuel (t : Qc) size tvals ti per t0 tl,
      Z.of_nat (length tvals) = size -> increasing tvals = true ->
      tvals.[0] = Some t0 -> tvals.[size - 1] = Some tl ->
      (0 <= ti <= size - 1)%Z ->
      (per <> 1%Z ->
       (t < t0 ->
        search_time_index fuel t size tvals ti per = Some (SUCCESS, (t, 0%Z)))
       /\
       (tl < t ->
        search_time_index fuel t size tvals ti per
        = Some (SUCCESS, (t, (size - 1)%Z))))
      /\
      (per = 1%Z -> t0 < tl -> int_range (periods t0 tl t) ->
       exists r,
         search_time_index (S fuel) t size tvals ti per = Some (SUCCESS, r)))
  /\
  (forall (F : Type) (A : Arith F) fuel x y z time (f : CField F) gcode cur
          m r,
      temporal_interpolation_structured_grid fuel x y z time f gcode cur m
      = Some (ERROR_TIME_EXTRAPOLATION, r) ->
      extrapolates time f = Some true).
Proof.
  split; [|split; [|split]].
  - intros. eapply search_time_index_code; eauto.
  - intros F A fuel t size tvals ti per Hper Hs Hti.
    apply search_time_index_total; lia.
  - intros fuel t size tvals ti per t0 tl Hlen Hinc H0 Hl Hti. split.
    + intros Hper. apply Z.eqb_neq in Hper.
      assert (E : (if (ti <? 0)%Z then 0%Z else ti) = ti).
      { destruct (ti <? 0)%Z eqn:N; [apply Z.ltb_lt in N; lia | reflexivity]. }
      split; intros Ht.
      * rewrite search_time_index_plain by assumption. rewrite E.
        rewrite (walk_below t size tvals ti t0); auto.
      * destruct (time_index_plain size tvals t0 tl Hlen Hinc H0 Hl t per
                    (or_introl Hper)) as (g & G & Hg).
        { apply Qcle_trans with tl;
            [eapply axis_ends; eauto | apply Qclt_le_weak; exact Ht]. }
        rewrite (Hg fuel ti) by lia.
        rewrite (greatest_index_unique tvals t g (size - 1) G); auto.
        apply (greatest_index_last t size tvals tl); auto.
        apply Qclt_le_weak. exact Ht.
    + intros -> HT Hint.
      destruct (Qclt_le_dec t t0) as [Hlt | Hge].
      * destruct (time_index_reduced size tvals t0 tl Hlen Hinc H0 Hl t HT
                    (or_introl Hlt) Hint) as (g & G & Hg).
        eexists. apply Hg.
      * destruct (Qclt_le_dec tl t) as [Hgt | Hle].
        -- destruct (time_index_reduced size tvals t0 tl Hlen Hinc H0 Hl t HT
                       (or_intror Hgt) Hint) as (g & G & Hg).
           eexists. apply Hg.
        -- destruct (time_index_plain size tvals t0 tl Hlen Hinc H0 Hl t 1
                       (or_intror Hle) Hge) as (g & G & Hg).
           eexists. apply Hg. lia.
  - intros. eapply time_extrapolation_from_test; eauto.
Qed.

End TimeLocator.

Section DriverTime.
Local Open Scope Qc_scope.

Lemma extrapolates_true_iff {F : Type} {A : Arith F} (time : F) (f : CField F)
    (t0 tl : F) :
  (g_time (grid (f_grid f))).[0] = Some t0 ->
  (g_time (grid (f_grid f))).[g_tdim (grid (f_grid f)) - 1] = Some tl ->
  extrapolates time f = Some true <->
  time_periodic f = 0%Z /\ allow_time_extrapolation f = 0%Z /\
  (ltb time t0 = true \/ ltb tl time = true).
Proof.
  intros H0 Hl. unfold extrapolates. rewrite H0, Hl. simpl.
  destruct (time_periodic f =? 0)%Z eqn:P;
    destruct (allow_time_extrapolation f =? 0)%Z eqn:E; simpl;
    try (split; [discriminate | intros (Hp & He & _); lia]).
  apply Z.eqb_eq in P, E.
  destruct (ltb time t0) eqn:L0.
  - split; auto.
  - split.
    + intros H. inversion H. auto.
    + intros (_ & _ & [H | H]); [discriminate | rewrite H; reflexivity].
Qed.

(** C3: on one of the four grids, [temporal_interpolation] answers
    TIME_EXTRAPOLATION exactly when the field is not periodic, does not
    allow extrapolation, and [t < tvals[0]] or [t > tvals[tdim-1]]; and on
    a field that is not periodic, with a strictly increasing axis, the
    query at [t = tvals[tdim-1]] does not answer TIME_EXTRAPOLATION: it
    is the single-sample branch at the index [tdim-1]. *)
Theorem time_extrapolation_iff :
  (forall (F : Type) (A : Arith F) fuel x y z time (f : CField F) gcode cur m
          t0 tl,
      GridCode_of_int (gtype (f_grid f)) = Some gcode ->
      (g_time (grid (f_grid f))).[0] = Some t0 ->
      (g_time (grid (f_grid f))).[g_tdim (grid (f_grid f)) - 1] = Some tl ->
      ((exists r, temporal_interpolation fuel x y z time f cur m
                  = Some (ERROR_TIME_EXTRAPOLATION, r))
       <->
       (time_periodic f = 0%Z /\ allow_time_extrapolation f = 0%Z /\
        (ltb time t0 = true \/ ltb tl time = true))))
  /\
  (forall fuel x y z (f : CField Qc) gcode cur m ti0 cur1 tl,
      let g := grid (f_grid f) in
      GridCode_of_int (gtype (f_grid f)) = Some gcode ->
      time_periodic f = 0%Z ->
      Z.of_nat (length (g_time g)) = g_tdim g ->
      increasing (g_time g) = true ->
      (g_time g).[g_tdim g - 1] = Some tl ->
      (c_ti cur).[igrid f] = Some ti0 -> (ti0 <= g_tdim g - 1)%Z ->
      set_ti cur (igrid f) (g_tdim g - 1) = Some cur1 ->
      temporal_interpolation fuel x y z tl f cur m
      = one_sample x y z f gcode cur1 (g_tdim g - 1) m
      /\ forall r, temporal_interpolation fuel x y z tl f cur m
                   <> Some (ERROR_TIME_EXTRAPOLATION, r)).
Proof.
  split.
  - intros F A fuel x y z time f gcode cur m t0 tl Hg H0 Hl.
    unfold temporal_interpolation. rewrite Hg.
    rewrite <- (extrapolates_true_iff time f t0 tl H0 Hl). split.
    + intros [r H]. eapply time_extrapolation_from_test; eauto.
    + intros H. eexists. apply time_extrapolation_of_test. exact H.
  - intros fuel x y z f gcode cur m ti0 cur1 tl g Hg Hper Hlen Hinc Hl Hti0
      Hle Hset.
    assert (Hs : (1 <= g_tdim g)%Z) by (apply rd_range in Hl; lia).
    destruct (rd_Some (g_time g) 0) as [t0 H0]; [lia|].
    assert (Hends : t0 <= tl) by (eapply axis_ends; eauto).
    assert (E : temporal_interpolation fuel x y z tl f cur m
                = one_sample x y z f gcode cur1 (g_tdim g - 1) m).
    { unfold temporal_interpolation. rewrite Hg.
      unfold temporal_interpolation_structured_grid. fold g.
      assert (X : extrapolates tl f = Some false).
      { unfold extrapolates. fold g. rewrite H0, Hl, Hper. simpl.
        destruct (allow_time_extrapolation f =? 0)%Z; [|reflexivity].
        apply ltb_ge in Hends. simpl in Hends. rewrite Hends.
        assert (R : ltb tl tl = false) by (apply ltb_ge; apply Qcle_refl).
        simpl in R. rewrite R. reflexivity. }
      rewrite X. simpl. rewrite Hti0. simpl. rewrite Hper.
      destruct (time_index_plain (g_tdim g) (g_time g) t0 tl Hlen Hinc H0 Hl
                  tl 0 (or_introl eq_refl) Hends) as (i & G & Hi).
      rewrite (Hi fuel ti0 Hle). simpl.
      rewrite (greatest_index_unique _ _ _ (g_tdim g - 1) G)
        by (apply (greatest_index_last tl (g_tdim g) (g_time g) tl); auto;
            apply Qcle_refl).
      rewrite Hset. simpl. rewrite Z.ltb_irrefl. reflexivity. }
    split; [exact E|]. intros r H. rewrite E in H.
    apply one_sample_code in H.
    destruct H as [H | [H | H]]; discriminate.
Qed.


End DriverTime.

Section Sphere.
Context {F : Type} {A : Arith F}.
Local Open Scope num_scope.

(** ** The first test of the spherical rectilinear search *)

(** On a spherical rectilinear grid with [zonal_periodic = 0], when the
    end values ascend every [x] below [xvals[0]] or above
    [xvals[xdim-1]] is rejected with ERROR_OUT_OF_BOUNDS before any
    search; when they descend ([xvals[0] >= xvals[xdim-1]]) the [x]
    strictly between [xvals[xdim-1]] and [xvals[0]] are rejected there,
    and every other [x] is searched for as on a zonally periodic
    grid. *)
Lemma sphere_first_test :
  forall (x y z : F) xdim ydim zdim xvals yvals zvals sm gcode (c : Cell F)
         z4d ti tdim time t0 t1 x0 xl,
    sm <> 0%Z ->
    xvals.[0] = Some x0 ->
    xvals.[xdim - 1] = Some xl ->
    let search zp :=
      search_indices_rectilinear x y z xdim ydim zdim xvals yvals zvals sm zp
        gcode c z4d ti tdim time t0 t1 in
    ((x0 <? xl) = true -> (x <? x0) = true \/ (x >? xl) = true ->
     search 0%Z = Some (ERROR_OUT_OF_BOUNDS, c))
    /\
    ((x0 <? xl) = false -> (x0 >=? xl) = true ->
     (x <? x0) = true -> (x >? xl) = true ->
     search 0%Z = Some (ERROR_OUT_OF_BOUNDS, c))
    /\
    ((x0 <? xl) = false ->
     (x <? x0) = false \/ (x >? xl) = false ->
     search 0%Z = search 1%Z).
Proof.
  intros x y z xdim ydim zdim xvals yvals zvals sm gcode c z4d ti tdim time
    t0 t1 x0 xl Hsm H0 Hl search.
  apply Z.eqb_neq in Hsm. subst search.
  unfold search_indices_rectilinear. rewrite Hsm, H0, Hl. cbn [bind Z.eqb].
  repeat split.
  - intros Hasc Hout. rewrite Hasc.
    assert (E : (x <? x0) || (x >? xl) = true)
      by (apply orb_true_iff; exact Hout).
    rewrite E. reflexivity.
  - intros Hasc Hdesc L0 Ll. rewrite Hasc, Hdesc, L0, Ll. reflexivity.
  - intros Hasc Hin. rewrite Hasc.
    assert (E : (x <? x0) && (x >? xl) = false)
      by (apply andb_false_iff; exact Hin).
    rewrite E. rewrite andb_false_r. reflexivity.
Qed.

End Sphere.

Section NotANumber.
Context {F : Type} {A : Arith F}.
Local Open Scope num_scope.

(** ** Numbers that are not numbers *)

Lemma check_vertical_coords (c : Cell F) r c' :
  check_vertical c r = Go c' -> xsi c' = xsi c /\ eta c' = eta c.
Proof.
  unfold check_vertical. destruct r as [e [zi' zeta']].
  destruct e; intros H; inversion H; auto.
Qed.

(** The curvilinear search tests [xsi] and [eta] for NaN before it
    succeeds: on SUCCESS both are equal to themselves. *)
Lemma curvilinear_rejects_nan (x y z : F) xdim ydim zdim xvals yvals zvals
    sm zp gcode c z4d ti tdim time t0 t1 c' :
  search_indices_curvilinear x y z xdim ydim zdim xvals yvals zvals sm zp
    gcode c z4d ti tdim time t0 t1 = Some (SUCCESS, c') ->
  (xsi c' =? xsi c') = true /\ (eta c' =? eta c') = true.
Proof.
  unfold search_indices_curvilinear. intros H.
  apply bind_Some in H. destruct H as (rejected & _ & H).
  destruct rejected; [discriminate|].
  apply and_then_Some in H.
  destruct H as [(e & s & E & H) | (c1 & _ & H)].
  { inversion H; subst e s. apply curvilinear_walk_Ret in E. discriminate. }
  destruct (negb (xsi c1 =? xsi c1) || negb (eta c1 =? eta c1)) eqn:N;
    [discriminate|].
  apply orb_false_iff in N. destruct N as [N1 N2].
  apply negb_false_iff in N1, N2.
  apply and_then_Some in H.
  destruct H as [(e & s & E & H) | (c3 & E & H)].
  { exfalso. inversion H; subst e s. clear H.
    destruct (zdim >? 1)%Z; [|discriminate].
    destruct gcode; try discriminate.
    - apply bind_Some in E. destruct E as ([e1 zr] & V & E).
      apply check_vertical_flow in E; [discriminate|].
      eapply vertical_z_code; eauto.
    - apply bind_Some in E. destruct E as ([e1 zr] & V & E).
      apply check_vertical_flow in E; [discriminate|].
      eapply vertical_s_code; eauto. }
  assert (V : xsi c3 = xsi c1 /\ eta c3 = eta c1).
  { destruct (zdim >? 1)%Z.
    - destruct gcode; try discriminate.
      + apply bind_Some in E. destruct E as (r & _ & E).
        inversion E as [E']. eapply check_vertical_coords; eauto.
      + apply bind_Some in E. destruct E as (r & _ & E).
        inversion E as [E']. eapply check_vertical_coords; eauto.
    - inversion E; subst c3. auto. }
  destruct V as [V1 V2].
  repeat (step H; [discriminate|]). inversion H; subst c'.
  rewrite V1, V2. auto.
Qed.

End NotANumber.

Section Located.
Local Open Scope Qc_scope.

(** ** The located cell, on the exact arithmetic *)

(** The walk of an in-range value, from a hint on the axis, ends on the
    interval that holds the value. *)
Lemma walk_in_range (v : Qc) dim vals i i' v0 vl :
  vals.[0] = Some v0 -> vals.[dim - 1] = Some vl ->
  v0 <= v -> v <= vl ->
  (0 <= i <= dim - 2)%Z ->
  walk gt v dim vals i = Some i' ->
  (0 <= i' <= dim - 2)%Z /\
  exists lo hi,
    vals.[i'] = Some lo /\ vals.[i' + 1] = Some hi /\ between lo v hi.
Proof.
  intros H0 Hl Hge Hle Hi W.
  pose proof (rd_range _ _ _ Hl) as Rl.
  destruct (walk_spec gt v dim vals i)
    as (i1 & i2 & R & Hi1 & Hi2 & Hstop & Hup & Hstop2 & Hdown); try lia.
  assert (i2 = i') by congruence. subst i2.
  assert (Hi1' : (i1 <= dim - 2)%Z).
  { destruct (Z.eq_dec i1 (dim - 1)) as [->|]; [|lia].
    destruct (Hup (dim - 2)%Z) as (w & Hw & U); [lia|].
    replace (dim - 2 + 1)%Z with (dim - 1)%Z in Hw by lia.
    assert (w = vl) by congruence. subst w.
    apply ltb_lt in U. exfalso. revert U. apply Qcle_not_lt. exact Hle. }
  split; [lia|].
  destruct (Hstop ltac:(lia)) as (w1 & Hw1 & U1). apply ltb_ge in U1.
  destruct (rd_Some vals i') as [lo Hlo]; [lia|].
  destruct (rd_Some vals (i' + 1)) as [hi Hhi]; [lia|].
  exists lo, hi. split; [exact Hlo|]. split; [exact Hhi|]. split.
  - destruct (Z.eq_dec i' 0) as [->|].
    + assert (lo = v0) by congruence. subst. exact Hge.
    + destruct (Hstop2 ltac:(lia)) as (w & Hw & U).
      assert (w = lo) by congruence. subst w. apply ltb_ge in U. exact U.
  - destruct (Z.eq_dec i' i1) as [->|].
    + assert (hi = w1) by congruence. subst. exact U1.
    + destruct (Hdown (i' + 1)%Z) as (w & Hw & U); [lia|].
      assert (w = hi) by congruence. subst w. apply ltb_lt in U.
      apply Qclt_le_weak. exact U.
Qed.

Lemma vertical_z_success (z : Qc) zdim zvals zi zeta0 zi' zeta' :
  (0 <= zi <= zdim - 2)%Z ->
  search_indices_vertical_z z zdim zvals zi zeta0
  = Some (SUCCESS, (zi', zeta')) ->
  (0 <= zi' <= zdim - 2)%Z /\ in_interval zvals zi' z zeta'.
Proof.
  intros Hzi H. unfold search_indices_vertical_z in H.
  apply bind_Some in H. destruct H as (z0 & H0 & H).
  destruct (ltb z z0) eqn:L0; [discriminate|].
  apply bind_Some in H. destruct H as (zl & Hl & H).
  destruct (ltb zl z) eqn:Ll; [discriminate|].
  apply bind_Some in H. destruct H as (i' & W & H).
  apply ltb_ge in L0, Ll.
  destruct (walk_in_range z zdim zvals zi i' z0 zl H0 Hl L0 Ll Hzi W)
    as (Hi' & lo & hi & Hlo & Hhi & B).
  destruct (i' =? zdim - 1)%Z eqn:E; [apply Z.eqb_eq in E; lia|].
  rewrite Hlo, Hhi in H. simpl in H. inversion H; subst.
  split; [exact Hi'|]. exists lo, hi. repeat split; auto; apply B.
Qed.

Lemma fix_1d_index_range i xdim :
  (2 <= xdim)%Z -> (0 <= fix_1d_index i xdim 1 <= xdim - 2)%Z.
Proof.
  intros H. unfold fix_1d_index. simpl.
  destruct (i <? 0)%Z eqn:E1.
  - destruct (xdim - 2 >? xdim - 2)%Z eqn:E2; lia.
  - destruct (i >? xdim - 2)%Z eqn:E2; lia.
Qed.

Lemma sphere_walk_Go n (x : Qc) xdim xvals i v v1 it i' v' v1' :
  (2 <= xdim)%Z ->
  unwrap_lon x xvals i = Some (v, v1) -> (0 <= i <= xdim - 2)%Z ->
  sphere_walk n x xdim xvals i v v1 it = Some (Go (i', (v', v1'))) ->
  unwrap_lon x xvals i' = Some (v', v1') /\ (0 <= i' <= xdim - 2)%Z /\
  between v' x v1'.
Proof.
  intros Hx. revert i v v1 it.
  induction n as [|n IH]; intros i v v1 it Hu Hi H; simpl in H.
  - step H.
    + step H. destruct x0 as [w w1]. simpl in H. step H; discriminate.
    + inversion H; subst. apply orb_false_iff in E. destruct E as [C1 C2].
      apply ltb_ge in C1, C2. repeat split; auto; lia.
  - step H.
    + step H. destruct x0 as [w w1]. simpl in H. step H; [discriminate|].
      apply (IH _ _ _ _ E0 (fix_1d_index_range _ _ Hx) H).
    + inversion H; subst. apply orb_false_iff in E. destruct E as [C1 C2].
      apply ltb_ge in C1, C2. repeat split; auto; lia.
Qed.

End Located.

Section LocatedCell.
Local Open Scope Qc_scope.

Lemma unit_tests (v : Qc) :
  ltb v (of_int 0) || ltb (of_int 1) v = false -> in_unit v.
Proof.
  intros H. apply orb_false_iff in H. destruct H as [H0 H1].
  apply ltb_ge in H0, H1. split; assumption.
Qed.

Lemma check_vertical_Go (c : Cell Qc) e zi' zeta' c' :
  check_vertical c (e, (zi', zeta')) = Go c' ->
  e = SUCCESS /\ c' = set_zeta (set_zi c zi') zeta'.
Proof.
  unfold check_vertical. destruct e; intros H; inversion H; auto.
Qed.

(** On a rectilinear grid, a search that returns SUCCESS from a cursor
    of the grid leaves a cursor of the grid and coordinates of [[0, 1]],
    and the point lies between the two values of each axis at the cell
    of the cursor; on a grid of one level [zi] is left as it was. *)
Lemma rectilinear_success (x y z : Qc) xdim ydim zdim xvals yvals zvals sm zp
    gcode c z4d ti tdim time t0 t1 c' :
  (0 <= xi c <= xdim - 2)%Z -> (0 <= yi c <= ydim - 2)%Z ->
  ((1 < zdim)%Z -> (0 <= zi c <= zdim - 2)%Z) ->
  search_indices_rectilinear x y z xdim ydim zdim xvals yvals zvals sm zp
    gcode c z4d ti tdim time t0 t1 = Some (SUCCESS, c') ->
  (0 <= xi c' <= xdim - 2)%Z /\ (0 <= yi c' <= ydim - 2)%Z /\
  ((1 < zdim)%Z -> (0 <= zi c' <= zdim - 2)%Z) /\
  ((zdim <= 1)%Z -> zi c' = zi c /\ zeta c' = 0) /\
  in_unit (xsi c') /\ in_unit (eta c') /\ in_unit (zeta c') /\
  located_x x xvals sm c' /\ located_y y yvals c' /\
  ((1 < zdim)%Z ->
   curvilinear gcode = false /\
   located_z z xdim ydim zdim zvals gcode z4d ti tdim time t0 t1 c').
Proof.
  intros Hxi Hyi Hzi H. unfold search_indices_rectilinear in H.
  assert (Hx2 : (2 <= xdim)%Z) by lia.
  apply and_then_Some in H.
  destruct H as [(e & s & E & H) | (c1 & E & H)].
  { (* no return of SUCCESS from the search along x *)
    exfalso. inversion H; subst e s. clear H.
    code_cases. }
  assert (X : (0 <= xi c1 <= xdim - 2)%Z /\ located_x x xvals sm c1 /\
              yi c1 = yi c /\ zi c1 = zi c).
  { unfold located_x. destruct (sm =? 0)%Z eqn:Sm.
    - apply bind_Some in E. destruct E as (x0 & H0 & E).
      destruct (ltb x x0) eqn:L0; [discriminate|].
      apply bind_Some in E. destruct E as (xl & Hl & E).
      destruct (ltb xl x) eqn:Ll; [discriminate|].
      apply bind_Some in E. destruct E as (i & W & E).
      apply bind_Some in E. destruct E as (lo & Hlo & E).
      apply bind_Some in E. destruct E as (hi & Hhi & E).
      inversion E; subst c1; clear E. cbn [xi yi zi xsi set_xi set_xsi].
      apply ltb_ge in L0, Ll.
      destruct (walk_in_range x xdim xvals (xi c) i x0 xl H0 Hl L0 Ll Hxi W)
        as (Hi & lo' & hi' & Hlo' & Hhi' & B).
      assert (lo' = lo) by congruence. assert (hi' = hi) by congruence.
      subst lo' hi'.
      repeat split; auto; try lia. exists lo, hi. repeat split; auto; apply B.
    - apply bind_Some in E. destruct E as (rejected & _ & E).
      destruct rejected; [discriminate|].
      apply bind_Some in E. destruct E as ([v v1] & U & E).
      apply bind_Some in E. destruct E as (r & W & E).
      destruct r as [e1 [i p] | [i [v' v1']]]; [discriminate|].
      inversion E; subst c1; clear E. cbn [xi yi zi xsi set_xi set_xsi].
      destruct (sphere_walk_Go _ _ _ _ _ _ _ _ _ _ _ Hx2 U Hxi W)
        as (U' & Hi & B).
      repeat split; auto; try lia. exists v', v1'. repeat split; auto; apply B. }
  destruct X as (Hxi1 & Lx & Eyi & Ezi).
  apply bind_Some in H. destruct H as (y0 & H0 & H).
  destruct (ltb y y0) eqn:L0; [discriminate|].
  apply bind_Some in H. destruct H as (yl & Hl & H).
  destruct (ltb yl y) eqn:Ll; [discriminate|].
  apply bind_Some in H. destruct H as (j & W & H).
  apply bind_Some in H. destruct H as (lo & Hlo & H).
  apply bind_Some in H. destruct H as (hi & Hhi & H).
  apply ltb_ge in L0, Ll. rewrite Eyi in W.
  destruct (walk_in_range y ydim yvals (yi c) j y0 yl H0 Hl L0 Ll Hyi W)
    as (Hj & lo' & hi' & Hlo' & Hhi' & B).
  assert (lo' = lo) by congruence. assert (hi' = hi) by congruence.
  subst lo' hi'.
  set (c2 := set_eta (set_yi c1 j) (divf (subf y lo) (subf hi lo))) in H.
  assert (Ly : located_y y yvals c2).
  { exists lo, hi. repeat split; auto; apply B. }
  assert (Lx2 : located_x x xvals sm c2).
  { exact Lx. }
  assert (F2 : xi c2 = xi c1 /\ yi c2 = j /\ zi c2 = zi c) by auto.
  destruct F2 as (F2x & F2y & F2z).
  clear E. clearbody c2.
  apply and_then_Some in H.
  destruct H as [(e & s & E & H) | (c3 & E & H)].
  { exfalso. inversion H; subst e s. clear H.
    destruct (zdim >? 1)%Z; [|discriminate].
    destruct gcode; try discriminate.
    - apply bind_Some in E. destruct E as ([e1 zr] & V & E).
      apply check_vertical_flow in E; [discriminate|].
      eapply vertical_z_code; eauto.
    - apply bind_Some in E. destruct E as ([e1 zr] & V & E).
      apply check_vertical_flow in E; [discriminate|].
      eapply vertical_s_code; eauto. }
  assert (V : xi c3 = xi c2 /\ yi c3 = yi c2 /\ xsi c3 = xsi c2 /\
              eta c3 = eta c2 /\
              ((zdim <= 1)%Z -> zi c3 = zi c /\ zeta c3 = 0) /\
              ((1 < zdim)%Z ->
               (0 <= zi c3 <= zdim - 2)%Z /\ curvilinear gcode = false /\
               located_z z xdim ydim zdim zvals gcode z4d ti tdim time t0 t1
                 c3)).
  { destruct (zdim >? 1)%Z eqn:Zd.
    - apply Z.gtb_lt in Zd. rewrite F2z in E.
      destruct gcode; try discriminate.
      + apply bind_Some in E. destruct E as ([e1 [zi' zeta']] & Vz & E).
        inversion E as [E']. apply check_vertical_Go in E'.
        destruct E' as [-> ->].
        destruct (vertical_z_success _ _ _ _ _ _ _ (Hzi Zd) Vz) as [R I].
        cbn [xi yi zi xsi eta zeta set_zi set_zeta].
        repeat split; auto; try lia.
      + apply bind_Some in E. destruct E as ([e1 [zi' zeta']] & Vs & E).
        inversion E as [E']. apply check_vertical_Go in E'.
        destruct E' as [-> ->].
        unfold search_indices_vertical_s in Vs.
        apply bind_Some in Vs. destruct Vs as (zcol & M & Vz).
        destruct (vertical_z_success _ _ _ _ _ _ _ (Hzi Zd) Vz) as [R I].
        cbn [xi yi zi xsi eta zeta set_zi set_zeta].
        repeat split; auto; try lia.
        exists zcol. cbn [xi yi zi xsi eta zeta set_zi set_zeta]. auto.
    - rewrite Z.gtb_ltb in Zd. apply Z.ltb_ge in Zd.
      inversion E; subst c3. cbn [xi yi zi xsi eta zeta set_zeta].
      repeat split; auto; lia. }
  destruct V as (V1 & V2 & V3 & V4 & V5 & V6). clear E.
  destruct (ltb (xsi c3) (of_int 0) || ltb (of_int 1) (xsi c3)) eqn:Ux;
    [discriminate|].
  destruct (ltb (eta c3) (of_int 0) || ltb (of_int 1) (eta c3)) eqn:Ue;
    [discriminate|].
  destruct (ltb (zeta c3) (of_int 0) || ltb (of_int 1) (zeta c3)) eqn:Uz;
    [discriminate|].
  inversion H; subst c'. clear H.
  apply unit_tests in Ux, Ue, Uz.
  assert (Lx3 : located_x x xvals sm c3)
    by (unfold located_x in *; rewrite V1, V3; exact Lx2).
  assert (Ly3 : located_y y yvals c3)
    by (unfold located_y in *; rewrite V2, V4; exact Ly).
  rewrite V1, V2, F2x, F2y.
  repeat split; auto; try lia; try apply V6; try apply V5;
    try apply Ux; try apply Ue; try apply Uz; auto.
Qed.

Lemma set_nth_read {X : Type} (a a' : list X) n v :
  set_nth a n v = Some a' -> nth_error a' n = Some v.
Proof.
  revert a' n. induction a as [|h r IH]; intros a' n H; [discriminate|].
  destruct n as [|n]; simpl in H.
  - inversion H. reflexivity.
  - apply bind_Some in H. destruct H as (r' & E & H). inversion H.
    simpl. eauto.
Qed.

Lemma wr_read {X : Type} (a a' : list X) i v :
  wr a i v = Some a' -> a'.[i] = Some v.
Proof.
  unfold wr, rd. destruct (i <? 0)%Z; [discriminate|]. apply set_nth_read.
Qed.


End LocatedCell.

(** ** The longitudes that a spherical rectilinear grid rejects *)

Section SphereWalkCap.
Context {F : Type} {A : Arith F}.
Local Open Scope num_scope.

(** When no cell of the axis passes the test of the loop, the walk on a
    sphere goes on until its counter passes [itMax] and returns
    ERROR_OUT_OF_BOUNDS. *)
Lemma sphere_walk_cap n (x : F) xdim xvals i v v1 it :
  (2 <= xdim <= Z.of_nat (length xvals))%Z ->
  (forall j w w1, (0 <= j <= xdim - 2)%Z ->
     unwrap_lon x xvals j = Some (w, w1) -> (w >? x) || (w1 <? x) = true) ->
  (0 <= i <= xdim - 2)%Z -> unwrap_lon x xvals i = Some (v, v1) ->
  (itMax <= Z.of_nat n + it)%Z ->
  exists i' p, sphere_walk n x xdim xvals i v v1 it
               = Some (Ret ERROR_OUT_OF_BOUNDS (i', p)).
Proof.
  intros Hx Hno. revert i v v1 it.
  induction n as [|n IH]; intros i v v1 it Hi Hu Hn; cbn [sphere_walk];
    rewrite (Hno i v v1 Hi Hu);
    set (i1 := fix_1d_index _ xdim 1);
    assert (R1 : (0 <= i1 <= xdim - 2)%Z)
      by (apply fix_1d_index_range; lia);
    assert (U : exists w w1, unwrap_lon x xvals i1 = Some (w, w1)).
  1, 3: unfold unwrap_lon;
    destruct (rd_Some xvals i1) as [a Ha]; [lia|];
    destruct (rd_Some xvals (i1 + 1)) as [b Hb]; [lia|];
    rewrite Ha; cbn [bind]; rewrite Hb; cbn [bind]; eauto.
  - destruct U as (w & w1 & U). rewrite U. cbn [bind].
    destruct (it + 1 >? itMax)%Z eqn:G;
      [|exfalso; rewrite Z.gtb_ltb in G; apply Z.ltb_ge in G; lia].
    eauto.
  - destruct U as (w & w1 & U). rewrite U. cbn [bind].
    destruct (it + 1 >? itMax)%Z eqn:G; [eauto|].
    rewrite Z.gtb_ltb in G. apply Z.ltb_ge in G.
    apply (IH i1 w w1 (it + 1)%Z R1 U). lia.
Qed.

End SphereWalkCap.

Section SphereExtent.
Local Open Scope Qc_scope.

Lemma unwrapped_nth n xvals j :
  nth_error (unwrapped n xvals) j
  = option_map (fun v => if (j <? n)%nat then v else v + Exact.from_int 360)
      (nth_error xvals j).
Proof.
  revert n j. induction xvals as [|a r IH]; intros n j.
  - destruct j; reflexivity.
  - destruct n as [|n], j as [|j]; cbn [unwrapped nth_error option_map];
      try reflexivity; rewrite IH; reflexivity.
Qed.

Lemma unwrapped_rd n xvals i v :
  xvals.[i] = Some v ->
  (unwrapped n xvals).[i]
  = Some (if (i <? Z.of_nat n)%Z then v else v + Exact.from_int 360).
Proof.
  unfold rd. destruct (i <? 0)%Z eqn:N; [discriminate|].
  apply Z.ltb_ge in N. intros H. rewrite unwrapped_nth, H. cbn [option_map].
  destruct (Z.to_nat i <? n)%nat eqn:L1, (i <? Z.of_nat n)%Z eqn:L2;
    try reflexivity; exfalso.
  - apply Nat.ltb_lt in L1. apply Z.ltb_ge in L2. lia.
  - apply Nat.ltb_ge in L1. apply Z.ltb_lt in L2. lia.
Qed.

(** The cells of an axis that crosses the date line: once unwrapped, the
    two values of a cell are in their order between the first value of
    the axis and the last value taken one turn further. *)
Lemma crossing_cell n xvals xdim x0 xl i a b :
  increasing (unwrapped n xvals) = true ->
  xvals.[0] = Some x0 -> xvals.[xdim - 1] = Some xl -> xl <= x0 ->
  (0 <= i <= xdim - 2)%Z ->
  xvals.[i] = Some a -> xvals.[i + 1] = Some b ->
  exists ea eb,
    ((ea = 0 /\ eb = 0) \/ (ea = 0 /\ eb = Exact.from_int 360)
     \/ (ea = Exact.from_int 360 /\ eb = Exact.from_int 360))
    /\ x0 <= a + ea /\ a + ea < b + eb
    /\ b + eb <= xl + Exact.from_int 360.
Proof.
  intros Hinc H0 Hl Hends Hi Ha Hb.
  pose proof (unwrapped_rd n _ _ _ H0) as U0.
  pose proof (unwrapped_rd n _ _ _ Hl) as Ul.
  pose proof (unwrapped_rd n _ _ _ Ha) as Ua.
  pose proof (unwrapped_rd n _ _ _ Hb) as Ub.
  assert (E0l : (0 < xdim - 1)%Z) by lia.
  pose proof (increasing_lt _ _ _ _ _ Hinc E0l U0 Ul) as Lends.
  assert (N0 : (0 <? Z.of_nat n)%Z = true).
  { destruct (0 <? Z.of_nat n)%Z eqn:N; [reflexivity|]. exfalso.
    apply Z.ltb_ge in N.
    assert (Nl : (xdim - 1 <? Z.of_nat n)%Z = false)
      by (apply Z.ltb_ge; lia).
    rewrite Nl in Lends. revert Lends Hends. to_Q. unfold inject_Z. lra. }
  rewrite N0 in *.
  assert (Nl : (xdim - 1 <? Z.of_nat n)%Z = false).
  { destruct (xdim - 1 <? Z.of_nat n)%Z eqn:N; [|reflexivity]. exfalso.
    revert Lends Hends. to_Q. lra. }
  rewrite Nl in *.
  assert (Ei : (i < i + 1)%Z) by lia.
  pose proof (increasing_lt _ _ _ _ _ Hinc Ei Ua Ub) as Lab.
  assert (E0i : (0 <= i)%Z) by lia.
  pose proof (increasing_le _ _ _ _ _ Hinc E0i U0 Ua) as L0a.
  assert (Eil : (i + 1 <= xdim - 1)%Z) by lia.
  pose proof (increasing_le _ _ _ _ _ Hinc Eil Ub Ul) as Lbl.
  apply Z.ltb_ge in Nl.
  destruct (i <? Z.of_nat n)%Z eqn:Ni, (i + 1 <? Z.of_nat n)%Z eqn:Ni1.
  - exists 0, 0. split; [auto|]. rewrite !Qcplus_0_r. auto.
  - exists 0, (Exact.from_int 360). split; [auto|]. rewrite !Qcplus_0_r. auto.
  - exfalso. apply Z.ltb_ge in Ni. apply Z.ltb_lt in Ni1. lia.
  - exists (Exact.from_int 360), (Exact.from_int 360). split; [auto|]. auto.
Qed.

Lemma unwrap_lon_exact (x : Qc) xvals i a b :
  xvals.[i] = Some a -> xvals.[i + 1] = Some b ->
  unwrap_lon x xvals i
  = Some (next_to x a, next_after (next_to x a) b).
Proof. unfold unwrap_lon. intros -> ->. reflexivity. Qed.

Ltac order_facts :=
  repeat match goal with
    | H : ltb _ _ = true |- _ => apply ltb_lt in H
    | H : ltb _ _ = false |- _ => apply ltb_ge in H
    end.

(** A longitude of the gap between the two ends of the axis, taken any
    number of turns further, is in no cell of the axis, however the
    values of the cell are brought next to it. *)
Lemma gap_not_straddled (x0 xl g a b ea eb : Qc) (k : Z) :
  (ea = 0 /\ eb = 0) \/ (ea = 0 /\ eb = Exact.from_int 360)
  \/ (ea = Exact.from_int 360 /\ eb = Exact.from_int 360) ->
  x0 <= a + ea -> a + ea < b + eb -> b + eb <= xl + Exact.from_int 360 ->
  xl < g -> g < x0 ->
  let x := g + Exact.from_int k * Exact.from_int 360 in
  ltb x (next_to x a) || ltb (next_after (next_to x a) b) x = true.
Proof.
  intros He L0 Lab Ll G0 G1 x.
  destruct (ltb x (next_to x a)) eqn:T1; [reflexivity|].
  destruct (ltb (next_after (next_to x a) b) x) eqn:T2; [reflexivity|].
  exfalso. revert T1 T2. unfold next_after, next_to. cbv zeta.
  assert (K : (k <= -2 \/ k = -1 \/ k = 0 \/ k = 1 \/ 2 <= k)%Z) by lia.
  assert (Q1 : (k <= -2)%Z -> (inject_Z k <= -2 # 1)%Q)
    by (intros H; rewrite Zle_Qle in H; exact H).
  assert (Q2 : (2 <= k)%Z -> (2 # 1 <= inject_Z k)%Q)
    by (intros H; rewrite Zle_Qle in H; exact H).
  subst x.
  destruct (ltb a (g + Exact.from_int k * Exact.from_int 360
                   - Exact.from_int 225)) eqn:C1;
    destruct (ltb (g + Exact.from_int k * Exact.from_int 360
                   + Exact.from_int 225) _) eqn:C2;
    match goal with
    | |- ltb _ ?v = false -> _ =>
        destruct (ltb b (v - Exact.from_int 180)) eqn:C3;
        destruct (ltb (v + Exact.from_int 180) _) eqn:C4
    end;
    intros T1 T2; order_facts;
    destruct He as [[-> ->] | [[-> ->] | [-> ->]]];
    destruct K as [K | [K | [K | [K | K]]]];
    try (specialize (Q1 K)); try (specialize (Q2 K));
    try subst k; to_Q; unfold inject_Z in *;
    try (set (q := (k # 1)%Q) in *; clearbody q);
    lra.
Qed.

(** No cell of an axis that crosses the date line passes the test of the
    loop for a longitude of the gap, taken any number of turns further. *)
Lemma gap_in_no_cell n xvals xdim x0 xl g k :
  Z.of_nat (length xvals) = xdim ->
  increasing (unwrapped n xvals) = true ->
  xvals.[0] = Some x0 -> xvals.[xdim - 1] = Some xl -> xl <= x0 ->
  xl < g -> g < x0 ->
  let x := g + Exact.from_int k * Exact.from_int 360 in
  forall j w w1, (0 <= j <= xdim - 2)%Z ->
    unwrap_lon x xvals j = Some (w, w1) ->
    ltb x w || ltb w1 x = true.
Proof.
  intros Hlen Hinc H0 Hl Hends G0 G1 x j w w1 Hj U.
  destruct (rd_Some xvals j) as [a Ha]; [lia|].
  destruct (rd_Some xvals (j + 1)) as [b Hb]; [lia|].
  rewrite (unwrap_lon_exact x xvals j a b Ha Hb) in U.
  assert (E : (next_to x a, next_after (next_to x a) b) = (w, w1))
    by congruence.
  apply pair_equal_spec in E. destruct E as [<- <-].
  destruct (crossing_cell n xvals xdim x0 xl j a b Hinc H0 Hl Hends Hj Ha Hb)
    as (ea & eb & He & L0 & Lab & Ll).
  exact (gap_not_straddled x0 xl g a b ea eb k He L0 Lab Ll G0 G1).
Qed.

End SphereExtent.

(** C6: on a spherical rectilinear grid with [zonal_periodic = 0],
    [search_indices_rectilinear] rejects with ERROR_OUT_OF_BOUNDS every
    [x] outside the longitudes of the grid.  When the end values ascend
    these are the [x] below [xvals[0]] or above [xvals[xdim-1]]; when
    they descend, the [x] strictly between [xvals[xdim-1]] and
    [xvals[0]]: both are rejected by the first test, before any search
    and with the cursor as it was, in any arithmetic.  When the end
    values descend the grid crosses the date line, and its longitudes
    are those from [xvals[0]] to [xvals[xdim-1] + 360] and the ones a
    number of turns away: an [x] that is a number of turns away from the
    gap between [xvals[xdim-1]] and [xvals[0]] passes the first test
    unless it is in the gap itself, is in no cell of the axis, and is
    rejected when the search gives up after [itMax] rounds (in the exact
    arithmetic, from a cursor of the grid). *)
Theorem sphere_rejects_outside :
  (forall (F : Type) (A : Arith F) (x y z : F) xdim ydim zdim xvals yvals
          zvals sm gcode (c : Cell F) z4d ti tdim time t0 t1 x0 xl,
      sm <> 0%Z ->
      xvals.[0] = Some x0 -> xvals.[xdim - 1] = Some xl ->
      let search :=
        search_indices_rectilinear x y z xdim ydim zdim xvals yvals zvals
          sm 0 gcode c z4d ti tdim time t0 t1 in
      (ltb x0 xl = true -> ltb x x0 = true \/ ltb xl x = true ->
       search = Some (ERROR_OUT_OF_BOUNDS, c))
      /\ (ltb x0 xl = false -> leb xl x0 = true ->
          ltb x x0 = true -> ltb xl x = true ->
          search = Some (ERROR_OUT_OF_BOUNDS, c)))
  /\
  (forall (x y z : Qc) xdim ydim zdim xvals yvals zvals sm gcode
          (c : Cell Qc) z4d ti tdim time t0 t1 x0 xl n g k,
      sm <> 0%Z ->
      Z.of_nat (length xvals) = xdim ->
      increasing (unwrapped n xvals) = true ->
      xvals.[0] = Some x0 -> xvals.[xdim - 1] = Some xl ->
      (xl <= x0)%Qc ->
      (0 <= xi c <= xdim - 2)%Z ->
      (xl < g)%Qc -> (g < x0)%Qc ->
      x = (g + Exact.from_int k * Exact.from_int 360)%Qc ->
      exists c',
        search_indices_rectilinear x y z xdim ydim zdim xvals yvals zvals
          sm 0 gcode c z4d ti tdim time t0 t1
        = Some (ERROR_OUT_OF_BOUNDS, c')).
Proof.
  split.
  - intros F A x y z xdim ydim zdim xvals yvals zvals sm gcode c z4d ti tdim
           time t0 t1 x0 xl Hsm H0 Hl search.
    destruct (sphere_first_test x y z xdim ydim zdim xvals yvals zvals sm
                gcode c z4d ti tdim time t0 t1 x0 xl Hsm H0 Hl)
      as (Asc & Desc & _).
    split; [exact Asc | exact Desc].
  - intros x y z xdim ydim zdim xvals yvals zvals sm gcode c z4d ti tdim
           time t0 t1 x0 xl n g k Hsm Hlen Hinc H0 Hl Hends Hxi G0 G1 ->.
    apply Z.eqb_neq in Hsm.
    unfold search_indices_rectilinear. rewrite Hsm, H0, Hl.
    cbn [bind Z.eqb].
    match goal with
    | |- context [if ?t then Some true else _] => destruct t
    end; cbn [bind and_then]; [eauto|].
    match goal with
    | |- context [if ?t then Some true else _] => destruct t
    end; cbn [bind and_then]; [eauto|].
    destruct (rd_Some xvals (xi c)) as [a Ha]; [lia|].
    destruct (rd_Some xvals (xi c + 1)) as [b Hb]; [lia|].
    pose proof (unwrap_lon_exact
                  (g + Exact.from_int k * Exact.from_int 360)%Qc xvals (xi c)
                  a b Ha Hb) as U.
    rewrite U. cbn [bind].
    assert (Hx : (2 <= xdim <= Z.of_nat (length xvals))%Z) by lia.
    assert (Hn : (itMax <= Z.of_nat (Z.to_nat itMax) + 0)%Z)
      by (unfold itMax; lia).
    destruct (sphere_walk_cap (Z.to_nat itMax) _ xdim xvals (xi c) _ _ 0%Z
                Hx
                (gap_in_no_cell n xvals xdim x0 xl g k Hlen Hinc H0 Hl Hends
                   G0 G1)
                Hxi U Hn) as (i' & p & W).
    rewrite W. cbn [bind and_then]. eauto.
Qed.

Import Examples.
Import MoreExamples.

(** ** Runs of the examples *)

(** C2, as stated, fails on a field of one level: the query succeeds and
    the cursor [zi] is left at its hint 0, outside [[0, zdim-2]]. *)
Lemma one_level_cursor_outside :
  exists cur v,
    temporal_interpolation 1 0.5%float 0.5%float 0%float 0%float ramp
      cursors0 0 = Some (SUCCESS, (cur, Some v))
    /\ (c_zi cur).[igrid ramp] = Some 0%Z
    /\ ~ (0 <= 0 <= g_zdim plane - 2)%Z.
Proof.
  eexists. eexists. split; [vm_compute; reflexivity|].
  split; [reflexivity|]. vm_compute. intros [_ H]. apply H. reflexivity.
Qed.


Section FloatRuns.
Local Open Scope float_scope.

(** C2 fails on curvilinear grids.  On the grid [skew], whose four
    cells are convex, the point (5.75, 6.75) is the centre of the cell
    (1, 1).  From the cursor (0, 0) the solve on the cell (0, 0) gives
    [eta = 1] and [xsi = 1.75], the cursor moves to the cell (1, 0),
    where the discriminant is negative: its root is not a number, [eta]
    keeps the value 1 of the cell before, [xsi] is 0.75 and the search
    returns SUCCESS on the cell (1, 0), every corner of which is below
    the point.  The query of the field of the latitudes returns SUCCESS
    and 5.25 at this point of latitude 6.75; from the cursor (1, 1) the
    same search returns the cell (1, 1) and the query 6.75.  On a
    spherical grid the reflection at the top row sends the cursor
    [xi = 0] to [xi = xdim], outside the columns of cells, and the search
    reads the table of longitudes outside its [xdim * ydim] values. *)
Theorem curvilinear_success_outside_cell :
  search_indices_curvilinear 5.75 6.75 0 3 3 1 skew_lon skew_lat [0] 0 0
    CURVILINEAR_Z_GRID origin 0 0 1 0 0 1
  = Some (SUCCESS, {| xi := 1; yi := 0; zi := 0;
                      xsi := 0.75; eta := 1; zeta := 0 |})
  /\ ygrid_loc 3 skew_lat 1 0 = Some (2, 2, 5, 6)
  /\ (6 <? 6.75)%num = true
  /\ xgrid_loc 5.75 3 skew_lon 0 1 1 = Some (5, 6, 7, 5)
  /\ ygrid_loc 3 skew_lat 1 1 = Some (6, 5, 7, 9)
  /\ (5 + 6 + 7 + 5) / 4 = 5.75 /\ (6 + 5 + 7 + 9) / 4 = 6.75
  /\ search_indices_curvilinear 5.75 6.75 0 3 3 1 skew_lon skew_lat [0] 0 0
       CURVILINEAR_Z_GRID
       {| xi := 1; yi := 1; zi := 0; xsi := 0; eta := 0; zeta := 0 |}
       0 0 1 0 0 1
     = Some (SUCCESS, {| xi := 1; yi := 1; zi := 0;
                         xsi := 0.5; eta := 0.5; zeta := 0 |})
  /\ temporal_interpolation 1 5.75 6.75 0 0 latitude cursors0 0
     = Some (SUCCESS,
             ({| c_xi := [1%Z]; c_yi := [0%Z]; c_zi := [0%Z];
                 c_ti := [0%Z] |}, Some 5.25))
  /\ temporal_interpolation 1 5.75 6.75 0 0 latitude cursors11 0
     = Some (SUCCESS, (cursors11, Some 6.75))
  /\ fix_2d_indices 0 1 2 2 1 = (2%Z, 0%Z)
  /\ search_indices_curvilinear 1 3 0 2 2 1 square_lon64 square_lat64 [0]
       1 0 CURVILINEAR_Z_GRID origin 0 0 1 0 0 1 = None.
Proof. repeat split; vm_compute; reflexivity. Qed.

(** C5 fails on rectilinear grids: a query whose [x] is not a number,
    and a query on a cell of no width, succeed with an [xsi] that is not
    a number; the driver then returns SUCCESS and a value that is not a
    number. *)
Theorem rectilinear_accepts_nan :
  search_indices_rectilinear nan 0.5 0 3 3 1 [0; 1; 2] [0; 1; 2] [0] 0 0
    RECTILINEAR_Z_GRID origin 0 0 2 0 0 1
  = Some (SUCCESS, {| xi := 0; yi := 0; zi := 0;
                      xsi := nan; eta := 0.5; zeta := 0 |})
  /\ search_indices_rectilinear 0 0.5 0 3 3 1 [0; 0; 1] [0; 1; 2] [0] 0 0
       RECTILINEAR_Z_GRID origin 0 0 2 0 0 1
     = Some (SUCCESS, {| xi := 0; yi := 0; zi := 0;
                         xsi := nan; eta := 0.5; zeta := 0 |})
  /\ temporal_interpolation 1 nan 0.5 0 0 ramp cursors0 0
     = Some (SUCCESS, (cursors0, Some nan)).
Proof. repeat split; vm_compute; reflexivity. Qed.

End FloatRuns.


(** ** The theorems at work on the examples *)

Section Witnesses.
Local Open Scope float_scope.

Lemma driver_two_branches_witness :
  temporal_interpolation_structured_grid 1 0.5 0.5 0 2.5 ramp
    RECTILINEAR_Z_GRID cursors0 0
  = Some (SUCCESS, (cursors0, Some 4)).
Proof.
  refine (proj1 (driver_two_branches float ieee 1 0.5 0.5 0 2.5 ramp RECTILINEAR_Z_GRID
                   cursors0 0 0%Z SUCCESS 2.5 0%Z cursors0 0 origin
                   _ _ _ _ _ _) _ _
            10 {| xi := 0; yi := 0; zi := 0;
                  xsi := 0.5; eta := 0.5; zeta := 0 |}
            cursors0 SUCCESS 1.5 SUCCESS 11.5 _ _ _ _ _);
    try reflexivity; vm_compute; try reflexivity; lia.
Defined.

Lemma rotation_outputs_and_errors_witness :
  temporal_interpolationUVrotation 1 0.5 0.5 0 0 ramp (constant 2)
    (constant 1) (constant 0) (constant 1) (constant 0.5) cursors0 7 9 0
  = Some (SUCCESS, (cursors0, (0.5, 2)))
  /\ temporal_interpolationUVrotation 1 5 0.5 0 0 ramp (constant 2)
       (constant 1) (constant 0) (constant 1) (constant 0.5) cursors0 7 9 0
     = Some (ERROR_OUT_OF_BOUNDS, (cursors0, (7, 9)))
  /\ temporal_interpolationUVrotation 1 0.5 0.5 0 2.5 ramp brief
       (constant 1) (constant 0) (constant 1) (constant 0.5) cursors0 7 9 0
     = Some (ERROR_TIME_EXTRAPOLATION, (cursors0, (7, 9)))
  /\ (7 = 7 /\ 9 = 9 /\
      exists f cin w,
        In f [ramp; constant 2; constant 1; constant 0; constant 1;
              constant 0.5] /\
        temporal_interpolation 1 5 0.5 0 0 f cin 0
        = Some (ERROR_OUT_OF_BOUNDS, (cursors0, w))).
Proof.
  split; [|split; [|split]].
  - pose proof (rotation_outputs_and_errors 1 0.5 0.5 0 0 ramp (constant 2)
                  (constant 1) (constant 0) (constant 1) (constant 0.5)
                  cursors0 7 9 0) as H.
    cbv zeta in H. destruct H as [Ok _].
    refine (Ok cursors0 cursors0 cursors0 cursors0 cursors0 cursors0
              1.5 2 1 0 1 0.5 _ _ _ _ _ _); vm_compute; reflexivity.
  - pose proof (rotation_outputs_and_errors 1 5 0.5 0 0 ramp (constant 2)
                  (constant 1) (constant 0) (constant 1) (constant 0.5)
                  cursors0 7 9 0) as H.
    cbv zeta in H. destruct H as (_ & Fail & _).
    refine (proj1 (Fail ERROR_OUT_OF_BOUNDS cursors0 None _) _);
      [discriminate | vm_compute; reflexivity].
  - pose proof (rotation_outputs_and_errors 1 0.5 0.5 0 2.5 ramp brief
                  (constant 1) (constant 0) (constant 1) (constant 0.5)
                  cursors0 7 9 0) as H.
    cbv zeta in H. destruct H as (_ & Fail & _).
    refine (proj1 (proj2 (Fail ERROR_TIME_EXTRAPOLATION cursors0 None _)
                     cursors0 4 _) _);
      [discriminate | vm_compute; reflexivity | vm_compute; reflexivity].
  - pose proof (rotation_outputs_and_errors 1 5 0.5 0 0 ramp (constant 2)
                  (constant 1) (constant 0) (constant 1) (constant 0.5)
                  cursors0 7 9 0) as H.
    cbv zeta in H. destruct H as (_ & _ & Code).
    refine (Code ERROR_OUT_OF_BOUNDS cursors0 7 9 _ _);
      [vm_compute; reflexivity | discriminate].
Defined.

Lemma sphere_rejects_outside_witness :
  search_indices_rectilinear 20 0 0 2 2 1 [-10; 10] [-1; 1] [0] 1 0
    RECTILINEAR_Z_GRID origin 0 0 1 0 0 1
  = Some (ERROR_OUT_OF_BOUNDS, origin)
  /\ search_indices_rectilinear 180 0 0 2 2 1 [350; 10] [-1; 1] [0] 1 0
       RECTILINEAR_Z_GRID origin 0 0 1 0 0 1
     = Some (ERROR_OUT_OF_BOUNDS, origin)
  /\ (exists c',
        search_indices_rectilinear (Exact.from_int 380) (Exact.from_int 0)
          (Exact.from_int 0) 2 2 1 dateline band surface 1 0
          RECTILINEAR_Z_GRID origin 0 0 1 (Exact.from_int 0)
          (Exact.from_int 0) (Exact.from_int 1)
        = Some (ERROR_OUT_OF_BOUNDS, c'))
  /\ (exists c',
        search_indices_rectilinear (Exact.from_int (-340)) (Exact.from_int 0)
          (Exact.from_int 0) 2 2 1 dateline band surface 1 0
          RECTILINEAR_Z_GRID origin 0 0 1 (Exact.from_int 0)
          (Exact.from_int 0) (Exact.from_int 1)
        = Some (ERROR_OUT_OF_BOUNDS, c'))
  /\ search_indices_rectilinear 380 0 0 2 2 1 [350; 10] [-1; 1] [0] 1 0
       RECTILINEAR_Z_GRID origin 0 0 1 0 0 1
     = Some (ERROR_OUT_OF_BOUNDS, origin)
  /\ search_indices_rectilinear (-340) 0 0 2 2 1 [350; 10] [-1; 1] [0] 1 0
       RECTILINEAR_Z_GRID origin 0 0 1 0 0 1
     = Some (ERROR_OUT_OF_BOUNDS, origin).
Proof.
  destruct sphere_rejects_outside as [First Search].
  split; [|split; [|split; [|split; [|split]]]];
    [| | | | vm_compute; reflexivity | vm_compute; reflexivity].
  - refine (proj1 (First float ieee 20 0 0 2%Z 2%Z 1%Z [-10; 10] [-1; 1] [0]
                     1%Z RECTILINEAR_Z_GRID origin 0%Z 0%Z 1%Z 0 0 1 (-10) 10
                     _ _ _) _ _);
      try reflexivity; try lia. right. reflexivity.
  - refine (proj2 (First float ieee 180 0 0 2%Z 2%Z 1%Z [350; 10] [-1; 1] [0]
                     1%Z RECTILINEAR_Z_GRID origin 0%Z 0%Z 1%Z 0 0 1 350 10
                     _ _ _) _ _ _ _);
      try reflexivity; lia.
  - refine (Search _ _ _ 2%Z 2%Z 1%Z dateline band surface 1%Z
              RECTILINEAR_Z_GRID origin 0%Z 0%Z 1%Z _ _ _
              (Exact.from_int 350) (Exact.from_int 10) 1%nat
              (Exact.from_int 20) 1%Z _ _ _ _ _ _ _ _ _ _);
      first [ reflexivity | lia | discriminate
            | vm_compute; first [ reflexivity | discriminate
                                | split; discriminate ] ].
  - refine (Search _ _ _ 2%Z 2%Z 1%Z dateline band surface 1%Z
              RECTILINEAR_Z_GRID origin 0%Z 0%Z 1%Z _ _ _
              (Exact.from_int 350) (Exact.from_int 10) 1%nat
              (Exact.from_int 20) (-1)%Z _ _ _ _ _ _ _ _ _ _);
      first [ reflexivity | lia | discriminate
            | vm_compute; first [ reflexivity | discriminate
                                | split; discriminate ] ].
Defined.

End Witnesses.


(** Hypotheses at a concrete input are settled by evaluation. *)
Ltac run :=
  first [ reflexivity | lia
        | vm_compute; first [ reflexivity | discriminate
                            | split; discriminate ] ].

Section ExactWitnesses.
Local Open Scope Qc_scope.

Lemma vertical_z_contract_witness :
  search_indices_vertical_z t13 3 axis012 0 0
  = Some (ERROR_OUT_OF_BOUNDS, (0%Z, 0))
  \/
  exists zi' lo hi,
    search_indices_vertical_z t13 3 axis012 0 0
    = Some (SUCCESS, (zi', (t13 - lo) / (hi - lo)))
    /\ (0 <= zi' <= 3 - 2)%Z
    /\ axis012.[zi'] = Some lo /\ axis012.[zi' + 1] = Some hi
    /\ lo <= t13 /\ t13 <= hi
    /\ (t13 = Exact.from_int 0 -> (t13 - lo) / (hi - lo) = 0)
    /\ (t13 = Exact.from_int 2 -> (t13 - lo) / (hi - lo) = 1).
Proof.
  right.
  refine (proj2 (vertical_z_contract t13 3 axis012 0 0 (Exact.from_int 0)
                   (Exact.from_int 2) _ _ _ _ _) _);
    try run.
Defined.

Lemma time_index_greatest_witness :
  exists ti',
    greatest_index axis012
      (if (1 =? 1)%Z && ltb (Exact.from_int 2) (t13 + Exact.from_int 4)
       then reduced (Exact.from_int 0) (Exact.from_int 2)
              (t13 + Exact.from_int 4)
       else t13 + Exact.from_int 4) ti' /\
    forall ti, (ti <= 3 - 1)%Z ->
      search_time_index 1 (t13 + Exact.from_int 4) 3 axis012 ti 1
      = Some (SUCCESS,
              (if (1 =? 1)%Z && ltb (Exact.from_int 2) (t13 + Exact.from_int 4)
               then reduced (Exact.from_int 0) (Exact.from_int 2)
                      (t13 + Exact.from_int 4)
               else t13 + Exact.from_int 4, ti')).
Proof.
  refine (time_index_greatest 0 (t13 + Exact.from_int 4) 3 axis012 1
            (Exact.from_int 0) (Exact.from_int 2) _ _ _ _ _ _);
    try run.
  intros _ _. split; run.
Defined.

Lemma time_locator_never_fails_witness :
  (exists ti',
      search_time_index 0 (Exact.from_int 7) 3 axis012 1 0
      = Some (SUCCESS, (Exact.from_int 7, ti')) /\ (0 <= ti' <= 3 - 1)%Z)
  /\ search_time_index 0 (Exact.from_int (-7)) 3 axis012 1 0
     = Some (SUCCESS, (Exact.from_int (-7), 0%Z))
  /\ search_time_index 0 (Exact.from_int 7) 3 axis012 1 0
     = Some (SUCCESS, (Exact.from_int 7, (3 - 1)%Z))
  /\ exists r,
      search_time_index 1 (Exact.from_int 7) 3 axis012 1 1 = Some (SUCCESS, r).
Proof.
  destruct time_locator_never_fails as (_ & Total & Ends & _).
  split; [|split; [|split]].
  - apply (Total Qc exact); simpl; lia.
  - refine (proj1 (proj1 (Ends 0%nat (Exact.from_int (-7)) 3%Z axis012 1%Z 0%Z
                            (Exact.from_int 0) (Exact.from_int 2) _ _ _ _ _)
                     _) _);
      run.
  - refine (proj2 (proj1 (Ends 0%nat (Exact.from_int 7) 3%Z axis012 1%Z 0%Z
                            (Exact.from_int 0) (Exact.from_int 2) _ _ _ _ _)
                     _) _);
      run.
  - refine (proj2 (Ends 0%nat (Exact.from_int 7) 3%Z axis012 1%Z 1%Z
                     (Exact.from_int 0) (Exact.from_int 2) _ _ _ _ _)
              _ _ _);
      run.
Defined.

Lemma time_extrapolation_iff_witness :
  (exists r, temporal_interpolation 1 0.5%float 0.5%float 0%float 11%float
               ramp cursors0 0
             = Some (ERROR_TIME_EXTRAPOLATION, r))
  /\ (temporal_interpolation 1 0 0 0 (Exact.from_int 2) ticks cursors0 0
      = one_sample 0 0 0 ticks RECTILINEAR_Z_GRID
          {| c_xi := [0%Z]; c_yi := [0%Z]; c_zi := [0%Z]; c_ti := [2%Z] |}
          (3 - 1) 0
      /\ forall r, temporal_interpolation 1 0 0 0 (Exact.from_int 2) ticks
                     cursors0 0
                   <> Some (ERROR_TIME_EXTRAPOLATION, r)).
Proof.
  destruct time_extrapolation_iff as [Iff Last]. split.
  - refine (proj2 (Iff float ieee 1%nat 0.5%float 0.5%float 0%float 11%float
                     ramp RECTILINEAR_Z_GRID cursors0 0%Z 0%float 10%float
                     _ _ _) _);
      try reflexivity.
    split; [reflexivity|]. split; [reflexivity|]. right. reflexivity.
  - refine (Last 1%nat 0 0 0 ticks RECTILINEAR_Z_GRID cursors0 0%Z 0%Z _
              (Exact.from_int 2) _ _ _ _ _ _ _ _);
      try reflexivity; simpl; lia.
Defined.


End ExactWitnesses.

(** * Further properties of the header *)

(** ** The index fixes *)

Section IndexFixes.

(** X1: on an axis of two values or more, [fix_1d_index] leaves an index
    of [[0, xdim-2]]: an index in that range as it is, an index below 0
    at 0 on a flat mesh and at [xdim-2] on a sphere, an index above
    [xdim-2] at [xdim-2] on a flat mesh and at 0 on a sphere; a second
    call changes nothing. *)
Theorem fix_1d_index_contract :
  forall xi xdim sphere_mesh : Z,
    (2 <= xdim)%Z ->
    let r := fix_1d_index xi xdim sphere_mesh in
    (0 <= r <= xdim - 2)%Z
    /\ ((0 <= xi <= xdim - 2)%Z -> r = xi)
    /\ (sphere_mesh = 0%Z ->
        ((xi < 0)%Z -> r = 0%Z) /\ ((xi > xdim - 2)%Z -> r = (xdim - 2)%Z))
    /\ (sphere_mesh <> 0%Z ->
        ((xi < 0)%Z -> r = (xdim - 2)%Z) /\ ((xi > xdim - 2)%Z -> r = 0%Z))
    /\ fix_1d_index r xdim sphere_mesh = r.
Proof.
  intros xi xdim sm Hx r. subst r. unfold fix_1d_index.
  repeat (cbv beta iota zeta;
          match goal with
          | |- context [if (?a <? ?b)%Z then _ else _] =>
              destruct (a <? b)%Z eqn:?
          | |- context [if (?a =? ?b)%Z then _ else _] =>
              destruct (a =? b)%Z eqn:?
          | |- context [if (?a >? ?b)%Z then _ else _] =>
              destruct (a >? b)%Z eqn:?
          end);
    cbv beta iota zeta; repeat split; intros; lia.
Qed.

(** X2: on a grid of two values or more along each axis,
    [fix_2d_indices] leaves [yi] in [[0, ydim-2]] and a cursor of the
    valid domain as it is.  On a flat mesh, and on a sphere as long as
    [yi] is not above [ydim-2], [xi] is fixed as by [fix_1d_index].  On
    a sphere with [yi] above [ydim-2], [xi] becomes [xdim] less the fixed
    index: a value of [[2, xdim]], which is a column of cells only if the
    fixed index is 2 or more. *)
Theorem fix_2d_indices_contract :
  forall xi yi xdim ydim sphere_mesh : Z,
    (2 <= xdim)%Z -> (2 <= ydim)%Z ->
    let i := fst (fix_2d_indices xi yi xdim ydim sphere_mesh) in
    let j := snd (fix_2d_indices xi yi xdim ydim sphere_mesh) in
    let i1 := fix_1d_index xi xdim sphere_mesh in
    (0 <= j <= ydim - 2)%Z
    /\ ((0 <= xi <= xdim - 2)%Z -> (0 <= yi <= ydim - 2)%Z ->
        i = xi /\ j = yi)
    /\ ((yi <= ydim - 2)%Z \/ sphere_mesh = 0%Z ->
        i = i1 /\ (0 <= i <= xdim - 2)%Z)
    /\ ((yi > ydim - 2)%Z -> sphere_mesh <> 0%Z ->
        i = (xdim - i1)%Z /\ j = (ydim - 2)%Z /\ (2 <= i <= xdim)%Z
        /\ ((i <= xdim - 2)%Z <-> (2 <= i1)%Z)).
Proof.
  intros xi yi xdim ydim sm Hx Hy i j i1.
  assert (R : (0 <= i1 <= xdim - 2)%Z)
    by (subst i1; unfold fix_1d_index;
        destruct (xi <? 0)%Z eqn:?; destruct (sm =? 0)%Z eqn:?;
        cbv beta iota zeta;
        match goal with
        | |- context [if (?a >? ?b)%Z then _ else _] => destruct (a >? b)%Z eqn:?
        end; lia).
  assert (I : (0 <= xi <= xdim - 2)%Z -> i1 = xi)
    by (intros [I0 I1]; subst i1; unfold fix_1d_index;
        destruct (xi <? 0)%Z eqn:?; [lia|]; cbv beta iota zeta;
        destruct (xi >? xdim - 2)%Z eqn:?; [lia|]; reflexivity).
  assert (E : fix_2d_indices xi yi xdim ydim sm
              = (if ((if (yi <? 0)%Z then 0 else yi) >? ydim - 2)%Z
                 then (if (sm =? 0)%Z then i1 else xdim - i1, ydim - 2)
                 else (i1, if (yi <? 0)%Z then 0 else yi))%Z)
    by reflexivity.
  subst i j. rewrite E. clear E. clearbody i1.
  destruct (yi <? 0)%Z eqn:N; cbv beta iota;
    match goal with
    | |- context [if (?a >? ?b)%Z then _ else _] => destruct (a >? b)%Z eqn:G
    end;
    destruct (sm =? 0)%Z eqn:S; cbn [fst snd];
    repeat split; intros; lia.
Qed.

End IndexFixes.

(** ** The spatial kernels, on the exact arithmetic *)

Section Kernels.
Local Open Scope Qc_scope.

(** A value between two values of an interval stays in the interval. *)
Lemma lerp_range (a b s lo hi : Qc) :
  0 <= s -> s <= 1 -> lo <= a -> a <= hi -> lo <= b -> b <= hi ->
  lo <= (1 - s) * a + s * b /\ (1 - s) * a + s * b <= hi.
Proof.
  intros S0 S1 A0 A1 B0 B1. to_Q. split; nra.
Qed.

Lemma bilinear_lerp (d00 d01 d11 d10 xsi eta : Qc) :
  bilinear (d00, d01, d11, d10) xsi eta
  = (1 - eta) * ((1 - xsi) * d00 + xsi * d01)
    + eta * ((1 - xsi) * d10 + xsi * d11).
Proof. unfold bilinear. ring. Qed.

Lemma bilinear_range (d00 d01 d11 d10 xsi eta lo hi : Qc) :
  in_unit xsi -> in_unit eta ->
  lo <= d00 <= hi -> lo <= d01 <= hi -> lo <= d11 <= hi -> lo <= d10 <= hi ->
  lo <= bilinear (d00, d01, d11, d10) xsi eta <= hi.
Proof.
  intros [X0 X1] [E0 E1] [A0 A1] [B0 B1] [C0 C1] [D0 D1].
  rewrite bilinear_lerp.
  destruct (lerp_range d00 d01 xsi lo hi) as [P0 P1]; auto.
  destruct (lerp_range d10 d11 xsi lo hi) as [Q0 Q1]; auto.
  apply lerp_range; auto.
Qed.

(** The sum that the header writes out is the point of the four data at
    the coordinates. *)
Lemma bilinear_sum_exact (xsi eta : Qc) tab base xdim xi yi d00 d01 d11 d10 :
  tab.[base + yi * xdim + xi] = Some d00 ->
  tab.[base + yi * xdim + (xi + 1)] = Some d01 ->
  tab.[base + (yi + 1) * xdim + (xi + 1)] = Some d11 ->
  tab.[base + (yi + 1) * xdim + xi] = Some d10 ->
  bilinear_sum xsi eta tab base xdim xi yi
  = Some (bilinear (d00, d01, d11, d10) xsi eta).
Proof.
  intros H00 H01 H11 H10. unfold bilinear_sum.
  rewrite H00, H01, H11, H10. reflexivity.
Qed.

(** X3: [spatial_interpolation_bilinear] answers SUCCESS whenever the four
    data of the cell are in the array.  Without rounding its value is the
    datum of a corner at the coordinates of that corner, the common value
    of four equal data at any coordinates, and a value between the least
    and the greatest of the four data at coordinates of [[0, 1]]. *)
Theorem bilinear_kernel_contract :
  forall (xsi eta : Qc) xi yi xdim f_data base d00 d01 d11 d10,
    f_data.[base + yi * xdim + xi] = Some d00 ->
    f_data.[base + yi * xdim + (xi + 1)] = Some d01 ->
    f_data.[base + (yi + 1) * xdim + (xi + 1)] = Some d11 ->
    f_data.[base + (yi + 1) * xdim + xi] = Some d10 ->
    exists v,
      spatial_interpolation_bilinear xsi eta xi yi xdim f_data base
      = Some (SUCCESS, v)
      /\ (xsi = 0 -> eta = 0 -> v = d00)
      /\ (xsi = 1 -> eta = 0 -> v = d01)
      /\ (xsi = 1 -> eta = 1 -> v = d11)
      /\ (xsi = 0 -> eta = 1 -> v = d10)
      /\ (d01 = d00 -> d11 = d00 -> d10 = d00 -> v = d00)
      /\ (in_unit xsi -> in_unit eta ->
          forall lo hi,
            lo <= d00 <= hi -> lo <= d01 <= hi ->
            lo <= d11 <= hi -> lo <= d10 <= hi ->
            lo <= v <= hi).
Proof.
  intros xsi eta xi yi xdim f_data base d00 d01 d11 d10 H00 H01 H11 H10.
  exists (bilinear (d00, d01, d11, d10) xsi eta).
  split.
  { unfold spatial_interpolation_bilinear.
    rewrite (bilinear_sum_exact _ _ _ _ _ _ _ _ _ _ _ H00 H01 H11 H10).
    reflexivity. }
  do 4 (split; [intros -> ->; unfold bilinear; ring|]).
  split; [intros -> -> ->; unfold bilinear; ring|].
  intros. apply bilinear_range; auto.
Qed.

(** X4: [spatial_interpolation_trilinear] answers SUCCESS whenever the
    eight data of the cell are in the array.  Without rounding its value
    at [zeta = 0] is the one of [spatial_interpolation_bilinear] on the
    level [zi], at [zeta = 1] the one on the level [zi + 1], and at
    coordinates of [[0, 1]] a value between the least and the greatest
    of the eight data. *)
Theorem trilinear_kernel_contract :
  forall (xsi eta zeta : Qc) xi yi zi xdim ydim f_data base
         d000 d001 d011 d010 d100 d101 d111 d110,
    let lower := (base + zi * ydim * xdim)%Z in
    let upper := (base + (zi + 1) * ydim * xdim)%Z in
    f_data.[lower + yi * xdim + xi] = Some d000 ->
    f_data.[lower + yi * xdim + (xi + 1)] = Some d001 ->
    f_data.[lower + (yi + 1) * xdim + (xi + 1)] = Some d011 ->
    f_data.[lower + (yi + 1) * xdim + xi] = Some d010 ->
    f_data.[upper + yi * xdim + xi] = Some d100 ->
    f_data.[upper + yi * xdim + (xi + 1)] = Some d101 ->
    f_data.[upper + (yi + 1) * xdim + (xi + 1)] = Some d111 ->
    f_data.[upper + (yi + 1) * xdim + xi] = Some d110 ->
    exists v,
      spatial_interpolation_trilinear xsi eta zeta xi yi zi xdim ydim
        f_data base = Some (SUCCESS, v)
      /\ (zeta = 0 ->
          spatial_interpolation_bilinear xsi eta xi yi xdim f_data lower
          = Some (SUCCESS, v))
      /\ (zeta = 1 ->
          spatial_interpolation_bilinear xsi eta xi yi xdim f_data upper
          = Some (SUCCESS, v))
      /\ (in_unit xsi -> in_unit eta -> in_unit zeta ->
          forall lo hi,
            lo <= d000 <= hi -> lo <= d001 <= hi ->
            lo <= d011 <= hi -> lo <= d010 <= hi ->
            lo <= d100 <= hi -> lo <= d101 <= hi ->
            lo <= d111 <= hi -> lo <= d110 <= hi ->
            lo <= v <= hi).
Proof.
  intros xsi eta zeta xi yi zi xdim ydim f_data base
         d000 d001 d011 d010 d100 d101 d111 d110 lower upper
         L00 L01 L11 L10 U00 U01 U11 U10.
  pose proof (bilinear_sum_exact xsi eta _ _ _ _ _ _ _ _ _ L00 L01 L11 L10)
    as EL.
  pose proof (bilinear_sum_exact xsi eta _ _ _ _ _ _ _ _ _ U00 U01 U11 U10)
    as EU.
  set (f0 := bilinear (d000, d001, d011, d010) xsi eta) in *.
  set (f1 := bilinear (d100, d101, d111, d110) xsi eta) in *.
  exists ((1 - zeta) * f0 + zeta * f1).
  split.
  { unfold spatial_interpolation_trilinear. fold lower upper.
    rewrite EL, EU. reflexivity. }
  split; [|split].
  - intros ->. unfold spatial_interpolation_bilinear. rewrite EL.
    cbn [bind to_float exact]. f_equal. f_equal. ring.
  - intros ->. unfold spatial_interpolation_bilinear. rewrite EU.
    cbn [bind to_float exact]. f_equal. f_equal. ring.
  - intros Ux Ue [Z0 Z1] lo hi A B C D E F G H.
    destruct (bilinear_range d000 d001 d011 d010 xsi eta lo hi) as [P0 P1];
      auto.
    destruct (bilinear_range d100 d101 d111 d110 xsi eta lo hi) as [Q0 Q1];
      auto.
    apply lerp_range; auto.
Qed.

(** The nearest datum of a level is the nearest datum of the cube. *)
Lemma nearest3D_level {F : Type} {A : Arith F} (xsi eta zeta : F)
    xi yi zi xdim ydim f_data base :
  spatial_interpolation_nearest3D xsi eta zeta xi yi zi xdim ydim f_data base
  = spatial_interpolation_nearest2D xsi eta xi yi xdim f_data
      (base + (if ltb zeta half then zi else zi + 1) * ydim * xdim)%Z.
Proof.
  unfold spatial_interpolation_nearest3D, spatial_interpolation_nearest2D.
  f_equal. f_equal. ring.
Qed.

(** X5: [spatial_interpolation_nearest2D] answers SUCCESS with the datum
    of one corner of the cell: the column [xi] when [xsi < 1/2] and the
    column [xi + 1] otherwise, the row [yi] when [eta < 1/2] and the row
    [yi + 1] otherwise, so that the middle of an edge goes to the upper
    corner; at the coordinates of a corner the value is the one of
    [spatial_interpolation_bilinear].  [spatial_interpolation_nearest3D]
    is [spatial_interpolation_nearest2D] on the level [zi] when
    [zeta < 1/2] and on the level [zi + 1] otherwise, in any
    arithmetic. *)
Theorem nearest_kernel_contract :
  (forall (xsi eta : Qc) xi yi xdim f_data base d00 d01 d11 d10,
      f_data.[base + yi * xdim + xi] = Some d00 ->
      f_data.[base + yi * xdim + (xi + 1)] = Some d01 ->
      f_data.[base + (yi + 1) * xdim + (xi + 1)] = Some d11 ->
      f_data.[base + (yi + 1) * xdim + xi] = Some d10 ->
      exists (a b : Z) v,
        spatial_interpolation_nearest2D xsi eta xi yi xdim f_data base
        = Some (SUCCESS, v)
        /\ f_data.[base + (yi + b) * xdim + (xi + a)] = Some v
        /\ (a = 0%Z /\ xsi < Q2Qc (1 # 2) \/ a = 1%Z /\ Q2Qc (1 # 2) <= xsi)
        /\ (b = 0%Z /\ eta < Q2Qc (1 # 2) \/ b = 1%Z /\ Q2Qc (1 # 2) <= eta)
        /\ ((xsi = 0 \/ xsi = 1) -> (eta = 0 \/ eta = 1) ->
            spatial_interpolation_bilinear xsi eta xi yi xdim f_data base
            = Some (SUCCESS, v)))
  /\
  (forall (F : Type) (A : Arith F) (xsi eta zeta : F) xi yi zi xdim ydim
          f_data base,
      spatial_interpolation_nearest3D xsi eta zeta xi yi zi xdim ydim f_data
        base
      = spatial_interpolation_nearest2D xsi eta xi yi xdim f_data
          (base + (if ltb zeta half then zi else zi + 1) * ydim * xdim)%Z).
Proof.
  split; [|intros; apply nearest3D_level].
  intros xsi eta xi yi xdim f_data base d00 d01 d11 d10 H00 H01 H11 H10.
  assert (Hh : half = Q2Qc (1 # 2)) by (apply Qc_is_canon; reflexivity).
  unfold spatial_interpolation_nearest2D, spatial_interpolation_bilinear.
  rewrite (bilinear_sum_exact _ _ _ _ _ _ _ _ _ _ _ H00 H01 H11 H10).
  rewrite Hh. cbn [bind to_float exact].
  destruct (ltb xsi (Q2Qc (1 # 2))) eqn:X;
    [apply ltb_lt in X | apply ltb_ge in X];
    destruct (ltb eta (Q2Qc (1 # 2))) eqn:E;
    [apply ltb_lt in E | apply ltb_ge in E
    |apply ltb_lt in E | apply ltb_ge in E].
  - exists 0%Z, 0%Z, d00. rewrite !Z.add_0_r. rewrite H00.
    repeat split; auto.
    intros [-> | ->] [-> | ->]; try (exfalso; revert X E; to_Q; lra).
    cbn [bind]. f_equal. f_equal. unfold bilinear. ring.
  - exists 0%Z, 1%Z, d10. rewrite !Z.add_0_r. rewrite H10.
    repeat split; auto.
    intros [-> | ->] [-> | ->]; try (exfalso; revert X E; to_Q; lra).
    cbn [bind]. f_equal. f_equal. unfold bilinear. ring.
  - exists 1%Z, 0%Z, d01. rewrite !Z.add_0_r. rewrite H01.
    repeat split; auto.
    intros [-> | ->] [-> | ->]; try (exfalso; revert X E; to_Q; lra).
    cbn [bind]. f_equal. f_equal. unfold bilinear. ring.
  - exists 1%Z, 1%Z, d11. rewrite H11.
    repeat split; auto.
    intros [-> | ->] [-> | ->]; try (exfalso; revert X E; to_Q; lra).
    cbn [bind]. f_equal. f_equal. unfold bilinear. ring.
Qed.

End Kernels.

(** ** Error codes and outputs of the queries, in any arithmetic *)

Section Outputs.
Context {F : Type} {A : Arith F}.
Local Open Scope num_scope.

Lemma search_indices_no_error x y z xdim ydim zdim xvals yvals zvals
    (c : Cell F) sm zp gcode z4d ti tdim time t0 t1 e c' :
  search_indices x y z xdim ydim zdim xvals yvals zvals c sm zp gcode
    z4d ti tdim time t0 t1 = Some (e, c') ->
  e = SUCCESS \/ e = ERROR_OUT_OF_BOUNDS.
Proof.
  unfold search_indices.
  destruct gcode;
    unfold search_indices_rectilinear, search_indices_curvilinear;
    intros H; code_cases; auto.
Qed.

Lemma spatial_kernel_method m g (c : Cell F) f_data base :
  (InterpCode_of_int m = None ->
   spatial_kernel m g c f_data base = Some None)
  /\ (forall r, spatial_kernel m g c f_data base = Some r ->
        InterpCode_of_int m = None /\ r = None
        \/ InterpCode_of_int m <> None /\ exists v, r = Some (SUCCESS, v)).
Proof.
  unfold spatial_kernel,
    spatial_interpolation_bilinear, spatial_interpolation_trilinear,
    spatial_interpolation_nearest2D, spatial_interpolation_nearest3D.
  split.
  - intros ->. reflexivity.
  - intros r H. destruct (InterpCode_of_int m) as [[|]|].
    + right. split; [discriminate|]. code_cases; eauto.
    + right. split; [discriminate|]. code_cases; eauto.
    + left. inversion H. auto.
Qed.

(** What the two branches of the driver return. *)
Lemma two_samples_outcome x y z time (f : CField F) gcode cur ti m e cur' w :
  two_samples x y z time f gcode cur ti m = Some (e, (cur', w)) ->
  (e = SUCCESS /\ InterpCode_of_int m <> None /\ exists v, w = Some v)
  \/ (e = ERROR /\ InterpCode_of_int m = None /\ w = None)
  \/ (e = ERROR_OUT_OF_BOUNDS /\ w = None).
Proof.
  unfold two_samples. intros H.
  apply bind_Some in H. destruct H as (t0 & _ & H).
  apply bind_Some in H. destruct H as (t1 & _ & H).
  apply bind_Some in H. destruct H as (c0 & _ & H).
  apply bind_Some in H. destruct H as ([err c] & S & H).
  apply bind_Some in H. destruct H as (cur2 & _ & H).
  apply search_indices_no_error in S.
  destruct S as [-> | ->]; [|inversion H; auto].
  apply bind_Some in H. destruct H as (k0 & K0 & H).
  apply (proj2 (spatial_kernel_method _ _ _ _ _)) in K0.
  destruct K0 as [[M ->] | [M (v0 & ->)]]; [inversion H; auto|].
  apply bind_Some in H. destruct H as (k1 & K1 & H).
  apply (proj2 (spatial_kernel_method _ _ _ _ _)) in K1.
  destruct K1 as [[M1 ->] | [M1 (v1 & ->)]]; [contradiction|].
  inversion H. left. eauto.
Qed.

Lemma one_sample_outcome x y z (f : CField F) gcode cur ti m e cur' w :
  one_sample x y z f gcode cur ti m = Some (e, (cur', w)) ->
  (e = SUCCESS /\ InterpCode_of_int m <> None /\ exists v, w = Some v)
  \/ (e = ERROR /\ InterpCode_of_int m = None /\ w = None)
  \/ (e = ERROR_OUT_OF_BOUNDS /\ w = None).
Proof.
  unfold one_sample. intros H.
  apply bind_Some in H. destruct H as (t0 & _ & H).
  apply bind_Some in H. destruct H as (c0 & _ & H).
  apply bind_Some in H. destruct H as ([err c] & S & H).
  apply bind_Some in H. destruct H as (cur2 & _ & H).
  apply search_indices_no_error in S.
  destruct S as [-> | ->]; [|inversion H; auto].
  apply bind_Some in H. destruct H as (k0 & K0 & H).
  apply (proj2 (spatial_kernel_method _ _ _ _ _)) in K0.
  destruct K0 as [[M ->] | [M (v0 & ->)]]; [inversion H; auto|].
  inversion H. left. eauto.
Qed.

(** The outcome of one query: the code, and whether the value is
    written. *)
Lemma temporal_interpolation_outcome fuel x y z time (f : CField F) cur m
    e cur' w :
  temporal_interpolation fuel x y z time f cur m = Some (e, (cur', w)) ->
  (e = SUCCESS /\ GridCode_of_int (gtype (f_grid f)) <> None
   /\ InterpCode_of_int m <> None /\ exists v, w = Some v)
  \/ (e = ERROR /\ w = None
      /\ (GridCode_of_int (gtype (f_grid f)) = None /\ cur' = cur
          \/ InterpCode_of_int m = None))
  \/ (e = ERROR_OUT_OF_BOUNDS /\ w = None)
  \/ (e = ERROR_TIME_EXTRAPOLATION /\ w = None /\ cur' = cur
      /\ extrapolates time f = Some true).
Proof.
  unfold temporal_interpolation. intros H.
  destruct (GridCode_of_int (gtype (f_grid f))) as [gcode|] eqn:G.
  2:{ inversion H. right. left. auto. }
  unfold temporal_interpolation_structured_grid in H.
  apply bind_Some in H. destruct H as (refused & X & H).
  destruct refused.
  { inversion H. subst. right. right. right. auto. }
  apply bind_Some in H. destruct H as (ti0 & _ & H).
  apply bind_Some in H. destruct H as ([e0 [t ti]] & _ & H).
  apply bind_Some in H. destruct H as (cur1 & _ & H).
  apply bind_Some in H. destruct H as (two & _ & H).
  assert (O : (e = SUCCESS /\ InterpCode_of_int m <> None
               /\ exists v, w = Some v)
              \/ (e = ERROR /\ InterpCode_of_int m = None /\ w = None)
              \/ (e = ERROR_OUT_OF_BOUNDS /\ w = None)).
  { destruct two;
      [eapply two_samples_outcome | eapply one_sample_outcome]; eauto. }
  destruct O as [(-> & M & W) | [(-> & M & ->) | (-> & ->)]].
  - left. repeat split; auto. discriminate.
  - right. left. auto.
  - right. right. left. auto.
Qed.

(** X6: the codes of the queries.  [search_indices], called with one of
    the four grid codes, answers SUCCESS or ERROR_OUT_OF_BOUNDS, never
    ERROR; [temporal_interpolation] answers
    ERROR only for a grid type that is none of the four or for an
    interpolation method that is neither LINEAR nor NEAREST, and it does
    answer ERROR, before any read, for such a grid type; no query, the
    two-field and the rotated one included, answers REPEAT or DELETE. *)
Theorem query_error_codes :
  (forall x y z xdim ydim zdim xvals yvals zvals (c : Cell F) sm zp gcode
          z4d ti tdim time t0 t1 e c',
      search_indices x y z xdim ydim zdim xvals yvals zvals c sm zp gcode
        z4d ti tdim time t0 t1 = Some (e, c') ->
      e = SUCCESS \/ e = ERROR_OUT_OF_BOUNDS)
  /\
  (forall fuel x y z time (f : CField F) cur m r,
      temporal_interpolation fuel x y z time f cur m = Some (ERROR, r) ->
      GridCode_of_int (gtype (f_grid f)) = None
      \/ InterpCode_of_int m = None)
  /\
  (forall fuel x y z time (f : CField F) cur m,
      GridCode_of_int (gtype (f_grid f)) = None ->
      temporal_interpolation fuel x y z time f cur m
      = Some (ERROR, (cur, None)))
  /\
  (forall fuel x y z time (f : CField F) cur m e r,
      temporal_interpolation fuel x y z time f cur m = Some (e, r) ->
      e <> REPEAT /\ e <> DELETE)
  /\
  (forall fuel x y z time (U V : CField F) cur m vU vV e r,
      temporal_interpolationUV fuel x y z time U V cur vU vV m
      = Some (e, r) ->
      e <> REPEAT /\ e <> DELETE)
  /\
  (forall fuel x y z time (U V cosU sinU cosV sinV : CField F) cur m
          vU vV e r,
      temporal_interpolationUVrotation fuel x y z time U V cosU sinU cosV
        sinV cur vU vV m = Some (e, r) ->
      e <> REPEAT /\ e <> DELETE).
Proof.
  split; [intros; eapply search_indices_no_error; eauto|].
  split.
  { intros fuel x y z time f cur m [cur' w] H.
    apply temporal_interpolation_outcome in H.
    destruct H as [(E & _) | [(_ & _ & [[G _] | M]) | [(E & _) | (E & _)]]];
      try discriminate; auto. }
  split.
  { intros fuel x y z time f cur m G. unfold temporal_interpolation.
    rewrite G. reflexivity. }
  assert (Q : forall fuel x y z time (f : CField F) cur m e r,
             temporal_interpolation fuel x y z time f cur m = Some (e, r) ->
             e <> REPEAT /\ e <> DELETE).
  { intros fuel x y z time f cur m e [cur' w] H.
    apply temporal_interpolation_outcome in H.
    destruct H as [(-> & _) | [(-> & _) | [(-> & _) | (-> & _)]]];
      split; discriminate. }
  split; [exact Q|]. split.
  - intros fuel x y z time U V cur m vU vV e r H.
    unfold temporal_interpolationUV in H.
    apply bind_Some in H. destruct H as ([e1 [cur1 w1]] & H1 & H).
    destruct (ErrorCode_eq_dec e1 SUCCESS) as [-> | N].
    + apply bind_Some in H. destruct H as ([e2 [cur2 w2]] & H2 & H).
      assert (e = e2) by (destruct e2; inversion H; reflexivity).
      subst e2. eapply Q; eauto.
    + assert (e = e1) by (destruct e1; inversion H; congruence).
      subst e1. eapply Q; eauto.
  - intros fuel x y z time U V cosU sinU cosV sinV cur m vU vV e r H.
    unfold temporal_interpolationUVrotation in H.
    do 6 (apply sample_inv in H;
          let E1 := fresh "E" in
          destruct H as [(? & ? & ? & ? & ? & E1) | (? & ? & ? & H)];
          [inversion E1; subst; eapply Q; eauto|]).
    inversion H. split; discriminate.
Qed.

End Outputs.

(** ** Cursors and values that a query leaves, in any arithmetic *)

Section CursorSlots.

Lemma set_nth_other {X : Type} (a a' : list X) n v k :
  set_nth a n v = Some a' -> k <> n -> nth_error a' k = nth_error a k.
Proof.
  revert a' n k. induction a as [|h r IH]; intros a' n k H N; [discriminate|].
  destruct n as [|n]; simpl in H.
  - inversion H. destruct k; [congruence | reflexivity].
  - apply bind_Some in H. destruct H as (r' & E & H). inversion H.
    destruct k; [reflexivity|]. simpl. eapply IH; eauto.
Qed.

Lemma set_nth_length {X : Type} (a a' : list X) n v :
  set_nth a n v = Some a' -> length a' = length a.
Proof.
  revert a' n. induction a as [|h r IH]; intros a' n H; [discriminate|].
  destruct n as [|n]; simpl in H.
  - inversion H. reflexivity.
  - apply bind_Some in H. destruct H as (r' & E & H). inversion H.
    simpl. f_equal. eauto.
Qed.

Lemma wr_other {X : Type} (a a' : list X) i v j :
  wr a i v = Some a' -> j <> i -> a'.[j] = a.[j].
Proof.
  unfold wr, rd. destruct (i <? 0)%Z eqn:N; [discriminate|]. intros H D.
  destruct (j <? 0)%Z eqn:M; [reflexivity|].
  eapply set_nth_other; eauto. lia.
Qed.

Lemma wr_length {X : Type} (a a' : list X) i v :
  wr a i v = Some a' -> length a' = length a.
Proof.
  unfold wr. destruct (i <? 0)%Z; [discriminate|]. apply set_nth_length.
Qed.

(** Two cursors that differ in the slot [ig] at most. *)
Lemma set_ti_slot cur ig v cur' :
  set_ti cur ig v = Some cur' ->
  (c_ti cur').[ig] = Some v
  /\ c_xi cur' = c_xi cur /\ c_yi cur' = c_yi cur /\ c_zi cur' = c_zi cur
  /\ length (c_ti cur') = length (c_ti cur)
  /\ forall j, j <> ig -> (c_ti cur').[j] = (c_ti cur).[j].
Proof.
  unfold set_ti. intros H.
  apply bind_Some in H. destruct H as (a & E & H). inversion H. simpl.
  split; [eapply wr_read; eauto|]. do 3 (split; [reflexivity|]).
  split; [eapply wr_length; eauto|]. intros j D. eapply wr_other; eauto.
Qed.

Lemma set_cell_slot {F : Type} cur ig (c : Cell F) cur' :
  set_cell cur ig c = Some cur' ->
  c_ti cur' = c_ti cur
  /\ length (c_xi cur') = length (c_xi cur)
  /\ length (c_yi cur') = length (c_yi cur)
  /\ length (c_zi cur') = length (c_zi cur)
  /\ forall j, j <> ig ->
       (c_xi cur').[j] = (c_xi cur).[j] /\ (c_yi cur').[j] = (c_yi cur).[j]
       /\ (c_zi cur').[j] = (c_zi cur).[j].
Proof.
  unfold set_cell. intros H.
  apply bind_Some in H. destruct H as (ax & Ex & H).
  apply bind_Some in H. destruct H as (ay & Ey & H).
  apply bind_Some in H. destruct H as (az & Ez & H).
  inversion H. simpl. split; [reflexivity|].
  do 3 (split; [eapply wr_length; eauto|]).
  intros j D. repeat split; eapply wr_other; eauto.
Qed.

End CursorSlots.

Section QueryOutputs.
Context {F : Type} {A : Arith F}.
Local Open Scope num_scope.

(** The cursors after a query that went past the test on the time. *)
Lemma driver_cursors fuel x y z time (f : CField F) gcode cur m e cur' w :
  temporal_interpolation_structured_grid fuel x y z time f gcode cur m
  = Some (e, (cur', w)) ->
  e <> ERROR_TIME_EXTRAPOLATION ->
  exists ti0 t ti cur1 (c : Cell F),
    (c_ti cur).[igrid f] = Some ti0
    /\ search_time_index fuel time (g_tdim (grid (f_grid f)))
         (g_time (grid (f_grid f))) ti0 (time_periodic f)
       = Some (SUCCESS, (t, ti))
    /\ set_ti cur (igrid f) ti = Some cur1
    /\ set_cell cur1 (igrid f) c = Some cur'.
Proof.
  unfold temporal_interpolation_structured_grid. intros H N.
  apply bind_Some in H. destruct H as (refused & X & H).
  destruct refused; [inversion H; congruence|].
  apply bind_Some in H. destruct H as (ti0 & T0 & H).
  apply bind_Some in H. destruct H as ([e0 [t ti]] & S & H).
  assert (e0 = SUCCESS) by (eapply search_time_index_code; eauto). subst e0.
  apply bind_Some in H. destruct H as (cur1 & W & H).
  apply bind_Some in H. destruct H as (two & _ & H).
  exists ti0, t, ti, cur1.
  destruct two; [unfold two_samples in H | unfold one_sample in H].
  - apply bind_Some in H. destruct H as (ta & _ & H).
    apply bind_Some in H. destruct H as (tb & _ & H).
    apply bind_Some in H. destruct H as (c0 & _ & H).
    apply bind_Some in H. destruct H as ([err c] & _ & H).
    apply bind_Some in H. destruct H as (cur2 & W2 & H).
    exists c. assert (cur' = cur2) by (code_cases; reflexivity).
    subst. auto.
  - apply bind_Some in H. destruct H as (ta & _ & H).
    apply bind_Some in H. destruct H as (c0 & _ & H).
    apply bind_Some in H. destruct H as ([err c] & _ & H).
    apply bind_Some in H. destruct H as (cur2 & W2 & H).
    exists c. assert (cur' = cur2) by (code_cases; reflexivity).
    subst. auto.
Qed.

(** X7: [temporal_interpolation] writes the value exactly when it
    answers SUCCESS.  It leaves the cursors as they are when it answers
    ERROR_TIME_EXTRAPOLATION; with any other code the slot of the field's
    grid in [ti] holds the index that [search_time_index] left, also when
    the search in space failed afterwards.  In every case the slots of
    the other grids, and the sizes of the four cursor arrays, are
    unchanged. *)
Theorem query_outputs :
  forall fuel x y z time (f : CField F) cur m e cur' w,
    temporal_interpolation fuel x y z time f cur m = Some (e, (cur', w)) ->
    (e = SUCCESS <-> exists v, w = Some v)
    /\ (e = ERROR_TIME_EXTRAPOLATION -> cur' = cur)
    /\ (e <> ERROR_TIME_EXTRAPOLATION ->
        GridCode_of_int (gtype (f_grid f)) <> None ->
        exists ti0 t ti,
          (c_ti cur).[igrid f] = Some ti0
          /\ search_time_index fuel time (g_tdim (grid (f_grid f)))
               (g_time (grid (f_grid f))) ti0 (time_periodic f)
             = Some (SUCCESS, (t, ti))
          /\ (c_ti cur').[igrid f] = Some ti)
    /\ (forall j, j <> igrid f ->
          (c_xi cur').[j] = (c_xi cur).[j] /\ (c_yi cur').[j] = (c_yi cur).[j]
          /\ (c_zi cur').[j] = (c_zi cur).[j]
          /\ (c_ti cur').[j] = (c_ti cur).[j])
    /\ length (c_xi cur') = length (c_xi cur)
    /\ length (c_yi cur') = length (c_yi cur)
    /\ length (c_zi cur') = length (c_zi cur)
    /\ length (c_ti cur') = length (c_ti cur).
Proof.
  intros fuel x y z time f cur m e cur' w H.
  pose proof (temporal_interpolation_outcome _ _ _ _ _ _ _ _ _ _ _ H) as O.
  split.
  { destruct O as [(-> & _ & _ & W) | [(-> & -> & _) | [(-> & ->) | (-> & -> & _)]]];
      split; auto; try discriminate; intros [v E]; discriminate. }
  split.
  { intros ->.
    destruct O as [(E & _) | [(E & _) | [(E & _) | (_ & _ & C & _)]]];
      try discriminate; exact C. }
  unfold temporal_interpolation in H.
  destruct (GridCode_of_int (gtype (f_grid f))) as [gcode|] eqn:G.
  2:{ inversion H. subst. split; [intros _ N; congruence|]. auto 10. }
  destruct (ErrorCode_eq_dec e ERROR_TIME_EXTRAPOLATION) as [-> | N].
  { destruct O as [(E & _) | [(E & _) | [(E & _) | (_ & _ & -> & _)]]];
      try discriminate.
    split; [intros N; congruence|]. auto 10. }
  destruct (driver_cursors _ _ _ _ _ _ _ _ _ _ _ _ H N)
    as (ti0 & t & ti & cur1 & c & T0 & S & W1 & W2).
  apply set_ti_slot in W1. destruct W1 as (R1 & X1 & Y1 & Z1 & L1 & O1).
  apply set_cell_slot in W2. destruct W2 as (T2 & LX & LY & LZ & O2).
  split.
  { intros _ _. exists ti0, t, ti. rewrite T2. auto. }
  split.
  { intros j D. destruct (O2 j D) as (A1 & A2 & A3).
    rewrite A1, A2, A3, X1, Y1, Z1, T2. auto. }
  rewrite LX, LY, LZ, X1, Y1, Z1, T2, L1. auto.
Qed.

(** X8: [temporal_interpolationUV] queries U, then V from the cursors
    that the query of U left.  When both succeed the two outputs hold
    the two values.  When the query of U fails its code is returned and
    both outputs are left as they are; when the query of V fails its code
    is returned, [valueV] is left as it is and [valueU] already holds
    the value of U. *)
Theorem two_field_query :
  forall fuel x y z time (U V : CField F) cur vU vV m e cur' vU' vV',
    temporal_interpolationUV fuel x y z time U V cur vU vV m
    = Some (e, (cur', (vU', vV'))) ->
    (e = SUCCESS ->
     exists cur1,
       temporal_interpolation fuel x y z time U cur m
       = Some (SUCCESS, (cur1, Some vU'))
       /\ temporal_interpolation fuel x y z time V cur1 m
          = Some (SUCCESS, (cur', Some vV')))
    /\ (e <> SUCCESS ->
        vV' = vV
        /\ ((temporal_interpolation fuel x y z time U cur m
             = Some (e, (cur', None)) /\ vU' = vU)
            \/ exists cur1,
                temporal_interpolation fuel x y z time U cur m
                = Some (SUCCESS, (cur1, Some vU'))
                /\ temporal_interpolation fuel x y z time V cur1 m
                   = Some (e, (cur', None)))).
Proof.
  intros fuel x y z time U V cur vU vV m e cur' vU' vV' H.
  unfold temporal_interpolationUV in H.
  apply bind_Some in H. destruct H as ([e1 [cur1 w1]] & H1 & H).
  pose proof (temporal_interpolation_outcome _ _ _ _ _ _ _ _ _ _ _ H1) as O1.
  assert (W1 : (e1 = SUCCESS /\ exists v, w1 = Some v)
               \/ (e1 <> SUCCESS /\ w1 = None)).
  { destruct O1 as [(-> & _ & _ & W) | [(-> & -> & _) | [(-> & ->) | (-> & -> & _)]]];
      [left; auto | right | right | right]; split; auto; discriminate. }
  destruct W1 as [(-> & u & ->) | (N1 & ->)].
  - apply bind_Some in H. destruct H as ([e2 [cur2 w2]] & H2 & H).
    pose proof (temporal_interpolation_outcome _ _ _ _ _ _ _ _ _ _ _ H2)
      as O2.
    assert (W2 : (e2 = SUCCESS /\ exists v, w2 = Some v)
                 \/ (e2 <> SUCCESS /\ w2 = None)).
    { destruct O2 as [(-> & _ & _ & W) | [(-> & -> & _) | [(-> & ->) | (-> & -> & _)]]];
        [left; auto | right | right | right]; split; auto; discriminate. }
    destruct W2 as [(-> & v & ->) | (N2 & ->)].
    + inversion H; subst. cbn [written]. split; [|congruence].
      intros _. eauto.
    + assert (E : e = e2 /\ cur' = cur2 /\ vU' = u /\ vV' = vV).
      { destruct e2; inversion H; subst; cbn [written]; auto; congruence. }
      destruct E as (-> & -> & -> & ->).
      split; [intros E; congruence|]. intros _. split; [reflexivity|].
      right. eauto.
  - assert (E : e = e1 /\ cur' = cur1 /\ vU' = vU /\ vV' = vV).
    { destruct e1; inversion H; subst; cbn [written]; auto; congruence. }
    destruct E as (-> & -> & -> & ->).
    split; [intros E; congruence|]. intros _. split; [reflexivity|].
    left. auto.
Qed.

End QueryOutputs.

(** ** The rectilinear search on a flat mesh, on the exact arithmetic *)

Section FlatMesh.
Local Open Scope Qc_scope.

(** On a strictly increasing axis the walk of a value of the axis ends,
    from any hint, on an interval that holds it. *)
Lemma axis_walk (v : Qc) dim vals i v0 vl :
  Z.of_nat (length vals) = dim -> increasing vals = true ->
  vals.[0] = Some v0 -> vals.[dim - 1] = Some vl ->
  v0 <= v -> v <= vl -> (0 <= i <= dim - 2)%Z ->
  exists i' lo hi,
    walk gt v dim vals i = Some i' /\ (0 <= i' <= dim - 2)%Z /\
    vals.[i'] = Some lo /\ vals.[i' + 1] = Some hi /\
    lo <= v /\ v <= hi /\ lo < hi.
Proof.
  intros Hlen Hinc H0 Hl Hge Hle Hi.
  destruct (walk_spec gt v dim vals i) as (i1 & i2 & R & _); try lia.
  destruct (walk_in_range v dim vals i i2 v0 vl H0 Hl Hge Hle Hi R)
    as (Hi2 & lo & hi & Hlo & Hhi & B1 & B2).
  exists i2, lo, hi. repeat split; auto; try lia.
  apply (increasing_lt vals i2 (i2 + 1)); auto. lia.
Qed.

Lemma fraction_in_unit (lo v hi : Qc) :
  lo <= v -> v <= hi -> lo < hi ->
  0 <= (v - lo) / (hi - lo) /\ (v - lo) / (hi - lo) <= 1.
Proof.
  intros H1 H2 H3. to_Q.
  assert (E : ((v + - lo) * / (hi + - lo) * (hi + - lo) == v + - lo)%Q)
    by (field; lra).
  revert E. generalize ((v + - lo) * / (hi + - lo))%Q. intros q E.
  split; nra.
Qed.

Lemma fraction_tests (lo v hi : Qc) :
  lo <= v -> v <= hi -> lo < hi ->
  ltb (divf (subf v lo) (subf hi lo)) (of_int 0)
  || ltb (of_int 1) (divf (subf v lo) (subf hi lo)) = false.
Proof.
  intros H1 H2 H3. destruct (fraction_in_unit lo v hi H1 H2 H3) as [U0 U1].
  apply orb_false_iff. split; apply ltb_ge; assumption.
Qed.

Lemma zero_tests : ltb (of_int 0 : Qc) (of_int 0) || ltb (of_int 1) (of_int 0 : Qc) = false.
Proof. reflexivity. Qed.

(** A level of a strictly increasing column is found from any hint. *)
Lemma vertical_z_inside (z : Qc) zdim zvals zi zeta0 z0 zl :
  Z.of_nat (length zvals) = zdim -> increasing zvals = true ->
  zvals.[0] = Some z0 -> zvals.[zdim - 1] = Some zl ->
  z0 <= z -> z <= zl -> (0 <= zi <= zdim - 2)%Z ->
  exists zi' lo hi,
    search_indices_vertical_z z zdim zvals zi zeta0
    = Some (SUCCESS, (zi', divf (subf z lo) (subf hi lo)))
    /\ (0 <= zi' <= zdim - 2)%Z
    /\ zvals.[zi'] = Some lo /\ zvals.[zi' + 1] = Some hi
    /\ lo <= z /\ z <= hi /\ lo < hi.
Proof.
  intros Hlen Hinc H0 Hl Hge Hle Hi.
  destruct (axis_walk z zdim zvals zi z0 zl Hlen Hinc H0 Hl Hge Hle Hi)
    as (i & lo & hi & W & Ri & Hlo & Hhi & B1 & B2 & B3).
  exists i, lo, hi. repeat split; auto; try lia.
  unfold search_indices_vertical_z. rewrite H0. cbn [bind].
  apply ltb_ge in Hge. rewrite Hge. rewrite Hl. cbn [bind].
  apply ltb_ge in Hle. rewrite Hle. rewrite W. cbn [bind].
  destruct (i =? zdim - 1)%Z eqn:E; [lia|].
  rewrite Hlo, Hhi. reflexivity.
Qed.

Lemma vertical_z_outside (z : Qc) zdim zvals zi zeta0 z0 zl :
  zvals.[0] = Some z0 -> zvals.[zdim - 1] = Some zl ->
  z < z0 \/ zl < z ->
  search_indices_vertical_z z zdim zvals zi zeta0
  = Some (ERROR_OUT_OF_BOUNDS, (zi, zeta0)).
Proof.
  intros H0 Hl Hout. unfold search_indices_vertical_z.
  rewrite H0. cbn [bind]. destruct (ltb z z0) eqn:E0; [reflexivity|].
  rewrite Hl. cbn [bind]. destruct Hout as [Hlo | Hhi].
  - apply ltb_lt in Hlo. congruence.
  - apply ltb_lt in Hhi. rewrite Hhi. reflexivity.
Qed.

(** X9: on a flat rectilinear Z-grid with strictly increasing axes,
    [search_indices_rectilinear] answers SUCCESS, from any cursor of the
    grid, for every point of the box
    [[xvals[0], xvals[xdim-1]] x [yvals[0], yvals[ydim-1]]]
    (and [[zvals[0], zvals[zdim-1]]] on a grid of several levels), and
    ERROR_OUT_OF_BOUNDS for every other point: no point of the box is
    lost and no point outside is accepted. *)
Theorem flat_rectilinear_domain :
  forall (x y z : Qc) xdim ydim zdim xvals yvals zvals zp (c : Cell Qc)
         z4d ti tdim time t0 t1 x0 xl y0 yl z0 zl,
    Z.of_nat (length xvals) = xdim -> increasing xvals = true ->
    Z.of_nat (length yvals) = ydim -> increasing yvals = true ->
    xvals.[0] = Some x0 -> xvals.[xdim - 1] = Some xl ->
    yvals.[0] = Some y0 -> yvals.[ydim - 1] = Some yl ->
    (0 <= xi c <= xdim - 2)%Z -> (0 <= yi c <= ydim - 2)%Z ->
    ((1 < zdim)%Z ->
     Z.of_nat (length zvals) = zdim /\ increasing zvals = true /\
     zvals.[0] = Some z0 /\ zvals.[zdim - 1] = Some zl /\
     (0 <= zi c <= zdim - 2)%Z) ->
    let inside :=
      (x0 <= x /\ x <= xl) /\ (y0 <= y /\ y <= yl) /\
      ((1 < zdim)%Z -> z0 <= z /\ z <= zl) in
    let search :=
      search_indices_rectilinear x y z xdim ydim zdim xvals yvals zvals 0 zp
        RECTILINEAR_Z_GRID c z4d ti tdim time t0 t1 in
    (inside -> exists c', search = Some (SUCCESS, c'))
    /\ (~ inside -> exists c', search = Some (ERROR_OUT_OF_BOUNDS, c')).
Proof.
  intros x y z xdim ydim zdim xvals yvals zvals zp c z4d ti tdim time t0 t1
         x0 xl y0 yl z0 zl Lx Ix Ly Iy X0 Xl Y0 Yl Hxi Hyi Hz inside search.
  subst inside search. unfold search_indices_rectilinear.
  cbn [Z.eqb]. rewrite X0. cbn [bind and_then].
  destruct (ltb x x0) eqn:Ax.
  { split; [intros ((N & _) & _); apply ltb_lt in Ax; exfalso;
            revert Ax; apply Qcle_not_lt; exact N | intros _; eexists; reflexivity]. }
  rewrite Xl. cbn [bind and_then].
  destruct (ltb xl x) eqn:Bx.
  { split; [intros ((_ & N) & _); apply ltb_lt in Bx; exfalso;
            revert Bx; apply Qcle_not_lt; exact N | intros _; eexists; reflexivity]. }
  apply ltb_ge in Ax, Bx.
  destruct (axis_walk x xdim xvals (xi c) x0 xl Lx Ix X0 Xl Ax Bx Hxi)
    as (i & lo & hi & W & Ri & Hlo & Hhi & B1 & B2 & B3).
  rewrite W. cbn [bind]. rewrite Hlo, Hhi. cbn [bind and_then].
  rewrite Y0. cbn [bind].
  destruct (ltb y y0) eqn:Ay.
  { split; [intros (_ & (N & _) & _); apply ltb_lt in Ay; exfalso;
            revert Ay; apply Qcle_not_lt; exact N | intros _; eexists; reflexivity]. }
  rewrite Yl. cbn [bind].
  destruct (ltb yl y) eqn:By.
  { split; [intros (_ & (_ & N) & _); apply ltb_lt in By; exfalso;
            revert By; apply Qcle_not_lt; exact N | intros _; eexists; reflexivity]. }
  apply ltb_ge in Ay, By.
  cbn [yi set_xi set_xsi].
  destruct (axis_walk y ydim yvals (yi c) y0 yl Ly Iy Y0 Yl Ay By Hyi)
    as (j & lo' & hi' & W' & Rj & Hlo' & Hhi' & C1 & C2 & C3).
  rewrite W'. cbn [bind]. rewrite Hlo', Hhi'. cbn [bind].
  pose proof (fraction_tests lo x hi B1 B2 B3) as Tx.
  pose proof (fraction_tests lo' y hi' C1 C2 C3) as Ty.
  destruct (zdim >? 1)%Z eqn:Zd.
  - assert (Zd' : (1 < zdim)%Z) by lia.
    destruct (Hz Zd') as (Lz & Iz & Z0 & Zl & Hzi).
    cbn [zi zeta xi yi xsi eta set_xi set_xsi set_yi set_eta].
    destruct (Qclt_le_dec z z0) as [Az | Az].
    { rewrite (vertical_z_outside z zdim zvals (zi c) (zeta c) z0 zl Z0 Zl
                 (or_introl Az)).
      cbn [bind check_vertical and_then]. split; [|intros _; eexists; reflexivity].
      intros (_ & _ & N). destruct (N Zd') as [N1 _]. exfalso.
      revert Az. apply Qcle_not_lt. exact N1. }
    destruct (Qclt_le_dec zl z) as [Bz | Bz].
    { rewrite (vertical_z_outside z zdim zvals (zi c) (zeta c) z0 zl Z0 Zl
                 (or_intror Bz)).
      cbn [bind check_vertical and_then]. split; [|intros _; eexists; reflexivity].
      intros (_ & _ & N). destruct (N Zd') as [_ N1]. exfalso.
      revert Bz. apply Qcle_not_lt. exact N1. }
    destruct (vertical_z_inside z zdim zvals (zi c) (zeta c) z0 zl
                Lz Iz Z0 Zl Az Bz Hzi)
      as (k & lo'' & hi'' & V & Rk & _ & _ & D1 & D2 & D3).
    rewrite V. cbn [bind check_vertical and_then].
    cbn [zi zeta xi yi xsi eta set_xi set_xsi set_yi set_eta set_zi
         set_zeta].
    rewrite Tx, Ty, (fraction_tests lo'' z hi'' D1 D2 D3).
    split; [intros _; eexists; reflexivity|]. intros N. exfalso. apply N. auto.
  - cbn [and_then zi zeta xi yi xsi eta set_xi set_xsi set_yi set_eta set_zi
         set_zeta].
    rewrite Tx, Ty, zero_tests.
    split; [intros _; eexists; reflexivity|]. intros N. exfalso. apply N.
    repeat split; auto; intros; lia.
Qed.

End FlatMesh.

(** ** Points on a node of an axis *)

Section Nodes.
Local Open Scope Qc_scope.

(** The walk of a value that is an inner node [k] of a strictly
    increasing axis: from a hint below [k] it stops on the interval
    below the node, from a hint at [k] or above on the interval above. *)
Lemma walk_node (vals : list Qc) dim k i v :
  Z.of_nat (length vals) = dim -> increasing vals = true ->
  (0 < k < dim - 1)%Z -> vals.[k] = Some v -> (0 <= i <= dim - 2)%Z ->
  walk gt v dim vals i = Some (if (i <? k)%Z then (k - 1)%Z else k).
Proof.
  intros Hlen Hinc Hk Hv Hi.
  destruct (walk_spec gt v dim vals i)
    as (i1 & i2 & R & Hi1 & Hi2 & Hstop & Hup & Hstop2 & Hdown); try lia.
  rewrite R. f_equal.
  assert (below : forall j w, (j < k)%Z -> vals.[j] = Some w -> w < v)
    by (intros j w Hj Hw; apply (increasing_lt vals j k); auto).
  assert (above : forall j w, (k < j)%Z -> vals.[j] = Some w -> v < w)
    by (intros j w Hj Hw; apply (increasing_lt vals k j); auto).
  (* where the walk up stops *)
  assert (E1 : i1 = Z.max i (k - 1)).
  { destruct (Z_lt_ge_dec i1 (Z.max i (k - 1))) as [L | G].
    - (* it stopped below the node *)
      assert (i1 < k - 1)%Z by lia.
      destruct (Hstop ltac:(lia)) as (w & Hw & U). apply ltb_ge in U.
      exfalso. revert U. apply Qclt_not_le. apply (below (i1 + 1)%Z); auto.
      lia.
    - destruct (Z.eq_dec i1 (Z.max i (k - 1))) as [|N]; [assumption|].
      (* it went past the node *)
      assert (P : (i <= i1 - 1 < i1)%Z) by lia.
      destruct (Hup (i1 - 1)%Z P) as (w & Hw & U).
      replace (i1 - 1 + 1)%Z with i1 in Hw by lia.
      apply ltb_lt in U. exfalso.
      destruct (Z.eq_dec i1 k) as [->|].
      + assert (w = v) by congruence. subst w.
        revert U. apply Qcle_not_lt. apply Qcle_refl.
      + revert U. apply Qcle_not_lt. apply Qclt_le_weak.
        apply (above i1); auto. lia. }
  (* where the walk down stops *)
  destruct (i <? k)%Z eqn:L.
  - assert (i1 = (k - 1)%Z) by lia. subst i1.
    destruct (Z.eq_dec i2 (k - 1)) as [|N]; [assumption|].
    destruct (Hdown (k - 1)%Z) as (w & Hw & U); [lia|].
    apply ltb_lt in U. exfalso. revert U. apply Qcle_not_lt.
    apply Qclt_le_weak. apply (below (k - 1)%Z); auto. lia.
  - assert (i1 = i) by lia. subst i1.
    destruct (Z_lt_ge_dec i2 k) as [L2 | G2].
    + destruct (Hdown k) as (w & Hw & U); [lia|].
      assert (w = v) by congruence. subst w.
      apply ltb_lt in U. exfalso. revert U. apply Qcle_not_lt.
      apply Qcle_refl.
    + destruct (Z.eq_dec i2 k) as [|N]; [assumption|].
      destruct (Hstop2 ltac:(lia)) as (w & Hw & U). apply ltb_ge in U.
      exfalso. revert U. apply Qclt_not_le. apply (above i2); auto. lia.
Qed.

(** X10: for a depth [z] that is an inner level [zvals[k]] of a strictly
    increasing column, the interval that [search_indices_vertical_z]
    returns depends on the hint: from a hint below [k] it is the interval
    [k-1] with [zeta = 1], from a hint at [k] or above it is the interval
    [k] with [zeta = 0]. *)
Theorem level_depends_on_hint :
  forall (z : Qc) zdim zvals zi zeta0 k,
    Z.of_nat (length zvals) = zdim -> increasing zvals = true ->
    (0 < k < zdim - 1)%Z -> zvals.[k] = Some z ->
    (0 <= zi <= zdim - 2)%Z ->
    ((zi < k)%Z ->
     search_indices_vertical_z z zdim zvals zi zeta0
     = Some (SUCCESS, ((k - 1)%Z, 1)))
    /\ ((k <= zi)%Z ->
        search_indices_vertical_z z zdim zvals zi zeta0
        = Some (SUCCESS, (k, 0))).
Proof.
  intros z zdim zvals zi zeta0 k Hlen Hinc Hk Hz Hzi.
  destruct (rd_Some zvals 0) as [z0 H0]; [lia|].
  destruct (rd_Some zvals (zdim - 1)) as [zl Hl]; [lia|].
  destruct (rd_Some zvals (k - 1)) as [lo Hlo]; [lia|].
  destruct (rd_Some zvals (k + 1)) as [hi Hhi]; [lia|].
  assert (A0 : z0 <= z) by (apply (increasing_le zvals 0 k); auto; lia).
  assert (Al : z <= zl) by (apply (increasing_le zvals k (zdim - 1)); auto; lia).
  assert (Blo : lo < z) by (apply (increasing_lt zvals (k - 1) k); auto; lia).
  assert (Bhi : z < hi) by (apply (increasing_lt zvals k (k + 1)); auto; lia).
  pose proof (walk_node zvals zdim k zi z Hlen Hinc Hk Hz Hzi) as W.
  unfold search_indices_vertical_z. rewrite H0. cbn [bind].
  apply ltb_ge in A0, Al. rewrite A0. rewrite Hl. cbn [bind]. rewrite Al.
  rewrite W. cbn [bind]. split; intros Hh.
  - destruct (zi <? k)%Z eqn:L; [|lia].
    destruct (k - 1 =? zdim - 1)%Z eqn:E; [lia|].
    rewrite Hlo. replace (k - 1 + 1)%Z with k by lia. rewrite Hz.
    cbn [bind divf subf to_float exact sub div]. f_equal. f_equal. f_equal.
    field. intros N. apply (Qclt_not_eq _ _ Blo).
    transitivity (z - lo + lo); [rewrite N|]; ring.
  - destruct (zi <? k)%Z eqn:L; [lia|].
    destruct (k =? zdim - 1)%Z eqn:E; [lia|].
    rewrite Hz, Hhi.
    cbn [bind divf subf to_float exact sub div]. f_equal. f_equal. f_equal.
    unfold Qcdiv. ring.
Qed.

End Nodes.

(** ** The time locator as a warm start, on the exact arithmetic *)

Section WarmTime.
Local Open Scope Qc_scope.

Lemma greatest_index_range tvals t i :
  greatest_index tvals t i -> (0 <= i < Z.of_nat (length tvals))%Z.
Proof. intros [(v & Hv & _) _]. eapply rd_range; eauto. Qed.

(** What [search_time_index] returns on a strictly increasing axis, from
    any hint: the time that is left and an index that does not depend on
    the hint. *)
Lemma time_index_result (t : Qc) size tvals per t0 tl :
  Z.of_nat (length tvals) = size -> increasing tvals = true ->
  tvals.[0] = Some t0 -> tvals.[size - 1] = Some tl ->
  (per = 1%Z -> t < t0 \/ tl < t ->
   t0 < tl /\ int_range (periods t0 tl t)) ->
  exists t' ti',
    (forall fuel ti, (ti <= size - 1)%Z ->
       search_time_index (S fuel) t size tvals ti per
       = Some (SUCCESS, (t', ti')))
    /\ (0 <= ti' <= size - 1)%Z
    /\ (t' = t \/ per = 1%Z /\ (t < t0 \/ tl < t) /\ t' = reduced t0 tl t)
    /\ (t0 <= t' -> greatest_index tvals t' ti')
    /\ (t' < t0 -> ti' = 0%Z).
Proof.
  intros Hlen Hinc H0 Hl Hper.
  pose proof (axis_size size tvals t0 Hlen H0) as Hs.
  destruct (Qclt_le_dec t t0) as [Lt | Ge].
  - (* before the axis *)
    destruct (Z.eq_dec per 1) as [-> | N].
    + destruct (Hper eq_refl (or_introl Lt)) as [HT Hfit].
      destruct (time_index_reduced size tvals t0 tl Hlen Hinc H0 Hl t HT
                  (or_introl Lt) Hfit) as (g & G & Hg).
      destruct (reduced_range t0 tl t HT) as [R0 Rl].
      exists (reduced t0 tl t), g.
      split; [intros; apply Hg|].
      split; [apply greatest_index_range in G; lia|].
      split; [right; auto|]. split; [auto|].
      intros C. exfalso. revert C. apply Qcle_not_lt. exact R0.
    + exists t, 0%Z.
      split.
      { intros fuel ti Hti. rewrite search_time_index_plain
          by (apply Z.eqb_neq; exact N).
        rewrite (walk_below t size tvals _ t0 Hlen Hinc); auto.
        destruct (ti <? 0)%Z eqn:E; lia. }
      split; [lia|]. split; [left; reflexivity|].
      split; [|reflexivity].
      intros C. exfalso. revert Lt. apply Qcle_not_lt. exact C.
  - destruct (Qclt_le_dec tl t) as [Gt | Le].
    + destruct (Z.eq_dec per 1) as [-> | N].
      * destruct (Hper eq_refl (or_intror Gt)) as [HT Hfit].
        destruct (time_index_reduced size tvals t0 tl Hlen Hinc H0 Hl t HT
                    (or_intror Gt) Hfit) as (g & G & Hg).
        destruct (reduced_range t0 tl t HT) as [R0 Rl].
        exists (reduced t0 tl t), g.
        split; [intros; apply Hg|].
        split; [apply greatest_index_range in G; lia|].
        split; [right; auto|]. split; [auto|].
        intros C. exfalso. revert C. apply Qcle_not_lt. exact R0.
      * destruct (time_index_plain size tvals t0 tl Hlen Hinc H0 Hl t per)
          as (g & G & Hg); auto.
        { left. apply Z.eqb_neq. exact N. }
        exists t, g. split; [intros; apply Hg; assumption|].
        split; [apply greatest_index_range in G; lia|].
        split; [left; reflexivity|]. split; [auto|].
        intros C. exfalso. revert C. apply Qcle_not_lt. exact Ge.
    + destruct (time_index_plain size tvals t0 tl Hlen Hinc H0 Hl t per)
        as (g & G & Hg); auto.
      exists t, g. split; [intros; apply Hg; assumption|].
      split; [apply greatest_index_range in G; lia|].
      split; [left; reflexivity|]. split; [auto|].
      intros C. exfalso. revert C. apply Qcle_not_lt. exact Ge.
Qed.

(** X11: on a strictly increasing axis, the time and the index that
    [search_time_index] leaves are a fixed point: a second call on them
    returns them unchanged, on a periodic field (with a period count that
    is an [int]) as on another. *)
Theorem time_index_fixed_point :
  forall fuel (t : Qc) size tvals ti per t0 tl t' ti',
    Z.of_nat (length tvals) = size -> increasing tvals = true ->
    tvals.[0] = Some t0 -> tvals.[size - 1] = Some tl ->
    (ti <= size - 1)%Z ->
    (per = 1%Z -> t < t0 \/ tl < t ->
     t0 < tl /\ int_range (periods t0 tl t)) ->
    search_time_index (S fuel) t size tvals ti per
    = Some (SUCCESS, (t', ti')) ->
    search_time_index (S fuel) t' size tvals ti' per
    = Some (SUCCESS, (t', ti')).
Proof.
  intros fuel t size tvals ti per t0 tl t' ti' Hlen Hinc H0 Hl Hti Hper H.
  destruct (time_index_result t size tvals per t0 tl Hlen Hinc H0 Hl Hper)
    as (u & g & Hg & Rg & Hu & G0 & G1).
  rewrite (Hg fuel ti Hti) in H. inversion H; subst u g. clear H.
  assert (Hper' : per = 1%Z -> t' < t0 \/ tl < t' ->
                  t0 < tl /\ int_range (periods t0 tl t')).
  { intros P O. destruct Hu as [-> | (_ & Ot & ->)]; [auto|].
    destruct (Hper P Ot) as [HT _].
    destruct (reduced_range t0 tl t HT) as [R0 Rl]. exfalso.
    destruct O as [O | O]; revert O; apply Qcle_not_lt;
      [exact R0 | apply Qclt_le_weak; exact Rl]. }
  destruct (time_index_result t' size tvals per t0 tl Hlen Hinc H0 Hl Hper')
    as (u & g & Hg' & Rg' & Hu' & G0' & G1').
  rewrite (Hg' fuel ti') by lia.
  assert (u = t').
  { destruct Hu' as [-> | (P & O & ->)]; [reflexivity|].
    destruct (Hper' P O) as [HT _]. subst per.
    destruct Hu as [-> | (_ & Ot & ->)].
    - destruct (Hper eq_refl O) as [_ I]. exfalso.
      (* the time was left as it is although it is off the axis *)
      destruct (time_index_reduced size tvals t0 tl Hlen Hinc H0 Hl t HT O I)
        as (g2 & _ & Hg2).
      specialize (Hg2 fuel ti). rewrite (Hg fuel ti Hti) in Hg2.
      inversion Hg2 as [[E1 E2]].
      destruct (reduced_range t0 tl t HT) as [R0 Rl]. rewrite <- E1 in R0, Rl.
      destruct O as [O | O]; revert O; apply Qcle_not_lt;
        [exact R0 | apply Qclt_le_weak; exact Rl].
    - destruct (reduced_range t0 tl t HT) as [R0 Rl]. exfalso.
      destruct O as [O | O]; revert O; apply Qcle_not_lt;
        [exact R0 | apply Qclt_le_weak; exact Rl]. }
  subst u. f_equal. f_equal. f_equal.
  destruct (Qclt_le_dec t' t0) as [L | G].
  - rewrite (G1 L), (G1' L). reflexivity.
  - apply (greatest_index_unique tvals t'); auto.
Qed.

(** X12: on a periodic field whose strictly increasing axis has two
    values or more, [search_time_index] leaves, for every [t] whose
    period count is an [int] and from any hint, a time of the axis,
    [tvals[0] <= t' <= tvals[size-1]], that differs from [t] by a whole
    number of periods and is the last value of the axis only if [t] is;
    the index that it leaves is the one of the interval of [t']. *)
Theorem periodic_time_on_axis :
  forall fuel (t : Qc) size tvals ti t0 tl,
    Z.of_nat (length tvals) = size -> increasing tvals = true ->
    tvals.[0] = Some t0 -> tvals.[size - 1] = Some tl ->
    t0 < tl -> (ti <= size - 1)%Z ->
    int_range (periods t0 tl t) ->
    exists t' ti' lo,
      search_time_index (S fuel) t size tvals ti 1
      = Some (SUCCESS, (t', ti'))
      /\ t0 <= t' /\ t' <= tl /\ (t' = tl -> t = tl)
      /\ (exists k : Z, t = t' + Exact.from_int k * (tl - t0))
      /\ (0 <= ti' <= size - 1)%Z
      /\ tvals.[ti'] = Some lo /\ lo <= t'
      /\ (forall hi, tvals.[ti' + 1] = Some hi -> t' < hi).
Proof.
  intros fuel t size tvals ti t0 tl Hlen Hinc H0 Hl HT Hti Hfit.
  destruct (time_index_result t size tvals 1 t0 tl Hlen Hinc H0 Hl)
    as (u & g & Hg & Rg & Hu & G0 & G1); [auto|].
  destruct (reduced_range t0 tl t HT) as [R0 Rl].
  assert (B : t0 <= u /\ u <= tl /\ (u = tl -> t = tl)
              /\ exists k : Z, t = u + Exact.from_int k * (tl - t0)).
  { destruct Hu as [-> | (_ & O & ->)].
    - destruct (Qclt_le_dec t t0) as [L | G].
      { exfalso.
        destruct (time_index_reduced size tvals t0 tl Hlen Hinc H0 Hl t HT
                    (or_introl L) Hfit) as (g2 & _ & Hg2).
        specialize (Hg2 fuel ti). rewrite (Hg fuel ti Hti) in Hg2.
        inversion Hg2 as [[E1 E2]]. rewrite <- E1 in R0.
        revert L. apply Qcle_not_lt. exact R0. }
      destruct (Qclt_le_dec tl t) as [L | G'].
      { exfalso.
        destruct (time_index_reduced size tvals t0 tl Hlen Hinc H0 Hl t HT
                    (or_intror L) Hfit) as (g2 & _ & Hg2).
        specialize (Hg2 fuel ti). rewrite (Hg fuel ti Hti) in Hg2.
        inversion Hg2 as [[E1 E2]]. rewrite <- E1 in Rl.
        revert L. apply Qcle_not_lt. apply Qclt_le_weak. exact Rl. }
      repeat split; auto. exists 0%Z.
      replace (Exact.from_int 0) with 0 by (apply Qc_is_canon; reflexivity).
      ring.
    - split; [exact R0|]. split; [apply Qclt_le_weak; exact Rl|].
      split.
      + intros E. exfalso. rewrite E in Rl. revert Rl. apply Qcle_not_lt.
        apply Qcle_refl.
      + exists (periods t0 tl t). unfold reduced. ring. }
  destruct B as (B0 & Bl & Be & Bk).
  destruct (G0 B0) as [(lo & Hlo & Llo) Gup].
  exists u, g, lo. split; [apply Hg; exact Hti|].
  repeat split; auto; try lia.
  intros hi Hhi. apply (Gup (g + 1)%Z); auto. lia.
Qed.

End WarmTime.

(** ** The located cell as a warm start, on the exact arithmetic *)

Section WalkStays.
Context {F : Type} {A : Arith F}.
Local Open Scope num_scope.

(** A walk that has nothing to step over stays where it is. *)
Lemma walk_stays up (v : F) dim vals i :
  ((i < dim - 1)%Z -> exists w, vals.[i + 1] = Some w /\ up v w = false) ->
  ((i > 0)%Z -> exists w, vals.[i] = Some w /\ (v <? w) = false) ->
  walk up v dim vals i = Some i.
Proof.
  intros Hup Hdown. unfold walk.
  assert (U : forall n, walk_up n up v dim vals i = Some i).
  { intros n. destruct n; simpl;
      (destruct (i <? dim - 1)%Z eqn:L; [|reflexivity]);
      (destruct Hup as (w & Hw & U); [lia|]); rewrite Hw; simpl;
      rewrite U; reflexivity. }
  rewrite U. cbn [bind].
  destruct (Z.to_nat i); simpl;
    (destruct (i >? 0)%Z eqn:L; [|reflexivity]);
    (destruct Hdown as (w & Hw & D); [lia|]); rewrite Hw; simpl;
    rewrite D; reflexivity.
Qed.

End WalkStays.

Section WarmStart.
Local Open Scope Qc_scope.

(** The index on which a walk ends is a fixed point of the walk. *)
Lemma walk_fixed (v : Qc) dim vals i i' :
  (0 <= i <= dim - 1)%Z -> (dim <= Z.of_nat (length vals))%Z ->
  walk gt v dim vals i = Some i' ->
  walk gt v dim vals i' = Some i'.
Proof.
  intros Hi Hlen W.
  destruct (walk_spec gt v dim vals i Hi Hlen)
    as (i1 & i2 & R & Hi1 & Hi2 & Hstop & Hup & Hstop2 & Hdown).
  assert (i2 = i') by congruence. subst i2.
  apply walk_stays; [|exact Hstop2].
  intros L. destruct (Z.eq_dec i' i1) as [-> | N]; [auto|].
  destruct (Hdown (i' + 1)%Z) as (w & Hw & D); [lia|].
  exists w. split; [exact Hw|]. apply ltb_lt in D. apply ltb_ge.
  apply Qclt_le_weak. exact D.
Qed.

Lemma vertical_z_fixed (z : Qc) zdim zvals zi zeta0 zi' zeta' zeta1 :
  (0 <= zi <= zdim - 2)%Z ->
  search_indices_vertical_z z zdim zvals zi zeta0
  = Some (SUCCESS, (zi', zeta')) ->
  search_indices_vertical_z z zdim zvals zi' zeta1
  = Some (SUCCESS, (zi', zeta')).
Proof.
  intros Hzi H. unfold search_indices_vertical_z in *.
  apply bind_Some in H. destruct H as (z0 & H0 & H). rewrite H0. cbn [bind].
  destruct (ltb z z0) eqn:L0; [discriminate|].
  apply bind_Some in H. destruct H as (zl & Hl & H). rewrite Hl. cbn [bind].
  destruct (ltb zl z) eqn:Ll; [discriminate|].
  apply bind_Some in H. destruct H as (w & W & H).
  pose proof L0 as L0'. pose proof Ll as Ll'. apply ltb_ge in L0', Ll'.
  destruct (walk_in_range z zdim zvals zi w z0 zl H0 Hl L0' Ll' Hzi W)
    as (Hw & _).
  destruct (w =? zdim - 1)%Z eqn:E; [lia|].
  apply bind_Some in H. destruct H as (lo & Hlo & H).
  apply bind_Some in H. destruct H as (hi & Hhi & H).
  inversion H; subst zi' zeta'. clear H.
  apply rd_range in Hl.
  rewrite (walk_fixed z zdim zvals zi w); auto; try lia.
  cbn [bind]. rewrite E, Hlo, Hhi. reflexivity.
Qed.

Lemma vertical_s_fixed (z : Qc) xdim ydim zdim zvals xi yi zi xsi eta zeta0
    z4d ti tdim time t0 t1 zi' zeta' zeta1 :
  (0 <= zi <= zdim - 2)%Z ->
  search_indices_vertical_s z xdim ydim zdim zvals xi yi zi xsi eta zeta0
    z4d ti tdim time t0 t1 = Some (SUCCESS, (zi', zeta')) ->
  search_indices_vertical_s z xdim ydim zdim zvals xi yi zi' xsi eta zeta1
    z4d ti tdim time t0 t1 = Some (SUCCESS, (zi', zeta')).
Proof.
  intros Hzi H. unfold search_indices_vertical_s in *.
  apply bind_Some in H. destruct H as (zcol & M & H). rewrite M. cbn [bind].
  eapply vertical_z_fixed; eauto.
Qed.

(** The vertical part of the two spatial searches, replayed from the
    cell that a successful search has left. *)
Lemma vertical_part_fixed (z : Qc) xdim ydim zdim zvals gcode zgrid sgrid
    (c2 c3 c' : Cell Qc) z4d ti tdim time t0 t1 :
  ((1 < zdim)%Z -> (0 <= zi c2 <= zdim - 2)%Z) ->
  (if (zdim >? 1)%Z then
     match gcode with
     | RECTILINEAR_Z_GRID | CURVILINEAR_Z_GRID =>
         if zgrid : bool then
           r <- search_indices_vertical_z z zdim zvals (zi c2) (zeta c2) ;;
           Some (check_vertical c2 r)
         else Some (Ret ERROR c2)
     | RECTILINEAR_S_GRID | CURVILINEAR_S_GRID =>
         if sgrid : bool then
           r <- search_indices_vertical_s z xdim ydim zdim zvals (xi c2)
                  (yi c2) (zi c2) (xsi c2) (eta c2) (zeta c2) z4d ti tdim
                  time t0 t1 ;;
           Some (check_vertical c2 r)
         else Some (Ret ERROR c2)
     end
   else Some (Go (set_zeta c2 (of_int 0)))) = Some (Go c3) ->
  xi c' = xi c2 -> yi c' = yi c2 -> xsi c' = xsi c2 -> eta c' = eta c2 ->
  zi c' = zi c3 ->
  xi c3 = xi c2 /\ yi c3 = yi c2 /\ xsi c3 = xsi c2 /\ eta c3 = eta c2 /\
  (if (zdim >? 1)%Z then
     match gcode with
     | RECTILINEAR_Z_GRID | CURVILINEAR_Z_GRID =>
         if zgrid : bool then
           r <- search_indices_vertical_z z zdim zvals (zi c') (zeta c') ;;
           Some (check_vertical c' r)
         else Some (Ret ERROR c')
     | RECTILINEAR_S_GRID | CURVILINEAR_S_GRID =>
         if sgrid : bool then
           r <- search_indices_vertical_s z xdim ydim zdim zvals (xi c')
                  (yi c') (zi c') (xsi c') (eta c') (zeta c') z4d ti tdim
                  time t0 t1 ;;
           Some (check_vertical c' r)
         else Some (Ret ERROR c')
     end
   else Some (Go (set_zeta c' (of_int 0))))
  = Some (Go (set_zeta (set_zi c' (zi c3)) (zeta c3))).
Proof.
  intros Hzi E Ex Ey Exs Eet Ezi.
  destruct (zdim >? 1)%Z eqn:Zd.
  - assert (Zd' : (1 < zdim)%Z) by lia. specialize (Hzi Zd').
    destruct gcode.
    + destruct zgrid; [|discriminate].
      apply bind_Some in E. destruct E as ([e1 [zi' zeta']] & V & E).
      inversion E as [E']. apply check_vertical_Go in E'.
      destruct E' as [-> ->]. cbn [xi yi zi xsi eta zeta set_zi set_zeta].
      do 4 (split; [reflexivity|]).
      cbn [zi set_zi set_zeta] in Ezi. rewrite Ezi.
      rewrite (vertical_z_fixed z zdim zvals (zi c2) (zeta c2) zi' zeta'
                 (zeta c') Hzi V).
      reflexivity.
    + destruct sgrid; [|discriminate].
      apply bind_Some in E. destruct E as ([e1 [zi' zeta']] & V & E).
      inversion E as [E']. apply check_vertical_Go in E'.
      destruct E' as [-> ->]. cbn [xi yi zi xsi eta zeta set_zi set_zeta].
      do 4 (split; [reflexivity|]).
      cbn [zi set_zi set_zeta] in Ezi. rewrite Ezi, Ex, Ey, Exs, Eet.
      rewrite (vertical_s_fixed z xdim ydim zdim zvals (xi c2) (yi c2)
                 (zi c2) (xsi c2) (eta c2) (zeta c2) z4d ti tdim time t0 t1
                 zi' zeta' (zeta c') Hzi V).
      reflexivity.
    + destruct zgrid; [|discriminate].
      apply bind_Some in E. destruct E as ([e1 [zi' zeta']] & V & E).
      inversion E as [E']. apply check_vertical_Go in E'.
      destruct E' as [-> ->]. cbn [xi yi zi xsi eta zeta set_zi set_zeta].
      do 4 (split; [reflexivity|]).
      cbn [zi set_zi set_zeta] in Ezi. rewrite Ezi.
      rewrite (vertical_z_fixed z zdim zvals (zi c2) (zeta c2) zi' zeta'
                 (zeta c') Hzi V).
      reflexivity.
    + destruct sgrid; [|discriminate].
      apply bind_Some in E. destruct E as ([e1 [zi' zeta']] & V & E).
      inversion E as [E']. apply check_vertical_Go in E'.
      destruct E' as [-> ->]. cbn [xi yi zi xsi eta zeta set_zi set_zeta].
      do 4 (split; [reflexivity|]).
      cbn [zi set_zi set_zeta] in Ezi. rewrite Ezi, Ex, Ey, Exs, Eet.
      rewrite (vertical_s_fixed z xdim ydim zdim zvals (xi c2) (yi c2)
                 (zi c2) (xsi c2) (eta c2) (zeta c2) z4d ti tdim time t0 t1
                 zi' zeta' (zeta c') Hzi V).
      reflexivity.
  - inversion E; subst c3. cbn [xi yi zi xsi eta zeta set_zi set_zeta].
    do 4 (split; [reflexivity|]).
    cbn [zi set_zeta] in Ezi. rewrite <- Ezi.
    destruct c'; reflexivity.
Qed.

Lemma unit_tests_false (v : Qc) :
  in_unit v -> ltb v (of_int 0) || ltb (of_int 1) v = false.
Proof.
  intros [U0 U1]. apply orb_false_iff. split; apply ltb_ge; assumption.
Qed.

Lemma rectilinear_fixed (x y z : Qc) xdim ydim zdim xvals yvals zvals sm zp
    gcode c z4d ti tdim time t0 t1 c' :
  (0 <= xi c <= xdim - 2)%Z -> (0 <= yi c <= ydim - 2)%Z ->
  ((1 < zdim)%Z -> (0 <= zi c <= zdim - 2)%Z) ->
  search_indices_rectilinear x y z xdim ydim zdim xvals yvals zvals sm zp
    gcode c z4d ti tdim time t0 t1 = Some (SUCCESS, c') ->
  search_indices_rectilinear x y z xdim ydim zdim xvals yvals zvals sm zp
    gcode c' z4d ti tdim time t0 t1 = Some (SUCCESS, c').
Proof.
  intros Hxi Hyi Hzi H.
  pose proof (rectilinear_success _ _ _ _ _ _ _ _ _ _ _ _ _ _ _ _ _ _ _ _
                Hxi Hyi Hzi H) as (Rx & Ry & Rz & _ & Ux & Ue & Uz & _).
  unfold search_indices_rectilinear in H.
  assert (Hx2 : (2 <= xdim)%Z) by lia.
  apply and_then_Some in H.
  destruct H as [(e & s & E & H) | (c1 & E & H)].
  { exfalso. inversion H; subst e s. clear H. code_cases. }
  (* the search along x, and its replay from [c'] *)
  assert (X : yi c1 = yi c /\ zi c1 = zi c /\ zeta c1 = zeta c /\
              forall d : Cell Qc, xi d = xi c1 ->
                (if (sm =? 0)%Z then
                   x0 <- xvals.[0] ;;
                   if ltb x x0 then Some (Ret ERROR_OUT_OF_BOUNDS d) else
                   xl <- xvals.[xdim - 1] ;;
                   if ltb xl x then Some (Ret ERROR_OUT_OF_BOUNDS d) else
                   i <- walk gt x xdim xvals (xi d) ;;
                   lo <- xvals.[i] ;;
                   hi <- xvals.[i + 1] ;;
                   Some (Go (set_xsi (set_xi d i)
                                     (divf (subf x lo) (subf hi lo))))
                 else
                   rejected <-
                     (if (zp =? 0)%Z then
                        x0 <- xvals.[0] ;;
                        xl <- xvals.[xdim - 1] ;;
                        if ltb x0 xl && (ltb x x0 || ltb xl x) then Some true
                        else if leb xl x0 && (ltb x x0 && ltb xl x)
                             then Some true
                        else Some false
                      else Some false) ;;
                   if rejected : bool then Some (Ret ERROR_OUT_OF_BOUNDS d)
                   else
                   '(xvalsi, xvalsi1) <- unwrap_lon x xvals (xi d) ;;
                   r <- sphere_walk (Z.to_nat itMax) x xdim xvals (xi d)
                          xvalsi xvalsi1 0 ;;
                   match r with
                   | Ret e (i, _) => Some (Ret e (set_xi d i))
                   | Go (i, (xvalsi, xvalsi1)) =>
                       Some (Go (set_xsi (set_xi d i)
                                   (divf (subf x xvalsi)
                                         (subf xvalsi1 xvalsi))))
                   end)
                = Some (Go (set_xsi (set_xi d (xi c1)) (xsi c1)))).
  { destruct (sm =? 0)%Z eqn:Sm.
    - apply bind_Some in E. destruct E as (x0 & H0 & E).
      destruct (ltb x x0) eqn:L0; [discriminate|].
      apply bind_Some in E. destruct E as (xl & Hl & E).
      destruct (ltb xl x) eqn:Ll; [discriminate|].
      apply bind_Some in E. destruct E as (i & W & E).
      apply bind_Some in E. destruct E as (lo & Hlo & E).
      apply bind_Some in E. destruct E as (hi & Hhi & E).
      inversion E; subst c1; clear E.
      cbn [xi yi zi xsi zeta set_xi set_xsi].
      do 3 (split; [reflexivity|]). intros d ->.
      rewrite H0. cbn [bind]. rewrite L0. rewrite Hl. cbn [bind]. rewrite Ll.
      apply rd_range in Hl.
      rewrite (walk_fixed x xdim xvals (xi c) i); auto; try lia.
      cbn [bind]. rewrite Hlo, Hhi. reflexivity.
    - apply bind_Some in E. destruct E as (rejected & Rj & E).
      destruct rejected; [discriminate|].
      apply bind_Some in E. destruct E as ([v v1] & U & E).
      apply bind_Some in E. destruct E as (r & W & E).
      destruct r as [e1 [i p] | [i [v' v1']]]; [discriminate|].
      inversion E; subst c1; clear E.
      cbn [xi yi zi xsi zeta set_xi set_xsi].
      do 3 (split; [reflexivity|]). intros d ->.
      rewrite Rj. cbn [bind].
      destruct (sphere_walk_Go _ _ _ _ _ _ _ _ _ _ _ Hx2 U Hxi W)
        as (U' & Hi & B1 & B2).
      rewrite U'. cbn [bind].
      assert (S0 : forall n, sphere_walk n x xdim xvals i v' v1' 0
                             = Some (Go (i, (v', v1')))).
      { intros n. apply ltb_ge in B1, B2.
        destruct n; cbn [sphere_walk]; rewrite B1, B2; reflexivity. }
      rewrite S0. reflexivity. }
  destruct X as (Eyi & Ezi & Eze & Xr).
  apply bind_Some in H. destruct H as (y0 & H0 & H).
  destruct (ltb y y0) eqn:L0; [discriminate|].
  apply bind_Some in H. destruct H as (yl & Hl & H).
  destruct (ltb yl y) eqn:Ll; [discriminate|].
  apply bind_Some in H. destruct H as (j & W & H).
  apply bind_Some in H. destruct H as (lo & Hlo & H).
  apply bind_Some in H. destruct H as (hi & Hhi & H).
  set (c2 := set_eta (set_yi c1 j) (divf (subf y lo) (subf hi lo))) in H.
  apply and_then_Some in H.
  destruct H as [(e & s & E2 & H) | (c3 & E2 & H)].
  { exfalso. inversion H; subst e s. clear H.
    destruct (zdim >? 1)%Z; [|discriminate].
    destruct gcode; try discriminate.
    - apply bind_Some in E2. destruct E2 as ([e1 zr] & V & E2).
      apply check_vertical_flow in E2; [discriminate|].
      eapply vertical_z_code; eauto.
    - apply bind_Some in E2. destruct E2 as ([e1 zr] & V & E2).
      apply check_vertical_flow in E2; [discriminate|].
      eapply vertical_s_code; eauto. }
  assert (C3 : c' = c3).
  { destruct (ltb (xsi c3) (of_int 0) || ltb (of_int 1) (xsi c3));
      [discriminate|].
    destruct (ltb (eta c3) (of_int 0) || ltb (of_int 1) (eta c3));
      [discriminate|].
    destruct (ltb (zeta c3) (of_int 0) || ltb (of_int 1) (zeta c3));
      [discriminate|].
    inversion H. reflexivity. }
  subst c3. clear H.
  assert (G : gcode = RECTILINEAR_Z_GRID \/ gcode = RECTILINEAR_S_GRID
              \/ (zdim >? 1)%Z = false).
  { destruct (zdim >? 1)%Z; [|auto]. destruct gcode; auto; discriminate. }
  (* the replay *)
  unfold search_indices_rectilinear.
  assert (V : xi c' = xi c2 /\ yi c' = yi c2 /\ xsi c' = xsi c2
              /\ eta c' = eta c2).
  { destruct (zdim >? 1)%Z eqn:Zd.
    - destruct gcode; try discriminate;
        apply bind_Some in E2; destruct E2 as ([e1 [zi' zeta']] & V & E2);
        inversion E2 as [E']; apply check_vertical_Go in E';
        destruct E' as [_ ->]; auto.
    - inversion E2. auto. }
  destruct V as (V1 & V2 & V3 & V4).
  cbn [xi yi xsi eta c2 set_eta set_yi] in V1, V2, V3, V4.
  rewrite (Xr c' V1). cbn [and_then].
  rewrite H0. cbn [bind]. rewrite L0. rewrite Hl. cbn [bind]. rewrite Ll.
  cbn [yi set_xi set_xsi]. rewrite V2.
  apply rd_range in Hl. rewrite Eyi in W.
  rewrite (walk_fixed y ydim yvals (yi c) j); auto; try lia.
  cbn [bind]. rewrite Hlo, Hhi. cbn [bind].
  set (d2 := set_eta (set_yi (set_xsi (set_xi c' (xi c1)) (xsi c1)) j)
               (divf (subf y lo) (subf hi lo))).
  assert (D2 : d2 = c').
  { subst d2. rewrite <- V1, <- V2, <- V3, <- V4. destruct c'. reflexivity. }
  rewrite D2.
  assert (Hz2 : (1 < zdim)%Z -> (0 <= zi c2 <= zdim - 2)%Z).
  { intros Zd. cbn [zi c2 set_eta set_yi]. rewrite Ezi. auto. }
  destruct G as [-> | [-> | Zd]].
  - destruct (vertical_part_fixed z xdim ydim zdim zvals RECTILINEAR_Z_GRID
                true true c2 c' c' z4d ti tdim time t0 t1 Hz2 E2)
      as (_ & _ & _ & _ & R); auto.
    cbv iota in R. rewrite R. cbn [and_then].
    replace (set_zeta (set_zi c' (zi c')) (zeta c')) with c'
      by (destruct c'; reflexivity).
    rewrite (unit_tests_false _ Ux), (unit_tests_false _ Ue),
      (unit_tests_false _ Uz). reflexivity.
  - destruct (vertical_part_fixed z xdim ydim zdim zvals RECTILINEAR_S_GRID
                true true c2 c' c' z4d ti tdim time t0 t1 Hz2 E2)
      as (_ & _ & _ & _ & R); auto.
    cbv iota in R. rewrite R. cbn [and_then].
    replace (set_zeta (set_zi c' (zi c')) (zeta c')) with c'
      by (destruct c'; reflexivity).
    rewrite (unit_tests_false _ Ux), (unit_tests_false _ Ue),
      (unit_tests_false _ Uz). reflexivity.
  - rewrite Zd in *.
    assert (E3 : c' = set_zeta c2 (of_int 0)) by (inversion E2; reflexivity).
    clear D2 Xr. subst c'. cbv beta iota. cbn [and_then].
    change (set_zeta (set_zeta c2 (of_int 0)) (of_int 0))
      with (set_zeta c2 (of_int 0)).
    rewrite (unit_tests_false _ Ux), (unit_tests_false _ Ue),
      (unit_tests_false _ Uz). reflexivity.
Qed.

(** X13: without rounding, on a flat rectilinear Z-grid whose axes are
    strictly increasing (so that no division of the search is one by 0),
    the cell that a successful search leaves is a fixed point of the
    search: [search_indices], called again for the same point from the
    cursor that it returned, answers SUCCESS with the same cursor and
    the same coordinates. *)
Theorem search_indices_fixed_point :
  forall (x y z : Qc) xdim ydim zdim xvals yvals zvals (c : Cell Qc) zp
         z4d ti tdim time t0 t1 c',
    increasing xvals = true -> increasing yvals = true ->
    ((1 < zdim)%Z -> increasing zvals = true) ->
    (0 <= xi c <= xdim - 2)%Z -> (0 <= yi c <= ydim - 2)%Z ->
    ((1 < zdim)%Z -> (0 <= zi c <= zdim - 2)%Z) ->
    search_indices x y z xdim ydim zdim xvals yvals zvals c 0 zp
      RECTILINEAR_Z_GRID z4d ti tdim time t0 t1 = Some (SUCCESS, c') ->
    search_indices x y z xdim ydim zdim xvals yvals zvals c' 0 zp
      RECTILINEAR_Z_GRID z4d ti tdim time t0 t1 = Some (SUCCESS, c').
Proof.
  intros x y z xdim ydim zdim xvals yvals zvals c zp z4d ti tdim
         time t0 t1 c' _ _ _ Hxi Hyi Hzi H.
  unfold search_indices in *.
  eapply rectilinear_fixed; eauto.
Qed.

End WarmStart.

(** ** The driver along the time axis, on the exact arithmetic *)

Section DriverTimeAxis.
Local Open Scope Qc_scope.

(** The driver once the time locator has returned. *)
Lemma driver_after_time fuel (x y z time : Qc) (f : CField Qc) gcode cur m
    ti0 t ti cur1 :
  let g := grid (f_grid f) in
  extrapolates time f = Some false ->
  (c_ti cur).[igrid f] = Some ti0 ->
  search_time_index fuel time (g_tdim g) (g_time g) ti0 (time_periodic f)
  = Some (SUCCESS, (t, ti)) ->
  set_ti cur (igrid f) ti = Some cur1 ->
  temporal_interpolation_structured_grid fuel x y z time f gcode cur m
  = (two <- (if (ti <? g_tdim g - 1)%Z
             then tv <- (g_time g).[ti] ;; Some (ltb tv t)
             else Some false) ;;
     if two : bool
     then two_samples x y z t f gcode cur1 ti m
     else one_sample x y z f gcode cur1 ti m).
Proof.
  intros g X T0 S W. unfold temporal_interpolation_structured_grid.
  fold g. rewrite X. cbn [bind]. rewrite T0. cbn [bind]. rewrite S.
  cbn [bind]. rewrite W. reflexivity.
Qed.

(** X14: on a field that is not periodic and allows extrapolation, with a
    strictly increasing time axis, a query before the first time is the
    single-sample query of the first slice and a query at or after the
    last time is the single-sample query of the last slice: the value is
    held, not extended along the slope. *)
Theorem constant_time_extrapolation :
  forall fuel (x y z t : Qc) (f : CField Qc) gcode cur m ti0 t0 tl,
    let g := grid (f_grid f) in
    time_periodic f = 0%Z -> allow_time_extrapolation f <> 0%Z ->
    Z.of_nat (length (g_time g)) = g_tdim g ->
    increasing (g_time g) = true ->
    (g_time g).[0] = Some t0 -> (g_time g).[g_tdim g - 1] = Some tl ->
    (c_ti cur).[igrid f] = Some ti0 -> (ti0 <= g_tdim g - 1)%Z ->
    (t < t0 -> forall cur1,
       set_ti cur (igrid f) 0 = Some cur1 ->
       temporal_interpolation_structured_grid fuel x y z t f gcode cur m
       = one_sample x y z f gcode cur1 0 m)
    /\ (tl <= t -> forall cur1,
          set_ti cur (igrid f) (g_tdim g - 1) = Some cur1 ->
          temporal_interpolation_structured_grid fuel x y z t f gcode cur m
          = one_sample x y z f gcode cur1 (g_tdim g - 1) m).
Proof.
  intros fuel x y z t f gcode cur m ti0 t0 tl g Hper Hext Hlen Hinc H0 Hl
         Hti0 Hle.
  assert (X : extrapolates t f = Some false).
  { unfold extrapolates. rewrite Hper.
    destruct (allow_time_extrapolation f =? 0)%Z eqn:E; [lia|reflexivity]. }
  assert (P : (time_periodic f =? 1)%Z = false) by (rewrite Hper; reflexivity).
  pose proof (axis_ends (g_tdim g) (g_time g) t0 tl Hlen Hinc H0 Hl) as Hends.
  split.
  - intros Lt cur1 W.
    assert (S : search_time_index fuel t (g_tdim g) (g_time g) ti0
                  (time_periodic f) = Some (SUCCESS, (t, 0%Z))).
    { rewrite search_time_index_plain by exact P.
      rewrite (walk_below t (g_tdim g) (g_time g) _ t0 Hlen Hinc); auto.
      apply rd_range in Hl. destruct (ti0 <? 0)%Z eqn:E; lia. }
    rewrite (driver_after_time fuel x y z t f gcode cur m ti0 t 0 cur1 X Hti0
               S W).
    fold g. destruct (0 <? g_tdim g - 1)%Z; [|reflexivity].
    rewrite H0. cbn [bind].
    assert (R : ltb t0 t = false)
      by (apply ltb_ge; apply Qclt_le_weak; exact Lt).
    rewrite R. reflexivity.
  - intros Ge cur1 W.
    assert (Ge0 : t0 <= t) by (eapply Qcle_trans; eauto).
    destruct (time_index_plain (g_tdim g) (g_time g) t0 tl Hlen Hinc H0 Hl
                t (time_periodic f) (or_introl P) Ge0) as (i & G & Hi).
    assert (i = (g_tdim g - 1)%Z).
    { apply (greatest_index_unique (g_time g) t); auto.
      apply (greatest_index_last t (g_tdim g) (g_time g) tl); auto. }
    subst i.
    rewrite (driver_after_time fuel x y z t f gcode cur m ti0 t
               (g_tdim g - 1) cur1 X Hti0 (Hi fuel ti0 Hle) W).
    fold g. rewrite Z.ltb_irrefl. reflexivity.
Qed.



End DriverTimeAxis.

(** ** The column of an S-grid, on the exact arithmetic *)

Section SColumn.
Local Open Scope Qc_scope.





End SColumn.

(** ** Reads and loops of a query, in any arithmetic *)

Section Safety.
Context {F : Type} {A : Arith F}.
Local Open Scope num_scope.

Lemma wr_Some {X : Type} (a : list X) (i : Z) (v : X) :
  (0 <= i < Z.of_nat (length a))%Z -> exists a', wr a i v = Some a'.
Proof.
  intros Hi. unfold wr. destruct (i <? 0)%Z eqn:N; [lia|].
  assert (L : (Z.to_nat i < length a)%nat) by lia.
  clear Hi N. revert L. generalize (Z.to_nat i). intros n.
  revert n. induction a as [|h r IH]; intros n L; simpl in L; [lia|].
  destruct n as [|n]; simpl; [eauto|].
  destruct (IH n) as (r' & E); [lia|]. rewrite E. simpl. eauto.
Qed.

(** The walk on an axis reads inside the axis and ends on it; after the
    test on the last value it ends below the last index. *)
Lemma walk_safe up (v : F) dim vals i :
  (0 <= i <= dim - 1)%Z -> (dim <= Z.of_nat (length vals))%Z ->
  exists i', walk up v dim vals i = Some i' /\ (0 <= i' <= dim - 1)%Z.
Proof.
  intros Hi Hlen.
  destruct (walk_spec up v dim vals i Hi Hlen) as (i1 & i2 & R & ? & ? & _).
  exists i2. split; [exact R | lia].
Qed.

Lemma walk_checked (v : F) dim vals i vl :
  (0 <= i <= dim - 2)%Z -> (dim <= Z.of_nat (length vals))%Z ->
  vals.[dim - 1] = Some vl -> (v >? vl) = false ->
  exists i', walk gt v dim vals i = Some i' /\ (0 <= i' <= dim - 2)%Z.
Proof.
  intros Hi Hlen Hl C.
  destruct (walk_spec gt v dim vals i) as (i1 & i2 & R & H1 & H2 & _ & Hup & _);
    [lia | exact Hlen |].
  exists i2. split; [exact R|].
  destruct (Z.eq_dec i1 (dim - 1)) as [-> | N]; [|lia].
  destruct (Hup (dim - 2)%Z) as (w & Hw & U); [lia|].
  replace (dim - 2 + 1)%Z with (dim - 1)%Z in Hw by lia.
  assert (w = vl) by congruence. subst w. unfold gt in U. congruence.
Qed.

Lemma vertical_z_safe (z : F) zdim zvals zi zeta0 :
  (2 <= zdim <= Z.of_nat (length zvals))%Z -> (0 <= zi <= zdim - 1)%Z ->
  exists e zi' zeta',
    search_indices_vertical_z z zdim zvals zi zeta0 = Some (e, (zi', zeta'))
    /\ (0 <= zi' <= zdim - 1)%Z
    /\ (e = SUCCESS -> (zi' <= zdim - 2)%Z).
Proof.
  intros Hz Hzi. unfold search_indices_vertical_z.
  destruct (rd_Some zvals 0) as [z0 H0]; [lia|].
  destruct (rd_Some zvals (zdim - 1)) as [zl Hl]; [lia|].
  rewrite H0. cbn [bind].
  destruct (z <? z0).
  { exists ERROR_OUT_OF_BOUNDS, zi, zeta0.
    split; [reflexivity|]. split; [lia | discriminate]. }
  rewrite Hl. cbn [bind].
  destruct (z >? zl).
  { exists ERROR_OUT_OF_BOUNDS, zi, zeta0.
    split; [reflexivity|]. split; [lia | discriminate]. }
  destruct (walk_safe gt z zdim zvals zi) as (w & W & Rw); [lia | lia |].
  rewrite W. cbn [bind].
  set (k := if (w =? zdim - 1)%Z then (w - 1)%Z else w).
  assert (Rk : (0 <= k <= zdim - 2)%Z)
    by (subst k; destruct (w =? zdim - 1)%Z eqn:E; lia).
  destruct (rd_Some zvals k) as [lo Hlo]; [lia|].
  destruct (rd_Some zvals (k + 1)) as [hi Hhi]; [lia|].
  rewrite Hlo, Hhi. cbn [bind]. exists SUCCESS, k. eexists.
  split; [reflexivity|]. split; [lia|]. intros _. lia.
Qed.

Lemma bilinear_sum_safe (xsi eta : F) tab base xdim ydim xi yi :
  (2 <= xdim)%Z -> (0 <= xi <= xdim - 2)%Z -> (0 <= yi <= ydim - 2)%Z ->
  (0 <= base)%Z -> (base + ydim * xdim <= Z.of_nat (length tab))%Z ->
  exists v, bilinear_sum xsi eta tab base xdim xi yi = Some v.
Proof.
  intros Hx Hxi Hyi Hb Hlen. unfold bilinear_sum.
  assert (B : ((yi + 1) * xdim + (xi + 1) < ydim * xdim)%Z) by nia.
  destruct (rd_Some tab (base + yi * xdim + xi)) as [d00 H00]; [nia|].
  destruct (rd_Some tab (base + yi * xdim + (xi + 1))) as [d01 H01]; [nia|].
  destruct (rd_Some tab (base + (yi + 1) * xdim + (xi + 1))) as [d11 H11];
    [nia|].
  destruct (rd_Some tab (base + (yi + 1) * xdim + xi)) as [d10 H10]; [nia|].
  rewrite H00, H01, H11, H10. cbn [bind]. eauto.
Qed.

Lemma mapM_total {X Y : Type} (f : X -> option Y) (l : list X) :
  (forall a, In a l -> exists b, f a = Some b) ->
  exists r, mapM f l = Some r /\ length r = length l.
Proof.
  induction l as [|a t IH]; intros E; [exists []; auto|].
  destruct (E a) as (b & Hb); [left; reflexivity|].
  destruct IH as (r & Hr & Lr); [intros c Hc; apply E; right; exact Hc|].
  exists (b :: r). simpl. rewrite Hb. simpl. rewrite Hr. simpl.
  split; [reflexivity | congruence].
Qed.

Lemma upto_In (n k : Z) : In k (upto n) -> (0 <= k < n)%Z.
Proof.
  unfold upto. rewrite in_map_iff. intros (j & <- & Hj).
  apply in_seq in Hj. lia.
Qed.

Lemma upto_length (n : Z) : (0 <= n)%Z -> Z.of_nat (length (upto n)) = n.
Proof.
  intros Hn. unfold upto. rewrite length_map, length_seq. lia.
Qed.

(** The slab [n] of [N] slabs of [P] values in a table of [len]
    values. *)
Lemma slab_bound (n N P len : Z) :
  (0 <= n)%Z -> (n + 1 <= N)%Z -> (0 <= P)%Z -> (N * P <= len)%Z ->
  (0 <= n * P)%Z /\ (n * P + P <= len)%Z.
Proof. intros. split; nia. Qed.

Lemma vertical_s_safe (z : F) xdim ydim zdim zvals xi yi zi xsi eta zeta0
    z4d ti tdim time t0 t1 :
  (2 <= xdim)%Z -> (2 <= ydim)%Z -> (2 <= zdim)%Z ->
  (0 <= xi <= xdim - 2)%Z -> (0 <= yi <= ydim - 2)%Z ->
  (0 <= zi <= zdim - 1)%Z -> (0 <= ti <= tdim - 1)%Z ->
  ((if (z4d =? 1)%Z then tdim else 1) * zdim * ydim * xdim
   <= Z.of_nat (length zvals))%Z ->
  exists e zi' zeta',
    search_indices_vertical_s z xdim ydim zdim zvals xi yi zi xsi eta zeta0
      z4d ti tdim time t0 t1 = Some (e, (zi', zeta'))
    /\ (0 <= zi' <= zdim - 1)%Z
    /\ (e = SUCCESS -> (zi' <= zdim - 2)%Z).
Proof.
  intros Hx Hy Hz Hxi Hyi Hzi Hti Hlen. unfold search_indices_vertical_s.
  assert (HP : (0 <= ydim * xdim)%Z) by nia.
  destruct (mapM_total
              (zcol_level xdim ydim zdim zvals xi yi xsi eta z4d ti tdim
                          time t0 t1) (upto zdim)) as (zcol & M & L).
  { intros k Hk. apply upto_In in Hk. unfold zcol_level.
    destruct (z4d =? 1)%Z eqn:E.
    - set (ti1 := if (ti <? tdim - 1)%Z then (ti + 1)%Z else ti).
      assert (R1 : (0 <= ti1 <= tdim - 1)%Z)
        by (subst ti1; destruct (ti <? tdim - 1)%Z eqn:T; lia).
      assert (Hlen' : (tdim * zdim * (ydim * xdim)
                       <= Z.of_nat (length zvals))%Z)
        by (rewrite Z.mul_assoc; exact Hlen).
      destruct (slab_bound (ti * zdim + k) (tdim * zdim) (ydim * xdim)
                  (Z.of_nat (length zvals))) as [S0 S1];
        [nia | nia | exact HP | exact Hlen' |].
      destruct (slab_bound (ti1 * zdim + k) (tdim * zdim) (ydim * xdim)
                  (Z.of_nat (length zvals))) as [S2 S3];
        [nia | nia | exact HP | exact Hlen' |].
      rewrite Z.mul_assoc in S0, S1, S2, S3.
      destruct (bilinear_sum_safe xsi eta zvals
                  ((ti * zdim + k) * ydim * xdim) xdim ydim xi yi)
        as (a & Ha); auto.
      destruct (bilinear_sum_safe xsi eta zvals
                  ((ti1 * zdim + k) * ydim * xdim) xdim ydim xi yi)
        as (b & Hb); auto.
      rewrite Ha, Hb. cbn [bind]. eauto.
    - assert (Hlen' : (zdim * (ydim * xdim) <= Z.of_nat (length zvals))%Z)
        by (rewrite Z.mul_assoc; lia).
      destruct (slab_bound k zdim (ydim * xdim) (Z.of_nat (length zvals)))
        as [S0 S1]; [lia | lia | exact HP | exact Hlen' |].
      rewrite Z.mul_assoc in S0, S1.
      destruct (bilinear_sum_safe xsi eta zvals (k * ydim * xdim) xdim ydim
                  xi yi) as (a & Ha); auto.
      rewrite Ha. cbn [bind]. eauto. }
  rewrite M. cbn [bind]. apply vertical_z_safe; [|exact Hzi].
  rewrite L. pose proof (upto_length zdim). lia.
Qed.

Lemma unwrap_lon_safe (x : F) xvals xdim i :
  (0 <= i <= xdim - 2)%Z -> (xdim <= Z.of_nat (length xvals))%Z ->
  exists v v1, unwrap_lon x xvals i = Some (v, v1).
Proof.
  intros Hi Hlen. unfold unwrap_lon.
  destruct (rd_Some xvals i) as [a Ha]; [lia|].
  destruct (rd_Some xvals (i + 1)) as [b Hb]; [lia|].
  rewrite Ha. cbn [bind]. rewrite Hb. cbn [bind]. eauto.
Qed.

(** The walk on a sphere stays on the cells and stops at the latest when
    its counter passes [itMax]. *)
Lemma sphere_walk_safe n (x : F) xdim xvals i v v1 it :
  (2 <= xdim <= Z.of_nat (length xvals))%Z -> (0 <= i <= xdim - 2)%Z ->
  (itMax <= Z.of_nat n + it)%Z ->
  exists r, sphere_walk n x xdim xvals i v v1 it = Some r
            /\ match r with
               | Ret e (i', _) =>
                   e = ERROR_OUT_OF_BOUNDS /\ (0 <= i' <= xdim - 2)%Z
               | Go (i', _) => (0 <= i' <= xdim - 2)%Z
               end.
Proof.
  intros Hx. revert i v v1 it.
  induction n as [|n IH]; intros i v v1 it Hi Hn; cbn [sphere_walk].
  - destruct ((v >? x) || (v1 <? x)); [|eexists; split; [reflexivity | cbv beta iota; lia]].
    set (i1 := fix_1d_index _ xdim 1).
    assert (R1 : (0 <= i1 <= xdim - 2)%Z)
      by (apply fix_1d_index_range; lia).
    destruct (unwrap_lon_safe x xvals xdim i1) as (w & w1 & U); [lia|lia|].
    rewrite U. cbn [bind].
    destruct (it + 1 >? itMax)%Z eqn:G;
      [|exfalso; rewrite Z.gtb_ltb in G; apply Z.ltb_ge in G; lia].
    eexists. split; [reflexivity|]. cbv beta iota. auto.
  - destruct ((v >? x) || (v1 <? x)); [|eexists; split; [reflexivity | cbv beta iota; lia]].
    set (i1 := fix_1d_index _ xdim 1).
    assert (R1 : (0 <= i1 <= xdim - 2)%Z)
      by (apply fix_1d_index_range; lia).
    destruct (unwrap_lon_safe x xvals xdim i1) as (w & w1 & U); [lia|lia|].
    rewrite U. cbn [bind].
    destruct (it + 1 >? itMax)%Z eqn:G.
    + eexists. split; [reflexivity|]. cbv beta iota. auto.
    + rewrite Z.gtb_ltb in G. apply Z.ltb_ge in G.
      apply IH; [exact R1 | lia].
Qed.

(** What [search_indices_rectilinear] needs of its arguments, and the
    cell that it leaves. *)
Lemma rectilinear_safe (x y z : F) xdim ydim zdim xvals yvals zvals sm zp
    gcode (c : Cell F) z4d ti tdim time t0 t1 :
  (2 <= xdim <= Z.of_nat (length xvals))%Z ->
  (2 <= ydim <= Z.of_nat (length yvals))%Z ->
  (0 <= xi c <= xdim - 2)%Z -> (0 <= yi c <= ydim - 2)%Z ->
  ((1 < zdim)%Z ->
   (0 <= zi c <= zdim - 1)%Z /\ (0 <= ti <= tdim - 1)%Z /\
   if s_grid gcode
   then ((if (z4d =? 1)%Z then tdim else 1) * zdim * ydim * xdim
         <= Z.of_nat (length zvals))%Z
   else (zdim <= Z.of_nat (length zvals))%Z) ->
  exists e c',
    search_indices_rectilinear x y z xdim ydim zdim xvals yvals zvals sm zp
      gcode c z4d ti tdim time t0 t1 = Some (e, c')
    /\ (0 <= xi c' <= xdim - 2)%Z /\ (0 <= yi c' <= ydim - 2)%Z
    /\ ((1 < zdim)%Z -> (0 <= zi c' <= zdim - 1)%Z)
    /\ ((zdim <= 1)%Z -> zi c' = zi c)
    /\ (e = SUCCESS -> (1 < zdim)%Z -> (zi c' <= zdim - 2)%Z).
Proof.
  intros Hx Hy Hxi Hyi Hz. unfold search_indices_rectilinear.
  destruct (rd_Some xvals 0) as [x0 X0]; [lia|].
  destruct (rd_Some xvals (xdim - 1)) as [xl Xl]; [lia|].
  destruct (rd_Some yvals 0) as [y0 Y0]; [lia|].
  destruct (rd_Some yvals (ydim - 1)) as [yl Yl]; [lia|].
  (* the search along x *)
  match goal with
  | |- exists e c', and_then ?m ?k = _ /\ _ =>
      assert (X : (exists d, m = Some (Ret ERROR_OUT_OF_BOUNDS d)
                             /\ (0 <= xi d <= xdim - 2)%Z /\ yi d = yi c
                             /\ zi d = zi c)
                  \/ (exists d, m = Some (Go d)
                                /\ (0 <= xi d <= xdim - 2)%Z /\ yi d = yi c
                                /\ zi d = zi c /\ zeta d = zeta c))
  end.
  { destruct (sm =? 0)%Z.
    - rewrite X0. cbn [bind].
      destruct (x <? x0); [left; exists c; auto|].
      rewrite Xl. cbn [bind].
      destruct (x >? xl) eqn:C; [left; exists c; auto|].
      destruct (walk_checked x xdim xvals (xi c) xl) as (i & W & Ri);
        auto; try lia.
      rewrite W. cbn [bind].
      destruct (rd_Some xvals i) as [lo Hlo]; [lia|].
      destruct (rd_Some xvals (i + 1)) as [hi Hhi]; [lia|].
      rewrite Hlo, Hhi. cbn [bind]. right. eexists. split; [reflexivity|].
      cbn [xi yi zi zeta set_xi set_xsi]. auto.
    - assert (Rj : exists b,
                 (if (zp =? 0)%Z then
                    x0 <- xvals.[0] ;;
                    xl <- xvals.[xdim - 1] ;;
                    if (x0 <? xl) && ((x <? x0) || (x >? xl)) then Some true
                    else if (x0 >=? xl) && ((x <? x0) && (x >? xl))
                         then Some true
                    else Some false
                  else Some false) = Some b).
      { destruct (zp =? 0)%Z; [|eauto]. rewrite X0, Xl. cbn [bind].
        destruct ((x0 <? xl) && ((x <? x0) || (x >? xl))); [eauto|].
        destruct ((x0 >=? xl) && ((x <? x0) && (x >? xl))); eauto. }
      destruct Rj as (b & Rj). rewrite Rj. cbn [bind].
      destruct b; [left; exists c; auto|].
      destruct (unwrap_lon_safe x xvals xdim (xi c)) as (v & v1 & U);
        [lia | lia |].
      rewrite U. cbn [bind].
      destruct (sphere_walk_safe (Z.to_nat itMax) x xdim xvals (xi c) v v1 0)
        as (r & S & R); [lia | lia | unfold itMax; lia |].
      rewrite S. cbn [bind].
      destruct r as [e1 [i p] | [i [w w1]]].
      + destruct R as [-> R]. left. eexists. split; [reflexivity|].
        cbn [xi yi zi set_xi]. auto.
      + right. eexists. split; [reflexivity|].
        cbn [xi yi zi zeta set_xi set_xsi]. auto. }
  destruct X as [(d & -> & Dx & Dy & Dz) | (d & -> & Dx & Dy & Dz & Dze)];
    cbn [and_then].
  { exists ERROR_OUT_OF_BOUNDS, d. split; [reflexivity|].
    rewrite Dy, Dz. repeat split; try lia; try discriminate;
      try (intros Zd; apply (Hz Zd)). }
  (* the search along y *)
  rewrite Y0. cbn [bind].
  destruct (y <? y0).
  { exists ERROR_OUT_OF_BOUNDS, d. split; [reflexivity|].
    rewrite Dy, Dz. repeat split; try lia; try discriminate;
      try (intros Zd; apply (Hz Zd)). }
  rewrite Yl. cbn [bind].
  destruct (y >? yl) eqn:C.
  { exists ERROR_OUT_OF_BOUNDS, d. split; [reflexivity|].
    rewrite Dy, Dz. repeat split; try lia; try discriminate;
      try (intros Zd; apply (Hz Zd)). }
  rewrite Dy.
  destruct (walk_checked y ydim yvals (yi c) yl) as (j & W & Rj);
    auto; try lia.
  rewrite W. cbn [bind].
  destruct (rd_Some yvals j) as [lo Hlo]; [lia|].
  destruct (rd_Some yvals (j + 1)) as [hi Hhi]; [lia|].
  rewrite Hlo, Hhi. cbn [bind].
  set (c2 := set_eta (set_yi d j) (divf (subf y lo) (subf hi lo))).
  assert (C2 : xi c2 = xi d /\ yi c2 = j /\ zi c2 = zi c /\ zeta c2 = zeta c)
    by (subst c2; cbn [xi yi zi zeta set_eta set_yi]; auto).
  destruct C2 as (C2x & C2y & C2z & C2ze). clearbody c2.
  (* the vertical search *)
  match goal with
  | |- exists e c', and_then ?m ?k = _ /\ _ =>
      assert (V : exists r, m = Some r
                  /\ match r with
                     | Ret e d3 =>
                         (e = ERROR \/ e = ERROR_OUT_OF_BOUNDS)
                         /\ (1 < zdim)%Z
                         /\ xi d3 = xi c2 /\ yi d3 = yi c2
                         /\ (0 <= zi d3 <= zdim - 1)%Z
                     | Go d3 =>
                         xi d3 = xi c2 /\ yi d3 = yi c2
                         /\ ((1 < zdim)%Z -> (0 <= zi d3 <= zdim - 2)%Z)
                         /\ ((zdim <= 1)%Z -> zi d3 = zi c2)
                     end)
  end.
  { destruct (zdim >? 1)%Z eqn:Zd.
    - assert (Zd' : (1 < zdim)%Z) by lia.
      destruct (Hz Zd') as (Hzi & Hti & Hlen).
      destruct gcode; cbn [s_grid] in Hlen.
      + destruct (vertical_z_safe z zdim zvals (zi c2) (zeta c2))
          as (e & k & ze & V & Rk & Sk); [lia | lia |].
        rewrite V. cbn [bind]. eexists. split; [reflexivity|].
        unfold check_vertical.
        pose proof (vertical_z_code _ _ _ _ _ _ _ V) as [-> | ->];
          cbn [xi yi zi set_zi set_zeta]; repeat split; auto; try lia;
          try (intros _; specialize (Sk eq_refl); lia).
      + destruct (vertical_s_safe z xdim ydim zdim zvals (xi c2) (yi c2)
                    (zi c2) (xsi c2) (eta c2) (zeta c2) z4d ti tdim time t0
                    t1) as (e & k & ze & V & Rk & Sk); try lia.
        rewrite V. cbn [bind]. eexists. split; [reflexivity|].
        unfold check_vertical.
        pose proof (vertical_s_code _ _ _ _ _ _ _ _ _ _ _ _ _ _ _ _ _ _ _
                      V) as [-> | ->];
          cbn [xi yi zi set_zi set_zeta]; repeat split; auto; try lia;
          try (intros _; specialize (Sk eq_refl); lia).
      + eexists. split; [reflexivity|]. repeat split; auto; intros; lia.
      + eexists. split; [reflexivity|]. repeat split; auto; intros; lia.
    - eexists. split; [reflexivity|].
      cbn [xi yi zi set_zeta]. repeat split; auto; lia. }
  destruct V as (r & -> & V). destruct r as [e d3 | d3]; cbn [and_then].
  { destruct V as (He & Zd & Vx & Vy & Vz).
    exists e, d3. split; [reflexivity|].
    rewrite Vx, Vy, C2x, C2y. repeat split; try lia.
    intros ->. destruct He; discriminate. }
  destruct V as (Vx & Vy & Vz & Vz1).
  assert (Fin : forall e, (0 <= xi d3 <= xdim - 2)%Z /\
                          (0 <= yi d3 <= ydim - 2)%Z /\
                          ((1 < zdim)%Z -> (0 <= zi d3 <= zdim - 1)%Z) /\
                          ((zdim <= 1)%Z -> zi d3 = zi c) /\
                          (e = SUCCESS -> (1 < zdim)%Z ->
                           (zi d3 <= zdim - 2)%Z)).
  { intros e. rewrite Vx, Vy, C2x, C2y.
    repeat split; try lia;
      try (intros Zd; specialize (Vz Zd); lia);
      try (intros Zd; rewrite (Vz1 Zd); exact C2z);
      try (intros _ Zd; specialize (Vz Zd); lia). }
  destruct ((xsi d3 <? of_int 0) || (xsi d3 >? of_int 1));
    [eexists; eexists; split; [reflexivity | apply Fin]|].
  destruct ((eta d3 <? of_int 0) || (eta d3 >? of_int 1));
    [eexists; eexists; split; [reflexivity | apply Fin]|].
  destruct ((zeta d3 <? of_int 0) || (zeta d3 >? of_int 1));
    [eexists; eexists; split; [reflexivity | apply Fin]|].
  eexists. eexists. split; [reflexivity | apply Fin].
Qed.

(** *** The curvilinear search on a flat mesh *)

Lemma fix_2d_indices_flat i j xdim ydim :
  (2 <= xdim)%Z -> (2 <= ydim)%Z ->
  (0 <= fst (fix_2d_indices i j xdim ydim 0) <= xdim - 2)%Z
  /\ (0 <= snd (fix_2d_indices i j xdim ydim 0) <= ydim - 2)%Z.
Proof.
  intros Hx Hy. unfold fix_2d_indices. cbn [Z.eqb].
  repeat (cbv beta iota zeta;
          match goal with
          | |- context [if (?a <? ?b)%Z then _ else _] =>
              destruct (a <? b)%Z eqn:?
          | |- context [if (?a >? ?b)%Z then _ else _] =>
              destruct (a >? b)%Z eqn:?
          end);
    cbn [fst snd]; lia.
Qed.

Lemma curvilinear_solve_safe (x y : F) xdim ydim xvals yvals sm (c : Cell F) :
  (2 <= xdim)%Z -> (2 <= ydim)%Z ->
  (0 <= xi c <= xdim - 2)%Z -> (0 <= yi c <= ydim - 2)%Z ->
  (xdim * ydim <= Z.of_nat (length xvals))%Z ->
  (xdim * ydim <= Z.of_nat (length yvals))%Z ->
  exists r, curvilinear_solve x y xdim xvals yvals sm c = Some r.
Proof.
  intros Hx Hy Hxi Hyi Lx Ly. unfold curvilinear_solve, xgrid_loc, ygrid_loc.
  assert (B : ((yi c + 1) * xdim + (xi c + 1) < xdim * ydim)%Z) by nia.
  destruct (rd_Some xvals (yi c * xdim + xi c)) as [g0 G0]; [nia|].
  destruct (rd_Some xvals (yi c * xdim + (xi c + 1))) as [g1 G1]; [nia|].
  destruct (rd_Some xvals ((yi c + 1) * xdim + (xi c + 1))) as [g2 G2]; [nia|].
  destruct (rd_Some xvals ((yi c + 1) * xdim + xi c)) as [g3 G3]; [nia|].
  destruct (rd_Some yvals (yi c * xdim + xi c)) as [h0 H0]; [nia|].
  destruct (rd_Some yvals (yi c * xdim + (xi c + 1))) as [h1 H1]; [nia|].
  destruct (rd_Some yvals ((yi c + 1) * xdim + (xi c + 1))) as [h2 H2]; [nia|].
  destruct (rd_Some yvals ((yi c + 1) * xdim + xi c)) as [h3 H3]; [nia|].
  rewrite G0, G1, G2, G3, H0, H1, H2, H3. cbn [bind].
  destruct (sm =? 0)%Z; cbn [bind]; eauto.
Qed.

Lemma curvilinear_round_safe (x y : F) xdim ydim xvals yvals (c : Cell F) :
  (2 <= xdim)%Z -> (2 <= ydim)%Z ->
  (0 <= xi c <= xdim - 2)%Z -> (0 <= yi c <= ydim - 2)%Z ->
  (xdim * ydim <= Z.of_nat (length xvals))%Z ->
  (xdim * ydim <= Z.of_nat (length yvals))%Z ->
  exists r c',
    curvilinear_round x y xdim ydim xvals yvals 0 c = Some r
    /\ (r = Ret ERROR_OUT_OF_BOUNDS c' \/ r = Go c')
    /\ (0 <= xi c' <= xdim - 2)%Z /\ (0 <= yi c' <= ydim - 2)%Z
    /\ zi c' = zi c /\ zeta c' = zeta c.
Proof.
  intros Hx Hy Hxi Hyi Lx Ly. unfold curvilinear_round.
  destruct (curvilinear_solve_safe x y xdim ydim xvals yvals 0 c)
    as ([xs et] & S); auto.
  rewrite S. cbn [bind].
  set (c1 := set_xsi (set_eta c et) xs).
  destruct ((xs <? of_int 0) && (et <? of_int 0) && (xi c1 =? 0)%Z
            && (yi c1 =? 0)%Z).
  { exists (Ret ERROR_OUT_OF_BOUNDS c1), c1. split; [reflexivity|].
    subst c1. cbn [xi yi zi zeta set_xsi set_eta]. auto 10. }
  destruct ((xs >? of_int 1) && (et >? of_int 1) && (xi c1 =? xdim - 1)%Z
            && (yi c1 =? ydim - 1)%Z).
  { exists (Ret ERROR_OUT_OF_BOUNDS c1), c1. split; [reflexivity|].
    subst c1. cbn [xi yi zi zeta set_xsi set_eta]. auto 10. }
  match goal with
  | |- context [fix_2d_indices ?i ?j xdim ydim 0] =>
      destruct (fix_2d_indices_flat i j xdim ydim Hx Hy) as [R1 R2];
      destruct (fix_2d_indices i j xdim ydim 0) as [i' j']
  end.
  cbn [fst snd] in R1, R2.
  eexists. eexists. split; [reflexivity|].
  split; [right; reflexivity|].
  subst c1. cbn [xi yi zi zeta set_xi set_yi set_xsi set_eta]. auto.
Qed.

Lemma curvilinear_walk_safe n (x y : F) xdim ydim xvals yvals (c : Cell F) it :
  (2 <= xdim)%Z -> (2 <= ydim)%Z ->
  (xdim * ydim <= Z.of_nat (length xvals))%Z ->
  (xdim * ydim <= Z.of_nat (length yvals))%Z ->
  (0 <= xi c <= xdim - 2)%Z -> (0 <= yi c <= ydim - 2)%Z ->
  (maxIterSearch <= Z.of_nat n + it)%Z ->
  exists r c',
    curvilinear_walk n x y xdim ydim xvals yvals 0 c it = Some r
    /\ (r = Ret ERROR_OUT_OF_BOUNDS c' \/ r = Go c')
    /\ (0 <= xi c' <= xdim - 2)%Z /\ (0 <= yi c' <= ydim - 2)%Z
    /\ zi c' = zi c /\ zeta c' = zeta c.
Proof.
  intros Hx Hy Lx Ly. revert c it.
  induction n as [|n IH]; intros c it Hxi Hyi Hn; cbn [curvilinear_walk].
  - destruct (outside_unit (xsi c) || outside_unit (eta c));
      [|exists (Go c), c; auto 10].
    destruct (curvilinear_round_safe x y xdim ydim xvals yvals c)
      as (r & c' & R & Hr & Rx & Ry & Rz & Rze); auto.
    rewrite R. cbn [bind].
    destruct Hr as [-> | ->]; [exists (Ret ERROR_OUT_OF_BOUNDS c'), c'; auto 10|].
    destruct (it + 1 >? maxIterSearch)%Z eqn:G;
      [|exfalso; rewrite Z.gtb_ltb in G; apply Z.ltb_ge in G; lia].
    exists (Ret ERROR_OUT_OF_BOUNDS c'), c'. auto 10.
  - destruct (outside_unit (xsi c) || outside_unit (eta c));
      [|exists (Go c), c; auto 10].
    destruct (curvilinear_round_safe x y xdim ydim xvals yvals c)
      as (r & c' & R & Hr & Rx & Ry & Rz & Rze); auto.
    rewrite R. cbn [bind].
    destruct Hr as [-> | ->]; [exists (Ret ERROR_OUT_OF_BOUNDS c'), c'; auto 10|].
    destruct (it + 1 >? maxIterSearch)%Z eqn:G;
      [exists (Ret ERROR_OUT_OF_BOUNDS c'), c'; auto 10|].
    rewrite Z.gtb_ltb in G. apply Z.ltb_ge in G.
    destruct (IH c' (it + 1)%Z) as (r & c'' & W & Hr & Wx & Wy & Wz & Wze);
      auto; try lia.
    exists r, c''. rewrite W. repeat split; auto; try lia; congruence.
Qed.

Lemma curvilinear_safe (x y z : F) xdim ydim zdim xvals yvals zvals zp
    gcode (c : Cell F) z4d ti tdim time t0 t1 :
  (2 <= xdim)%Z -> (2 <= ydim)%Z ->
  (xdim * ydim <= Z.of_nat (length xvals))%Z ->
  (xdim * ydim <= Z.of_nat (length yvals))%Z ->
  (0 <= xi c <= xdim - 2)%Z -> (0 <= yi c <= ydim - 2)%Z ->
  ((1 < zdim)%Z ->
   (0 <= zi c <= zdim - 1)%Z /\ (0 <= ti <= tdim - 1)%Z /\
   if s_grid gcode
   then ((if (z4d =? 1)%Z then tdim else 1) * zdim * ydim * xdim
         <= Z.of_nat (length zvals))%Z
   else (zdim <= Z.of_nat (length zvals))%Z) ->
  exists e c',
    search_indices_curvilinear x y z xdim ydim zdim xvals yvals zvals 0 zp
      gcode c z4d ti tdim time t0 t1 = Some (e, c')
    /\ (0 <= xi c' <= xdim - 2)%Z /\ (0 <= yi c' <= ydim - 2)%Z
    /\ ((1 < zdim)%Z -> (0 <= zi c' <= zdim - 1)%Z)
    /\ ((zdim <= 1)%Z -> zi c' = zi c)
    /\ (e = SUCCESS -> (1 < zdim)%Z -> (zi c' <= zdim - 2)%Z).
Proof.
  intros Hx Hy Lx Ly Hxi Hyi Hz. unfold search_indices_curvilinear.
  destruct (rd_Some xvals 0) as [x0 X0]; [nia|].
  destruct (rd_Some xvals (xdim - 1)) as [xl Xl]; [nia|].
  replace ((zp =? 0)%Z || (0 =? 0)%Z) with true
    by (destruct (zp =? 0)%Z; reflexivity).
  rewrite X0, Xl. cbn [bind].
  assert (Early : exists e c',
             Some (ERROR_OUT_OF_BOUNDS, c) = Some (e, c')
             /\ (0 <= xi c' <= xdim - 2)%Z /\ (0 <= yi c' <= ydim - 2)%Z
             /\ ((1 < zdim)%Z -> (0 <= zi c' <= zdim - 1)%Z)
             /\ ((zdim <= 1)%Z -> zi c' = zi c)
             /\ (e = SUCCESS -> (1 < zdim)%Z -> (zi c' <= zdim - 2)%Z)).
  { exists ERROR_OUT_OF_BOUNDS, c. split; [reflexivity|].
    repeat split; try lia; try discriminate; intros Zd; apply (Hz Zd). }
  destruct ((x0 <? xl) && ((x <? x0) || (x >? xl))); cbn [bind];
    [exact Early|].
  destruct ((x0 >=? xl) && ((x <? x0) && (x >? xl))); cbn [bind];
    [exact Early|].
  clear Early.
  set (c0 := set_xsi (set_eta c (of_int (-1))) (of_int (-1))).
  destruct (curvilinear_walk_safe (Z.to_nat maxIterSearch) x y xdim ydim
              xvals yvals c0 0)
    as (r & c1 & W & Hr & Wx & Wy & Wz & Wze);
    [exact Hx | exact Hy | exact Lx | exact Ly | exact Hxi | exact Hyi
    | unfold maxIterSearch; lia |].
  cbn [zi zeta c0 set_xsi set_eta] in Wz, Wze.
  rewrite W.
  assert (Fin1 : forall e (d : Cell F), xi d = xi c1 -> yi d = yi c1 -> zi d = zi c ->
                   e <> SUCCESS ->
                   (0 <= xi d <= xdim - 2)%Z /\ (0 <= yi d <= ydim - 2)%Z
                   /\ ((1 < zdim)%Z -> (0 <= zi d <= zdim - 1)%Z)
                   /\ ((zdim <= 1)%Z -> zi d = zi c)
                   /\ (e = SUCCESS -> (1 < zdim)%Z -> (zi d <= zdim - 2)%Z)).
  { intros e d -> -> -> N. repeat split; try lia; try contradiction;
      intros Zd; apply (Hz Zd). }
  destruct Hr as [-> | ->]; cbn [and_then].
  { exists ERROR_OUT_OF_BOUNDS, c1. split; [reflexivity|].
    apply Fin1; auto; discriminate. }
  destruct (negb (xsi c1 =? xsi c1) || negb (eta c1 =? eta c1)).
  { exists ERROR_OUT_OF_BOUNDS, c1. split; [reflexivity|].
    apply Fin1; auto; discriminate. }
  (* the vertical search *)
  match goal with
  | |- exists e c', and_then ?m ?k = _ /\ _ =>
      assert (V : exists r, m = Some r
                  /\ match r with
                     | Ret e d3 =>
                         (e = ERROR \/ e = ERROR_OUT_OF_BOUNDS)
                         /\ (1 < zdim)%Z
                         /\ xi d3 = xi c1 /\ yi d3 = yi c1
                         /\ (0 <= zi d3 <= zdim - 1)%Z
                     | Go d3 =>
                         xi d3 = xi c1 /\ yi d3 = yi c1
                         /\ ((1 < zdim)%Z -> (0 <= zi d3 <= zdim - 2)%Z)
                         /\ ((zdim <= 1)%Z -> zi d3 = zi c1)
                     end)
  end.
  { destruct (zdim >? 1)%Z eqn:Zd.
    - assert (Zd' : (1 < zdim)%Z) by lia.
      destruct (Hz Zd') as (Hzi & Hti & Hlen).
      destruct gcode; cbn [s_grid] in Hlen.
      + eexists. split; [reflexivity|]. repeat split; auto; intros; lia.
      + eexists. split; [reflexivity|]. repeat split; auto; intros; lia.
      + destruct (vertical_z_safe z zdim zvals (zi c1) (zeta c1))
          as (e & k & ze & V & Rk & Sk); [lia | lia |].
        rewrite V. cbn [bind]. eexists. split; [reflexivity|].
        unfold check_vertical.
        pose proof (vertical_z_code _ _ _ _ _ _ _ V) as [-> | ->];
          cbn [xi yi zi set_zi set_zeta]; repeat split; auto; try lia;
          try (intros _; specialize (Sk eq_refl); lia).
      + destruct (vertical_s_safe z xdim ydim zdim zvals (xi c1) (yi c1)
                    (zi c1) (xsi c1) (eta c1) (zeta c1) z4d ti tdim time t0
                    t1) as (e & k & ze & V & Rk & Sk); try lia.
        rewrite V. cbn [bind]. eexists. split; [reflexivity|].
        unfold check_vertical.
        pose proof (vertical_s_code _ _ _ _ _ _ _ _ _ _ _ _ _ _ _ _ _ _ _
                      V) as [-> | ->];
          cbn [xi yi zi set_zi set_zeta]; repeat split; auto; try lia;
          try (intros _; specialize (Sk eq_refl); lia).
    - eexists. split; [reflexivity|].
      cbn [xi yi zi set_zeta]. repeat split; auto; lia. }
  destruct V as (r & -> & V). destruct r as [e d3 | d3]; cbn [and_then].
  { destruct V as (He & Zd & Vx & Vy & Vz).
    exists e, d3. split; [reflexivity|].
    rewrite Vx, Vy. repeat split; try lia.
    intros ->. destruct He; discriminate. }
  destruct V as (Vx & Vy & Vz & Vz1).
  assert (Fin : forall e, (0 <= xi d3 <= xdim - 2)%Z /\
                          (0 <= yi d3 <= ydim - 2)%Z /\
                          ((1 < zdim)%Z -> (0 <= zi d3 <= zdim - 1)%Z) /\
                          ((zdim <= 1)%Z -> zi d3 = zi c) /\
                          (e = SUCCESS -> (1 < zdim)%Z ->
                           (zi d3 <= zdim - 2)%Z)).
  { intros e. rewrite Vx, Vy.
    repeat split; try lia;
      try (intros Zd; specialize (Vz Zd); lia);
      try (intros Zd; rewrite (Vz1 Zd); exact Wz);
      try (intros _ Zd; specialize (Vz Zd); lia). }
  destruct ((xsi d3 <? of_int 0) || (xsi d3 >? of_int 1));
    [eexists; eexists; split; [reflexivity | apply Fin]|].
  destruct ((eta d3 <? of_int 0) || (eta d3 >? of_int 1));
    [eexists; eexists; split; [reflexivity | apply Fin]|].
  destruct ((zeta d3 <? of_int 0) || (zeta d3 >? of_int 1));
    [eexists; eexists; split; [reflexivity | apply Fin]|].
  eexists. eexists. split; [reflexivity | apply Fin].
Qed.

Lemma search_indices_safe (x y z : F) (g : CStructuredGrid F) gcode
    (c : Cell F) ti time t0 t1 :
  grid_sizes gcode g -> cell_valid g c -> (0 <= ti <= g_tdim g - 1)%Z ->
  (curvilinear gcode = true -> g_sphere_mesh g = 0%Z) ->
  exists e c',
    search_indices x y z (g_xdim g) (g_ydim g) (g_zdim g) (g_lon g) (g_lat g)
      (g_depth g) c (g_sphere_mesh g) (g_zonal_periodic g) gcode (g_z4d g)
      ti (g_tdim g) time t0 t1 = Some (e, c')
    /\ cell_valid g c'
    /\ (e = SUCCESS -> (1 < g_zdim g)%Z -> (zi c' <= g_zdim g - 2)%Z).
Proof.
  intros (Hx & Hy & Hz & Ht & Hh & Hd) (Cx & Cy & Cz) Hti Hflat.
  assert (Hv : (1 < g_zdim g)%Z ->
               (0 <= zi c <= g_zdim g - 1)%Z /\ (0 <= ti <= g_tdim g - 1)%Z /\
               if s_grid gcode
               then ((if (g_z4d g =? 1)%Z then g_tdim g else 1)
                     * g_zdim g * g_ydim g * g_xdim g
                     <= Z.of_nat (length (g_depth g)))%Z
               else (g_zdim g <= Z.of_nat (length (g_depth g)))%Z)
    by (intros Zd; split; [exact Cz|]; split; [exact Hti|]; exact (Hd Zd)).
  unfold search_indices, cell_valid.
  destruct gcode; cbn [curvilinear] in Hh, Hflat.
  - destruct Hh as [Lx Ly].
    destruct (rectilinear_safe x y z (g_xdim g) (g_ydim g) (g_zdim g)
                (g_lon g) (g_lat g) (g_depth g) (g_sphere_mesh g)
                (g_zonal_periodic g) RECTILINEAR_Z_GRID c (g_z4d g) ti
                (g_tdim g) time t0 t1)
      as (e & c' & S & Rx & Ry & Rz & Rz1 & Rs); auto; try lia.
    exists e, c'. split; [exact S|]. split; [|exact Rs].
    repeat split; try lia;
      destruct (Z_lt_le_dec 1 (g_zdim g)) as [Zd | Zd];
      try (specialize (Rz Zd); lia); try (rewrite (Rz1 Zd); lia).
  - destruct Hh as [Lx Ly].
    destruct (rectilinear_safe x y z (g_xdim g) (g_ydim g) (g_zdim g)
                (g_lon g) (g_lat g) (g_depth g) (g_sphere_mesh g)
                (g_zonal_periodic g) RECTILINEAR_S_GRID c (g_z4d g) ti
                (g_tdim g) time t0 t1)
      as (e & c' & S & Rx & Ry & Rz & Rz1 & Rs); auto; try lia.
    exists e, c'. split; [exact S|]. split; [|exact Rs].
    repeat split; try lia;
      destruct (Z_lt_le_dec 1 (g_zdim g)) as [Zd | Zd];
      try (specialize (Rz Zd); lia); try (rewrite (Rz1 Zd); lia).
  - destruct Hh as [Lx Ly]. rewrite (Hflat eq_refl).
    destruct (curvilinear_safe x y z (g_xdim g) (g_ydim g) (g_zdim g)
                (g_lon g) (g_lat g) (g_depth g)
                (g_zonal_periodic g) CURVILINEAR_Z_GRID c (g_z4d g) ti
                (g_tdim g) time t0 t1)
      as (e & c' & S & Rx & Ry & Rz & Rz1 & Rs); auto; try lia.
    exists e, c'. split; [exact S|]. split; [|exact Rs].
    repeat split; try lia;
      destruct (Z_lt_le_dec 1 (g_zdim g)) as [Zd | Zd];
      try (specialize (Rz Zd); lia); try (rewrite (Rz1 Zd); lia).
  - destruct Hh as [Lx Ly]. rewrite (Hflat eq_refl).
    destruct (curvilinear_safe x y z (g_xdim g) (g_ydim g) (g_zdim g)
                (g_lon g) (g_lat g) (g_depth g)
                (g_zonal_periodic g) CURVILINEAR_S_GRID c (g_z4d g) ti
                (g_tdim g) time t0 t1)
      as (e & c' & S & Rx & Ry & Rz & Rz1 & Rs); auto; try lia.
    exists e, c'. split; [exact S|]. split; [|exact Rs].
    repeat split; try lia;
      destruct (Z_lt_le_dec 1 (g_zdim g)) as [Zd | Zd];
      try (specialize (Rz Zd); lia); try (rewrite (Rz1 Zd); lia).
Qed.

(** The kernels read the corners of the cell in the time slice. *)
Lemma spatial_kernel_safe m (g : CStructuredGrid F) (c : Cell F) f_data base :
  (2 <= g_xdim g)%Z -> (2 <= g_ydim g)%Z -> (1 <= g_zdim g)%Z ->
  (0 <= xi c <= g_xdim g - 2)%Z -> (0 <= yi c <= g_ydim g - 2)%Z ->
  ((1 < g_zdim g)%Z -> (0 <= zi c <= g_zdim g - 2)%Z) ->
  (0 <= base)%Z ->
  (base + g_zdim g * (g_ydim g * g_xdim g) <= Z.of_nat (length f_data))%Z ->
  exists r, spatial_kernel m g c f_data base = Some r.
Proof.
  intros Hx Hy Hz Cx Cy Cz Hb Hlen. unfold spatial_kernel.
  set (P := (g_ydim g * g_xdim g)%Z) in *.
  assert (HP : (0 <= P)%Z) by (subst P; nia).
  destruct (InterpCode_of_int m) as [[|]|]; [| |eauto].
  - destruct (g_zdim g =? 1)%Z eqn:E.
    + unfold spatial_interpolation_bilinear.
      destruct (bilinear_sum_safe (xsi c) (eta c) f_data base (g_xdim g)
                  (g_ydim g) (xi c) (yi c)) as (v & V); auto; try (fold P; nia).
      rewrite V. cbn [bind]. eauto.
    + assert (Zd : (1 < g_zdim g)%Z) by lia. specialize (Cz Zd).
      unfold spatial_interpolation_trilinear.
      destruct (slab_bound (zi c) (g_zdim g) P (g_zdim g * P))
        as [S0 S1]; try lia.
      destruct (slab_bound (zi c + 1) (g_zdim g) P (g_zdim g * P))
        as [S2 S3]; try lia.
      subst P. rewrite Z.mul_assoc in S0, S1, S2, S3.
      destruct (bilinear_sum_safe (xsi c) (eta c) f_data
                  (base + zi c * g_ydim g * g_xdim g) (g_xdim g) (g_ydim g)
                  (xi c) (yi c)) as (v0 & V0); auto; try lia.
      destruct (bilinear_sum_safe (xsi c) (eta c) f_data
                  (base + (zi c + 1) * g_ydim g * g_xdim g) (g_xdim g)
                  (g_ydim g) (xi c) (yi c)) as (v1 & V1); auto; try lia.
      rewrite V0, V1. cbn [bind]. eauto.
  - destruct (g_zdim g =? 1)%Z eqn:E.
    + unfold spatial_interpolation_nearest2D.
      set (ii := if xsi c <? half then xi c else (xi c + 1)%Z).
      set (jj := if eta c <? half then yi c else (yi c + 1)%Z).
      assert (Ri : (0 <= ii <= g_xdim g - 1)%Z)
        by (subst ii; destruct (xsi c <? half); lia).
      assert (Rj : (0 <= jj <= g_ydim g - 1)%Z)
        by (subst jj; destruct (eta c <? half); lia).
      destruct (rd_Some f_data (base + jj * g_xdim g + ii)) as [v V];
        [subst P; nia|].
      rewrite V. cbn [bind]. eauto.
    + assert (Zd : (1 < g_zdim g)%Z) by lia. specialize (Cz Zd).
      unfold spatial_interpolation_nearest3D.
      set (ii := if xsi c <? half then xi c else (xi c + 1)%Z).
      set (jj := if eta c <? half then yi c else (yi c + 1)%Z).
      set (kk := if zeta c <? half then zi c else (zi c + 1)%Z).
      assert (Ri : (0 <= ii <= g_xdim g - 1)%Z)
        by (subst ii; destruct (xsi c <? half); lia).
      assert (Rj : (0 <= jj <= g_ydim g - 1)%Z)
        by (subst jj; destruct (eta c <? half); lia).
      assert (Rk : (0 <= kk <= g_zdim g - 1)%Z)
        by (subst kk; destruct (zeta c <? half); lia).
      assert (B : (0 <= (kk * g_ydim g + jj) * g_xdim g + ii
                   < g_zdim g * P)%Z).
      { subst P. clearbody ii jj kk. split; [nia|].
        assert ((kk * g_ydim g + jj + 1) <= g_zdim g * g_ydim g)%Z by nia.
        nia. }
      destruct (rd_Some f_data (base + (kk * g_ydim g + jj) * g_xdim g + ii))
        as [v V]; [lia|].
      rewrite V. cbn [bind]. eauto.
Qed.

Lemma get_cell_safe (g : CStructuredGrid F) ig cur :
  cursors_valid g ig cur ->
  exists c : Cell F, get_cell cur ig = Some c /\ cell_valid g c.
Proof.
  intros (i & j & k & l & Hi & Hj & Hk & Hl & Ri & Rj & Rk & Rl).
  unfold get_cell. rewrite Hi, Hj, Hk. cbn [bind]. eexists.
  split; [reflexivity|]. unfold cell_valid. cbn [xi yi zi]. auto.
Qed.

Lemma set_cell_safe (g : CStructuredGrid F) ig cur (c : Cell F) :
  cursors_valid g ig cur -> cell_valid g c ->
  exists cur', set_cell cur ig c = Some cur' /\ c_ti cur' = c_ti cur
               /\ cursors_valid g ig cur'.
Proof.
  intros (i & j & k & l & Hi & Hj & Hk & Hl & Ri & Rj & Rk & Rl) (Cx & Cy & Cz).
  unfold set_cell.
  destruct (wr_Some (c_xi cur) ig (xi c)) as (ax & Ex);
    [eapply rd_range; eauto|].
  destruct (wr_Some (c_yi cur) ig (yi c)) as (ay & Ey);
    [eapply rd_range; eauto|].
  destruct (wr_Some (c_zi cur) ig (zi c)) as (az & Ez);
    [eapply rd_range; eauto|].
  rewrite Ex, Ey, Ez. cbn [bind]. eexists. split; [reflexivity|].
  split; [reflexivity|].
  exists (xi c), (yi c), (zi c), l. cbn [c_xi c_yi c_zi c_ti].
  repeat split; eauto using wr_read; lia.
Qed.

Lemma set_ti_safe (g : CStructuredGrid F) ig cur ti :
  cursors_valid g ig cur -> (0 <= ti <= g_tdim g - 1)%Z ->
  exists cur', set_ti cur ig ti = Some cur' /\ cursors_valid g ig cur'.
Proof.
  intros (i & j & k & l & Hi & Hj & Hk & Hl & Ri & Rj & Rk & Rl) Rt.
  unfold set_ti.
  destruct (wr_Some (c_ti cur) ig ti) as (a & E); [eapply rd_range; eauto|].
  rewrite E. cbn [bind]. eexists. split; [reflexivity|].
  exists i, j, k, ti. cbn [c_xi c_yi c_zi c_ti].
  repeat split; eauto using wr_read; lia.
Qed.

(** The part of a branch of the driver that follows the search in
    space. *)
Lemma kernels_safe (f : CField F) gcode m (c : Cell F) ti e :
  let g := grid (f_grid f) in
  let slice := (f_zdim f * f_ydim f * f_xdim f)%Z in
  grid_sizes gcode g -> field_sizes f -> cell_valid g c ->
  (e = SUCCESS -> (1 < g_zdim g)%Z -> (zi c <= g_zdim g - 2)%Z) ->
  (0 <= ti <= g_tdim g - 1)%Z ->
  e = SUCCESS ->
  exists r, spatial_kernel m g c (data f) (ti * slice) = Some r.
Proof.
  intros g slice (Hx & Hy & Hz & Ht & _) (Fx & Fy & Fz & Fd) (Cx & Cy & Cz)
         Hs Hti ->.
  fold g in Fx, Fy, Fz, Fd. subst slice. rewrite Fx, Fy, Fz.
  set (P := (g_zdim g * (g_ydim g * g_xdim g))%Z).
  assert (HP : (0 <= P)%Z) by (subst P; nia).
  assert (Fd' : (g_tdim g * P <= Z.of_nat (length (data f)))%Z).
  { subst P. rewrite !Z.mul_assoc. exact Fd. }
  destruct (slab_bound ti (g_tdim g) P _ ltac:(lia) ltac:(lia) HP Fd')
    as [S0 S1].
  replace (g_zdim g * g_ydim g * g_xdim g)%Z with P
    by (subst P; ring).
  apply spatial_kernel_safe; auto; try lia.
  intros Zd. specialize (Hs eq_refl Zd). lia.
Qed.

Lemma two_samples_safe (x y z time : F) (f : CField F) gcode cur ti m :
  let g := grid (f_grid f) in
  grid_sizes gcode g -> field_sizes f -> cursors_valid g (igrid f) cur ->
  (curvilinear gcode = true -> g_sphere_mesh g = 0%Z) ->
  (0 <= ti < g_tdim g - 1)%Z ->
  exists e cur' w,
    two_samples x y z time f gcode cur ti m = Some (e, (cur', w))
    /\ cursors_valid g (igrid f) cur'.
Proof.
  intros g Hg Hf Hc Hflat Hti. unfold two_samples. fold g.
  pose proof Hg as (Hx & Hy & Hz & Ht & _).
  destruct (rd_Some (g_time g) ti) as [t0 T0]; [lia|].
  destruct (rd_Some (g_time g) (ti + 1)) as [t1 T1]; [lia|].
  rewrite T0, T1. cbn [bind].
  destruct (get_cell_safe g (igrid f) cur Hc) as (c0 & G0 & V0).
  rewrite G0. cbn [bind].
  destruct (search_indices_safe x y z g gcode c0 ti time t0 t1)
    as (e & c & S & V & Sz); auto; try lia.
  rewrite S. cbn [bind].
  destruct (set_cell_safe g (igrid f) cur c Hc V) as (cur2 & W & _ & V2).
  rewrite W. cbn [bind].
  destruct (ErrorCode_eq_dec e SUCCESS) as [-> | N].
  - destruct (kernels_safe f gcode m c ti SUCCESS) as (k0 & K0); auto;
      try (fold g; lia).
    destruct (kernels_safe f gcode m c (ti + 1) SUCCESS) as (k1 & K1); auto;
      try (fold g; lia).
    fold g in K0, K1. rewrite K0. cbn [bind].
    destruct k0 as [[e0 f0]|]; [|eauto 10].
    rewrite K1. cbn [bind]. destruct k1 as [[e1 f1]|]; eauto 10.
  - destruct e; try contradiction; eauto 10.
Qed.

Lemma one_sample_safe (x y z : F) (f : CField F) gcode cur ti m :
  let g := grid (f_grid f) in
  grid_sizes gcode g -> field_sizes f -> cursors_valid g (igrid f) cur ->
  (curvilinear gcode = true -> g_sphere_mesh g = 0%Z) ->
  (0 <= ti <= g_tdim g - 1)%Z ->
  exists e cur' w,
    one_sample x y z f gcode cur ti m = Some (e, (cur', w))
    /\ cursors_valid g (igrid f) cur'.
Proof.
  intros g Hg Hf Hc Hflat Hti. unfold one_sample. fold g.
  pose proof Hg as (Hx & Hy & Hz & Ht & _).
  destruct (rd_Some (g_time g) ti) as [t0 T0]; [lia|].
  rewrite T0. cbn [bind].
  destruct (get_cell_safe g (igrid f) cur Hc) as (c0 & G0 & V0).
  rewrite G0. cbn [bind].
  destruct (search_indices_safe x y z g gcode c0 ti t0 t0 (t0 + of_int 1))
    as (e & c & S & V & Sz); auto; try lia.
  rewrite S. cbn [bind].
  destruct (set_cell_safe g (igrid f) cur c Hc V) as (cur2 & W & _ & V2).
  rewrite W. cbn [bind].
  destruct (ErrorCode_eq_dec e SUCCESS) as [-> | N].
  - destruct (kernels_safe f gcode m c ti SUCCESS) as (k0 & K0); auto;
      try (fold g; lia).
    fold g in K0. rewrite K0. cbn [bind].
    destruct k0 as [[e0 f0]|]; eauto 10.
  - destruct e; try contradiction; eauto 10.
Qed.

(** X17: a query reads inside its arrays and returns.  On a grid and a
    field whose arrays have the sizes that the dimensions announce, from
    cursors of the grid, [temporal_interpolation] returns for every point
    and every time, numbers or not, on a field that is not periodic and
    a grid that is rectilinear, or curvilinear on a flat mesh; and the
    cursors that it leaves, whatever the error code, are cursors of the
    grid again. *)
Theorem query_reads_inside :
  forall fuel x y z time (f : CField F) gcode cur m,
    let g := grid (f_grid f) in
    GridCode_of_int (gtype (f_grid f)) = Some gcode ->
    grid_sizes gcode g -> field_sizes f -> cursors_valid g (igrid f) cur ->
    time_periodic f <> 1%Z ->
    (curvilinear gcode = true -> g_sphere_mesh g = 0%Z) ->
    exists e cur' w,
      temporal_interpolation fuel x y z time f cur m = Some (e, (cur', w))
      /\ cursors_valid g (igrid f) cur'.
Proof.
  intros fuel x y z time f gcode cur m g G Hg Hf Hc Hper Hflat.
  unfold temporal_interpolation. rewrite G.
  unfold temporal_interpolation_structured_grid. fold g.
  pose proof Hg as (Hx & Hy & Hz & Ht & _).
  destruct (rd_Some (g_time g) 0) as [t0 T0]; [lia|].
  destruct (rd_Some (g_time g) (g_tdim g - 1)) as [tl Tl]; [lia|].
  assert (X : exists b, extrapolates time f = Some b).
  { unfold extrapolates. fold g.
    destruct ((time_periodic f =? 0)%Z && (allow_time_extrapolation f =? 0)%Z);
      [|eauto].
    rewrite T0. cbn [bind]. destruct (time <? t0); [eauto|].
    rewrite Tl. cbn [bind]. eauto. }
  destruct X as (b & X). rewrite X. cbn [bind].
  destruct b; [eauto 10|].
  pose proof Hc as (i & j & k & l & Hi & Hj & Hk & Hl & Ri & Rj & Rk & Rl).
  rewrite Hl. cbn [bind].
  destruct (search_time_index_total fuel time (g_tdim g) (g_time g) l
              (time_periodic f)) as (ti & S & Rti);
    [apply Z.eqb_neq; exact Hper | lia | lia |].
  rewrite S. cbn [bind].
  destruct (set_ti_safe g (igrid f) cur ti Hc Rti) as (cur1 & W & V1).
  rewrite W. cbn [bind].
  destruct (ti <? g_tdim g - 1)%Z eqn:Lt.
  - destruct (rd_Some (g_time g) ti) as [tv Tv]; [lia|].
    rewrite Tv. cbn [bind].
    destruct (time >? tv).
    + apply Z.ltb_lt in Lt. apply two_samples_safe; auto. fold g. lia.
    + apply one_sample_safe; auto.
  - cbn [bind]. apply one_sample_safe; auto.
Qed.

End Safety.

(** ** The reflection at the top row of a spherical curvilinear grid *)

Section TopRow.
Context {F : Type} {A : Arith F}.
Local Open Scope num_scope.

(** A cursor beyond the last column of cells makes the solve read
    outside the [ydim x xdim] table. *)
Lemma curvilinear_solve_outside (x y : F) xdim ydim xvals yvals sm
    (c : Cell F) :
  (2 <= xdim)%Z -> (2 <= ydim)%Z ->
  Z.of_nat (length xvals) = (xdim * ydim)%Z ->
  yi c = (ydim - 2)%Z -> (xdim - 1 <= xi c)%Z ->
  curvilinear_solve x y xdim xvals yvals sm c = None.
Proof.
  intros Hx Hy Hlen Hyi Hxi. unfold curvilinear_solve, xgrid_loc.
  assert (N : xvals.[(yi c + 1) * xdim + (xi c + 1)] = None).
  { destruct (xvals.[(yi c + 1) * xdim + (xi c + 1)]) as [v|] eqn:E;
      [|reflexivity].
    apply rd_range in E. exfalso. nia. }
  destruct (xvals.[yi c * xdim + xi c]); [|reflexivity]. cbn [bind].
  destruct (xvals.[yi c * xdim + (xi c + 1)]); [|reflexivity]. cbn [bind].
  rewrite N. reflexivity.
Qed.

(** X18: on a spherical curvilinear grid whose tables have
    [xdim * ydim] values, the search loop has no defined result for a
    point that the solve places above the top row of cells, in one of
    the first two columns: the step sets [yi] back to [ydim-2] and
    reflects [xi] to [xdim - xi], beyond the last column of cells, and
    the next round reads the tables outside their bounds. *)
Theorem top_row_reflection_reads_outside :
  forall n (x y : F) xdim ydim xvals yvals sm (c : Cell F) it xs et,
    (2 <= xdim)%Z -> (2 <= ydim)%Z ->
    Z.of_nat (length xvals) = (xdim * ydim)%Z ->
    sm <> 0%Z ->
    yi c = (ydim - 2)%Z -> (0 <= xi c <= 1)%Z -> (xi c <= xdim - 2)%Z ->
    outside_unit (xsi c) || outside_unit (eta c) = true ->
    curvilinear_solve x y xdim xvals yvals sm c = Some (xs, et) ->
    (xs <? of_int 0) = false -> (xs >? of_int 1) = false ->
    (et <? of_int 0) = false -> (et >? of_int 1) = true ->
    (it + 1 <= maxIterSearch)%Z ->
    curvilinear_walk (S (S n)) x y xdim ydim xvals yvals sm c it = None.
Proof.
  intros n x y xdim ydim xvals yvals sm c it xs et Hx Hy Hlen Hsm Hyi Hxi
         Hxi2 Hout S X0 X1 E0 E1 Hit.
  assert (R : curvilinear_round x y xdim ydim xvals yvals sm c
              = Some (Go (set_yi (set_xi (set_xsi (set_eta c et) xs)
                                    (xdim - xi c)) (ydim - 2)))).
  { unfold curvilinear_round. rewrite S. cbn [bind].
    rewrite X0, X1, E0, E1. cbn [andb].
    cbn [xi yi set_xsi set_eta]. rewrite Hyi.
    assert (E : fix_2d_indices (xi c) (ydim - 2 + 1) xdim ydim sm
                = ((xdim - xi c)%Z, (ydim - 2)%Z)).
    { unfold fix_2d_indices.
      destruct (xi c <? 0)%Z eqn:A1; [lia|].
      destruct (xi c >? xdim - 2)%Z eqn:A2; [lia|].
      destruct (ydim - 2 + 1 <? 0)%Z eqn:A3; [lia|].
      destruct (ydim - 2 + 1 >? ydim - 2)%Z eqn:A4; [|lia].
      destruct (sm =? 0)%Z eqn:A5; [lia | reflexivity]. }
    rewrite E. reflexivity. }
  set (c' := set_yi (set_xi (set_xsi (set_eta c et) xs) (xdim - xi c))
               (ydim - 2)) in R.
  assert (N : curvilinear_round x y xdim ydim xvals yvals sm c' = None).
  { unfold curvilinear_round.
    rewrite (curvilinear_solve_outside x y xdim ydim xvals yvals sm c');
      auto; subst c'; cbn [xi yi set_xi set_yi]; lia. }
  assert (O : outside_unit (xsi c') || outside_unit (eta c') = true).
  { subst c'. cbn [xsi eta set_xi set_yi set_xsi set_eta].
    unfold outside_unit. rewrite E1. apply orb_true_iff. right.
    apply orb_true_iff. right. reflexivity. }
  cbn [curvilinear_walk]. rewrite Hout, R. cbn [bind].
  destruct (it + 1 >? maxIterSearch)%Z eqn:G; [lia|].
  rewrite O, N. reflexivity.
Qed.

End TopRow.

(** ** The first test and the coordinates of the curvilinear search *)

Section CurvilinearTests.
Context {F : Type} {A : Arith F}.
Local Open Scope num_scope.

(** X19: [search_indices_curvilinear] tests [x] against the two ends of
    the first row of longitudes, before any search, whenever the grid is
    not zonally periodic or the mesh is flat: with ascending ends it
    answers ERROR_OUT_OF_BOUNDS for [x] below the first or above the
    last, with descending ends for [x] between the two, and it leaves
    the cursor and the coordinates as they were. *)
Theorem curvilinear_first_test :
  forall (x y z : F) xdim ydim zdim xvals yvals zvals sm zp gcode (c : Cell F)
         z4d ti tdim time t0 t1 x0 xl,
    zp = 0%Z \/ sm = 0%Z ->
    xvals.[0] = Some x0 -> xvals.[xdim - 1] = Some xl ->
    let search :=
      search_indices_curvilinear x y z xdim ydim zdim xvals yvals zvals sm zp
        gcode c z4d ti tdim time t0 t1 in
    ((x0 <? xl) = true -> (x <? x0) = true \/ (x >? xl) = true ->
     search = Some (ERROR_OUT_OF_BOUNDS, c))
    /\ ((x0 <? xl) = false -> (x0 >=? xl) = true ->
        (x <? x0) = true -> (x >? xl) = true ->
        search = Some (ERROR_OUT_OF_BOUNDS, c)).
Proof.
  intros x y z xdim ydim zdim xvals yvals zvals sm zp gcode c z4d ti tdim
         time t0 t1 x0 xl Hp H0 Hl search.
  subst search. unfold search_indices_curvilinear.
  assert (T : (zp =? 0)%Z || (sm =? 0)%Z = true).
  { apply orb_true_iff. destruct Hp as [-> | ->]; auto. }
  rewrite T, H0, Hl. cbn [bind]. split.
  - intros A1 [A2 | A2]; rewrite A1, A2; cbn [andb orb bind];
      [reflexivity|].
    destruct (x <? x0); reflexivity.
  - intros A1 A2 A3 A4. rewrite A1, A2, A3, A4. reflexivity.
Qed.

(** The last tests of the search. *)
Lemma curvilinear_tests (x y z : F) xdim ydim zdim xvals yvals zvals
    (c : Cell F) sm zp gcode z4d ti tdim time t0 t1 c' :
  search_indices_curvilinear x y z xdim ydim zdim xvals yvals zvals sm zp
    gcode c z4d ti tdim time t0 t1 = Some (SUCCESS, c') ->
  outside_unit (xsi c') = false /\ outside_unit (eta c') = false
  /\ outside_unit (zeta c') = false.
Proof.
  unfold search_indices_curvilinear, outside_unit.
  intros H; code_cases; auto; discriminate.
Qed.

End CurvilinearTests.

Section FloatCoordinates.

(** X20: on the binary64 numbers, the coordinates [xsi] and [eta] that a
    successful [search_indices_curvilinear] returns are numbers: neither
    is NaN, and neither is below 0 or above 1. *)
Theorem curvilinear_coordinates_are_numbers :
  forall (x y z : float) xdim ydim zdim xvals yvals zvals sm zp gcode
         (c : Cell float) z4d ti tdim time t0 t1 c',
    search_indices_curvilinear x y z xdim ydim zdim xvals yvals zvals sm zp
      gcode c z4d ti tdim time t0 t1 = Some (SUCCESS, c') ->
    PrimFloat.is_nan (xsi c') = false /\ PrimFloat.is_nan (eta c') = false
    /\ PrimFloat.ltb (xsi c') 0 = false /\ PrimFloat.ltb 1 (xsi c') = false
    /\ PrimFloat.ltb (eta c') 0 = false /\ PrimFloat.ltb 1 (eta c') = false.
Proof.
  intros x y z xdim ydim zdim xvals yvals zvals sm zp gcode c z4d ti tdim
         time t0 t1 c' H.
  destruct (curvilinear_rejects_nan _ _ _ _ _ _ _ _ _ _ _ _ _ _ _ _ _ _ _ _
              H) as [N1 N2].
  cbn [eqb ieee] in N1, N2.
  pose proof (curvilinear_tests _ _ _ _ _ _ _ _ _ _ _ _ _ _ _ _ _ _ _ _ H)
    as T.
  destruct T as (T1 & T2 & _). unfold outside_unit in T1, T2.
  apply orb_false_iff in T1, T2. destruct T1 as [A1 A2], T2 as [B1 B2].
  cbn [ltb ieee of_int] in A1, A2, B1, B2.
  unfold PrimFloat.is_nan. rewrite N1, N2.
  repeat split; assumption.
Qed.

End FloatCoordinates.

(** ** The further properties at work on the examples *)

(** Hypotheses at a concrete input are settled by evaluation. *)
Ltac settle :=
  first [ reflexivity | lia | discriminate
        | vm_compute;
          first [ reflexivity | discriminate | split; discriminate
                | intros; discriminate ] ].

Section IndexWitnesses.

Lemma fix_1d_index_contract_witness :
  (0 <= fix_1d_index (-3) 5 1 <= 5 - 2)%Z
  /\ fix_1d_index (-3) 5 1 = (5 - 2)%Z
  /\ fix_1d_index (fix_1d_index (-3) 5 1) 5 1 = fix_1d_index (-3) 5 1.
Proof.
  pose proof (fix_1d_index_contract (-3) 5 1) as H. cbv zeta in H.
  destruct H as (R & _ & _ & S & I); [lia|].
  split; [exact R|]. split; [apply S; lia | exact I].
Defined.

Lemma fix_2d_indices_contract_witness :
  fst (fix_2d_indices 1 7 5 4 1) = (5 - fix_1d_index 1 5 1)%Z
  /\ snd (fix_2d_indices 1 7 5 4 1) = (4 - 2)%Z
  /\ (2 <= fst (fix_2d_indices 1 7 5 4 1) <= 5)%Z.
Proof.
  pose proof (fix_2d_indices_contract 1 7 5 4 1) as H. cbv zeta in H.
  destruct H as (_ & _ & _ & S); [lia | lia |].
  destruct S as (A & B & C & _); [lia | lia |].
  split; [exact A|]. split; [exact B | exact C].
Defined.

End IndexWitnesses.

Section KernelWitnesses.
Local Open Scope Qc_scope.

Lemma bilinear_kernel_contract_witness :
  exists v,
    spatial_interpolation_bilinear (Q2Qc (1 # 2)) (Q2Qc (1 # 4)) 0 0 2
      corners 0 = Some (SUCCESS, v)
    /\ Exact.from_int 0 <= v <= Exact.from_int 3.
Proof.
  destruct (bilinear_kernel_contract (Q2Qc (1 # 2)) (Q2Qc (1 # 4)) 0 0 2
              corners 0 (Exact.from_int 0) (Exact.from_int 1)
              (Exact.from_int 3) (Exact.from_int 2))
    as (v & R & _ & _ & _ & _ & _ & B); try settle.
  exists v. split; [exact R|]. apply B; settle.
Defined.

Lemma trilinear_kernel_contract_witness :
  exists v,
    spatial_interpolation_trilinear (Q2Qc (1 # 2)) (Q2Qc (1 # 4))
      (Q2Qc (3 # 4)) 0 0 0 2 2 cube 0 = Some (SUCCESS, v)
    /\ Exact.from_int 0 <= v <= Exact.from_int 7.
Proof.
  pose proof (trilinear_kernel_contract (Q2Qc (1 # 2)) (Q2Qc (1 # 4))
                (Q2Qc (3 # 4)) 0 0 0 2 2 cube 0
                (Exact.from_int 0) (Exact.from_int 1) (Exact.from_int 3)
                (Exact.from_int 2) (Exact.from_int 4) (Exact.from_int 5)
                (Exact.from_int 7) (Exact.from_int 6)) as H.
  cbv zeta in H.
  destruct H as (v & R & _ & _ & B); try settle.
  exists v. split; [exact R|]. apply B; settle.
Defined.

Lemma nearest_kernel_contract_witness :
  exists (a b : Z) v,
    spatial_interpolation_nearest2D (Q2Qc (1 # 2)) (Q2Qc (1 # 4)) 0 0 2
      corners 0 = Some (SUCCESS, v)
    /\ corners.[0 + (0 + b) * 2 + (0 + a)] = Some v
    /\ a = 1%Z /\ b = 0%Z.
Proof.
  destruct (proj1 nearest_kernel_contract (Q2Qc (1 # 2)) (Q2Qc (1 # 4))
              0%Z 0%Z 2%Z corners 0%Z (Exact.from_int 0) (Exact.from_int 1)
              (Exact.from_int 3) (Exact.from_int 2))
    as (a & b & v & R & D & Ha & Hb & _); try settle.
  exists a, b, v. split; [exact R|]. split; [exact D|]. split.
  - destruct Ha as [[_ L] | [E _]]; [|exact E].
    exfalso. revert L. vm_compute. discriminate.
  - destruct Hb as [[E _] | [_ L]]; [exact E|].
    exfalso. revert L. vm_compute. intros L. apply L. reflexivity.
Defined.

End KernelWitnesses.

Section QueryWitnesses.
Local Open Scope Qc_scope.

Lemma query_error_codes_witness :
  (GridCode_of_int (gtype (f_grid ticks)) = None
   \/ InterpCode_of_int 7 = None)
  /\ (ERROR_OUT_OF_BOUNDS <> REPEAT /\ ERROR_OUT_OF_BOUNDS <> DELETE).
Proof.
  destruct (@query_error_codes Qc exact) as (_ & E & _ & N & _). split.
  - refine (E 1%nat 0 0 0 t13 ticks cursors0 7%Z _ _).
    vm_compute. reflexivity.
  - refine (N 1%nat (Exact.from_int 5) 0 0 t13 ticks cursors0 0%Z _ _ _).
    vm_compute. reflexivity.
Defined.

Lemma query_outputs_witness :
  exists cur' w,
    temporal_interpolation 1 0 0 0 t13 ticks cursors0 0
    = Some (SUCCESS, (cur', w))
    /\ (exists v, w = Some v)
    /\ length (c_ti cur') = length (c_ti cursors0).
Proof.
  eexists. eexists.
  match goal with
  | |- ?run = Some ?r /\ _ =>
      assert (R : run = Some r) by (vm_compute; reflexivity)
  end.
  destruct (query_outputs _ _ _ _ _ _ _ _ _ _ _ R)
    as (V & _ & _ & _ & _ & _ & _ & L).
  split; [exact R|]. split; [apply V; reflexivity | exact L].
Defined.

Lemma two_field_query_witness :
  exists cur' vU' vV',
    temporal_interpolationUV 1 0 0 0 t13 ticks clock cursors0 0 0 0
    = Some (SUCCESS, (cur', (vU', vV')))
    /\ exists cur1,
         temporal_interpolation 1 0 0 0 t13 ticks cursors0 0
         = Some (SUCCESS, (cur1, Some vU'))
         /\ temporal_interpolation 1 0 0 0 t13 clock cur1 0
            = Some (SUCCESS, (cur', Some vV')).
Proof.
  eexists. eexists. eexists.
  match goal with
  | |- ?run = Some ?r /\ _ =>
      assert (R : run = Some r) by (vm_compute; reflexivity)
  end.
  split; [exact R|].
  exact (proj1 (two_field_query _ _ _ _ _ _ _ _ _ _ _ _ _ _ _ R) eq_refl).
Defined.

End QueryWitnesses.

Section SearchWitnesses.
Local Open Scope Qc_scope.

Lemma flat_rectilinear_domain_witness :
  (exists c',
      search_indices_rectilinear (Q2Qc (1 # 2)) (Q2Qc (3 # 2))
        (Exact.from_int 5) 3 3 3 axis012 axis012 levels 0 0
        RECTILINEAR_Z_GRID origin 0 0 1 0 0 1 = Some (SUCCESS, c'))
  /\
  (exists c',
      search_indices_rectilinear (Q2Qc (1 # 2)) (Q2Qc (3 # 2))
        (Exact.from_int 25) 3 3 3 axis012 axis012 levels 0 0
        RECTILINEAR_Z_GRID origin 0 0 1 0 0 1
      = Some (ERROR_OUT_OF_BOUNDS, c')).
Proof.
  split.
  - pose proof (flat_rectilinear_domain (Q2Qc (1 # 2)) (Q2Qc (3 # 2))
                  (Exact.from_int 5) 3 3 3 axis012 axis012 levels 0 origin
                  0 0 1 0 0 1 (Exact.from_int 0) (Exact.from_int 2)
                  (Exact.from_int 0) (Exact.from_int 2) (Exact.from_int 0)
                  (Exact.from_int 20)) as H.
    cbv zeta in H.
    destruct H as [In _]; try settle;
      [intros _; repeat split; settle|].
    apply In.
    split; [settle|]. split; [settle|]. intros _. settle.
  - pose proof (flat_rectilinear_domain (Q2Qc (1 # 2)) (Q2Qc (3 # 2))
                  (Exact.from_int 25) 3 3 3 axis012 axis012 levels 0 origin
                  0 0 1 0 0 1 (Exact.from_int 0) (Exact.from_int 2)
                  (Exact.from_int 0) (Exact.from_int 2) (Exact.from_int 0)
                  (Exact.from_int 20)) as H.
    cbv zeta in H.
    destruct H as [_ Out]; try settle;
      [intros _; repeat split; settle|].
    apply Out.
    intros (_ & _ & Hz). destruct (Hz ltac:(lia)) as [_ L].
    revert L. vm_compute. intros L. apply L. reflexivity.
Defined.

Lemma level_depends_on_hint_witness :
  search_indices_vertical_z (Exact.from_int 10) 3 levels 0 0
  = Some (SUCCESS, ((1 - 1)%Z, 1))
  /\ search_indices_vertical_z (Exact.from_int 10) 3 levels 1 0
     = Some (SUCCESS, (1%Z, 0)).
Proof.
  split.
  - refine (proj1 (level_depends_on_hint (Exact.from_int 10) 3 levels 0 0 1
                     _ _ _ _ _) _); settle.
  - refine (proj2 (level_depends_on_hint (Exact.from_int 10) 3 levels 1 0 1
                     _ _ _ _ _) _); settle.
Defined.

Lemma time_index_fixed_point_witness :
  search_time_index 1 (Q2Qc (1 # 2)) 3 axis012 0 1
  = Some (SUCCESS, (Q2Qc (1 # 2), 0%Z)).
Proof.
  refine (time_index_fixed_point 0 (Q2Qc (9 # 2)) 3 axis012 2 1
            (Exact.from_int 0) (Exact.from_int 2) (Q2Qc (1 # 2)) 0
            _ _ _ _ _ _ _); try settle.
  intros _ _. split; [settle|]. vm_compute. split; discriminate.
Defined.

Lemma periodic_time_on_axis_witness :
  exists t' ti' lo,
    search_time_index 1 (Q2Qc (9 # 2)) 3 axis012 2 1
    = Some (SUCCESS, (t', ti'))
    /\ Exact.from_int 0 <= t' /\ t' <= Exact.from_int 2
    /\ (0 <= ti' <= 3 - 1)%Z
    /\ axis012.[ti'] = Some lo /\ lo <= t'.
Proof.
  destruct (periodic_time_on_axis 0 (Q2Qc (9 # 2)) 3 axis012 2
              (Exact.from_int 0) (Exact.from_int 2))
    as (t' & ti' & lo & R & A & B & _ & _ & C & D & E & _); try settle.
  exists t', ti', lo. auto 10.
Defined.

Lemma search_indices_fixed_point_witness :
  exists c',
    search_indices (Q2Qc (1 # 2)) (Q2Qc (3 # 2)) (Exact.from_int 5) 3 3 3
      axis012 axis012 levels origin 0 0 RECTILINEAR_Z_GRID 0 0 1 0 0 1
    = Some (SUCCESS, c')
    /\ search_indices (Q2Qc (1 # 2)) (Q2Qc (3 # 2)) (Exact.from_int 5) 3 3 3
         axis012 axis012 levels c' 0 0 RECTILINEAR_Z_GRID 0 0 1 0 0 1
       = Some (SUCCESS, c').
Proof.
  eexists.
  match goal with
  | |- ?run = Some ?r /\ _ =>
      assert (R : run = Some r) by (vm_compute; reflexivity)
  end.
  split; [exact R|].
  refine (search_indices_fixed_point _ _ _ _ _ _ _ _ _ _ _ _ _ _ _ _ _ _
            _ _ _ _ _ _ R); settle.
Defined.

End SearchWitnesses.

Section DriverWitnesses.
Local Open Scope Qc_scope.

Lemma constant_time_extrapolation_witness :
  temporal_interpolation_structured_grid 1 0 0 0 (Exact.from_int (-1)) drift
    RECTILINEAR_Z_GRID cursors0 0
  = one_sample 0 0 0 drift RECTILINEAR_Z_GRID cursors0 0 0
  /\ temporal_interpolation_structured_grid 1 0 0 0 (Exact.from_int 5) drift
       RECTILINEAR_Z_GRID cursors0 0
     = one_sample 0 0 0 drift RECTILINEAR_Z_GRID
         {| c_xi := [0%Z]; c_yi := [0%Z]; c_zi := [0%Z]; c_ti := [2%Z] |}
         (3 - 1) 0.
Proof.
  split.
  - pose proof (constant_time_extrapolation 1 0 0 0 (Exact.from_int (-1))
                  drift RECTILINEAR_Z_GRID cursors0 0 0 (Exact.from_int 0)
                  (Exact.from_int 2)) as H.
    cbv zeta in H. destruct H as [Before _]; [settle.. |].
    apply Before; settle.
  - pose proof (constant_time_extrapolation 1 0 0 0 (Exact.from_int 5)
                  drift RECTILINEAR_Z_GRID cursors0 0 0 (Exact.from_int 0)
                  (Exact.from_int 2)) as H.
    cbv zeta in H. destruct H as [_ After]; [settle.. |].
    apply After; settle.
Defined.


End DriverWitnesses.

Section ColumnWitnesses.
Local Open Scope Qc_scope.


End ColumnWitnesses.

Section SafetyWitnesses.
Local Open Scope float_scope.

Lemma query_reads_inside_witness :
  exists e cur' w,
    temporal_interpolation 1 nan 0.5 0 2.5 ramp cursors0 0
    = Some (e, (cur', w))
    /\ cursors_valid (grid (f_grid ramp)) (igrid ramp) cur'.
Proof.
  refine (query_reads_inside 1 nan 0.5 0 2.5 ramp RECTILINEAR_Z_GRID
            cursors0 0 _ _ _ _ _ _).
  - reflexivity.
  - unfold grid_sizes. simpl. repeat split; try lia; intros; lia.
  - unfold field_sizes. simpl. repeat split; lia.
  - exists 0%Z, 0%Z, 0%Z, 0%Z. simpl. repeat split; try reflexivity; lia.
  - discriminate.
  - discriminate.
Defined.

Lemma curvilinear_coordinates_are_numbers_witness :
  exists c',
    search_indices_curvilinear 1.25 0.75 0 2 2 1 square_lon64 square_lat64
      [0] 0 0 CURVILINEAR_Z_GRID origin 0 0 1 0 0 1 = Some (SUCCESS, c')
    /\ PrimFloat.is_nan (xsi c') = false
    /\ PrimFloat.is_nan (eta c') = false
    /\ PrimFloat.ltb (xsi c') 0 = false /\ PrimFloat.ltb 1 (xsi c') = false
    /\ PrimFloat.ltb (eta c') 0 = false /\ PrimFloat.ltb 1 (eta c') = false.
Proof.
  eexists.
  match goal with
  | |- ?run = Some ?r /\ _ =>
      assert (R : run = Some r) by (vm_compute; reflexivity)
  end.
  split; [exact R|].
  exact (curvilinear_coordinates_are_numbers _ _ _ _ _ _ _ _ _ _ _ _ _ _ _
           _ _ _ _ _ R).
Defined.

End SafetyWitnesses.

Section TopRowWitnesses.
Local Open Scope Qc_scope.

Lemma top_row_reflection_reads_outside_witness :
  curvilinear_walk 2 (Exact.from_int 1) (Exact.from_int 3) 2 2 square_lon
    square_lat 1 unsolved 0 = None.
Proof.
  refine (top_row_reflection_reads_outside 0 (Exact.from_int 1)
            (Exact.from_int 3) 2 2 square_lon square_lat 1 unsolved 0
            (Q2Qc (1 # 2)) (Q2Qc (6 # 4)) _ _ _ _ _ _ _ _ _ _ _ _ _ _);
    settle.
Defined.

Lemma curvilinear_first_test_witness :
  search_indices_curvilinear (Exact.from_int 3) (Exact.from_int 1) 0 2 2 1
    square_lon square_lat surface 0 0 CURVILINEAR_Z_GRID origin 0 0 1 0 0 1
  = Some (ERROR_OUT_OF_BOUNDS, origin).
Proof.
  pose proof (curvilinear_first_test (Exact.from_int 3) (Exact.from_int 1)
                0 2 2 1 square_lon square_lat surface 0 0
                CURVILINEAR_Z_GRID origin 0 0 1 0 0 1 (Exact.from_int 0)
                (Exact.from_int 2)) as H.
  cbv zeta in H.
  destruct H as [Asc _]; [left; reflexivity | settle | settle |].
  apply Asc; [settle | right; settle].
Defined.

End TopRowWitnesses.
